(** * The Codeforces cog of the TLE bot ([tle/cogs/codeforces.py])

    A shallow embedding of the three chat commands [gitgud], [rating] and
    [solved] and of the API wrapper [query_api].

    - Values decoded from the API are [json] trees; the numbers of the
      Codeforces API are integers and are kept as [Z].
    - Python's dynamic failures are results: subscripting [None], a missing
      key, an index out of range ... give [Raise] with the exception class.
    - A command is a computation in the monad [M]: it receives the number of
      HTTP requests already issued and returns its result together with the
      events it emitted, in order (requests, log lines, chat messages,
      pyplot calls).  Calls into pyplot, discord and the file system are
      recorded as events and taken to succeed.
    - The outside world (HTTP answers, the random generator, the range of
      time stamps the platform accepts) is a [world] record. *)

From Stdlib Require Import ZArith String Ascii Bool Lia List Permutation.
Import ListNotations.
Open Scope string_scope.
Open Scope list_scope.
Open Scope Z_scope.

(** ** Decoded JSON *)

(** The value of [resp.json()].  [JNull] is Python's [None]; an object is
    the list of the bindings of the decoded dict, [assoc] finds the first
    binding of a key. *)
Unset Elimination Schemes.
Inductive json : Type :=
| JNull
| JBool (b : bool)
| JNum (n : Z)
| JStr (s : string)
| JArr (l : list json)
| JObj (o : list (string * json)).
Set Elimination Schemes.

(** ** Exceptions and results *)

Inductive exn : Type :=
| TypeError
| KeyError
| IndexError
| AttributeError
| UntrackedError. (* an exception whose class the model does not track *)

Inductive result (A : Type) : Type :=
| Ret (a : A)
| Raise (e : exn).
Arguments Ret {A} a.
Arguments Raise {A} e.

Definition rbind {A B} (r : result A) (k : A -> result B) : result B :=
  match r with
  | Ret a => k a
  | Raise e => Raise e
  end.

Notation "'let*' x ':=' r 'in' k" := (rbind r (fun x => k))
  (at level 10, x pattern, r at level 100, k at level 200).

(** [for x in xs: acc = f(x, acc)], stopping at the first exception. *)
Fixpoint foldM {A B} (f : A -> B -> result B) (xs : list A) (acc : B) : result B :=
  match xs with
  | [] => Ret acc
  | x :: xs' => let* acc' := f x acc in foldM f xs' acc'
  end.

(** ** Python operations on decoded values *)

Fixpoint assoc (k : string) (o : list (string * json)) : option json :=
  match o with
  | [] => None
  | (k', v) :: o' => if String.eqb k k' then Some v else assoc k o'
  end.

Definition is_none (v : json) : bool :=
  match v with JNull => true | _ => false end.

(** [v == s] for a string literal [s]. *)
Definition json_is_str (s : string) (v : json) : bool :=
  match v with JStr s' => String.eqb s s' | _ => false end.

(** [v == n] for an int [n]; [bool] is a subclass of [int]. *)
Definition json_eq_int (v : json) (n : Z) : bool :=
  match v with
  | JNum m => m =? n
  | JBool b => Z.b2z b =? n
  | _ => false
  end.

(** Truth value of [v] in an [if]. *)
Definition truthy (v : json) : bool :=
  match v with
  | JNull => false
  | JBool b => b
  | JNum n => negb (n =? 0)
  | JStr s => negb (String.eqb s "")
  | JArr l => match l with [] => false | _ => true end
  | JObj o => match o with [] => false | _ => true end
  end.

(** [v[k]] with a string key. *)
Definition getitem (v : json) (k : string) : result json :=
  match v with
  | JObj o => match assoc k o with Some x => Ret x | None => Raise KeyError end
  | _ => Raise TypeError
  end.

(** [l[i]] on a Python list; a negative [i] counts from the end. *)
Definition list_index {A} (l : list A) (i : Z) : result A :=
  let n := Z.of_nat (List.length l) in
  let j := if i <? 0 then i + n else i in
  if (0 <=? j) && (j <? n)
  then match nth_error l (Z.to_nat j) with Some x => Ret x | None => Raise IndexError end
  else Raise IndexError.

Definition chars (s : string) : list json :=
  map (fun c => JStr (String c "")) (list_ascii_of_string s).

(** [v[i]] with an int index. *)
Definition getitem_int (v : json) (i : Z) : result json :=
  match v with
  | JArr l => list_index l i
  | JStr s => list_index (chars s) i
  | JObj _ => Raise KeyError (* the keys of a decoded object are strings *)
  | _ => Raise TypeError
  end.

(** [v.get(k)]: only a dict has the method. *)
Definition get_method (v : json) (k : string) : result json :=
  match v with
  | JObj o => Ret (match assoc k o with Some x => x | None => JNull end)
  | _ => Raise AttributeError
  end.

Fixpoint substringb (x s : string) : bool :=
  prefix x s ||
  match s with
  | EmptyString => false
  | String _ s' => substringb x s'
  end.

(** [x in v] for a string literal [x]: a key of a dict, an element of a
    list, a substring of a string. *)
Definition str_in (x : string) (v : json) : result bool :=
  match v with
  | JObj o => Ret (existsb (String.eqb x) (map fst o))
  | JArr l => Ret (existsb (json_is_str x) l)
  | JStr s => Ret (substringb x s)
  | _ => Raise TypeError
  end.

(** The elements a [for] loop over [v] visits. *)
Definition py_iter (v : json) : result (list json) :=
  match v with
  | JArr l => Ret l
  | JObj o => Ret (map JStr (nodup string_dec (map fst o)))
  | JStr s => Ret (chars s)
  | _ => Raise TypeError
  end.

(** The operand of the arithmetic in [round_rating].  A string fails in the
    formatting [str % int] or in the subtraction after it. *)
Definition as_int (v : json) : result Z :=
  match v with
  | JNum n => Ret n
  | JBool b => Ret (Z.b2z b)
  | JStr _ => Raise UntrackedError
  | _ => Raise TypeError
  end.

(** ** [round_rating] (nested in [gitgud]) *)

Definition round_rating (rating : Z) : Z :=
  let rem := rating mod 100 in
  let rating := rating - rem in
  if 50 <=? rem then rating + 100 else rating.

(** ** Keys [(name, rating)]: hashing and equality *)

(** What Python's [==] and [hash] see of a hashable decoded value:
    [True == 1] and [False == 0]. *)
Inductive atom : Type :=
| ANone
| AInt (n : Z)
| AStr (s : string).

Definition atom_of (v : json) : option atom :=
  match v with
  | JNull => Some ANone
  | JBool b => Some (AInt (Z.b2z b))
  | JNum n => Some (AInt n)
  | JStr s => Some (AStr s)
  | JArr _ | JObj _ => None (* unhashable *)
  end.

Definition atom_eqb (a b : atom) : bool :=
  match a, b with
  | ANone, ANone => true
  | AInt n, AInt m => n =? m
  | AStr s, AStr t => String.eqb s t
  | _, _ => false
  end.

Definition key : Type := (json * json)%type.

Definition hash_key (k : key) : option (atom * atom) :=
  match atom_of (fst k), atom_of (snd k) with
  | Some a, Some b => Some (a, b)
  | _, _ => None
  end.

(** Equality of two tuples as a dict or a set compares them. *)
Definition same_key (k k' : key) : bool :=
  match hash_key k, hash_key k' with
  | Some (a, b), Some (a', b') => atom_eqb a a' && atom_eqb b b'
  | _, _ => false
  end.

(** ** The dict [recommendations] and the set [problems]

    A dict is the list of its items in insertion order. *)
Definition dict (V : Type) : Type := list (key * V).

Fixpoint dict_set {V} (k : key) (v : V) (d : dict V) : dict V :=
  match d with
  | [] => [(k, v)]
  | (k', v') :: d' =>
      if same_key k k' then (k', v) :: d' else (k', v') :: dict_set k v d'
  end.

Fixpoint dict_del {V} (k : key) (d : dict V) : dict V :=
  match d with
  | [] => []
  | (k', v') :: d' => if same_key k k' then d' else (k', v') :: dict_del k d'
  end.

Fixpoint dict_lookup {V} (k : key) (d : dict V) : option V :=
  match d with
  | [] => None
  | (k', v') :: d' => if same_key k k' then Some v' else dict_lookup k d'
  end.

Definition dict_keys {V} (d : dict V) : list key := map fst d.

(** [d[k] = v]: hashing an unhashable key raises. *)
Definition dict_setitem {V} (k : key) (v : V) (d : dict V) : result (dict V) :=
  match hash_key k with
  | Some _ => Ret (dict_set k v d)
  | None => Raise TypeError
  end.

(** [d.pop(k, None)]. *)
Definition dict_pop {V} (k : key) (d : dict V) : result (dict V) :=
  match hash_key k with
  | Some _ => Ret (dict_del k d)
  | None => Raise TypeError
  end.

(** [d[k]]. *)
Definition dict_getitem {V} (k : key) (d : dict V) : result V :=
  match hash_key k with
  | Some _ => match dict_lookup k d with Some v => Ret v | None => Raise KeyError end
  | None => Raise TypeError
  end.

Definition key_mem (k : key) (s : list key) : bool := existsb (same_key k) s.

(** [s.add(k)]; the model lists a set in the order of insertion. *)
Definition set_add (k : key) (s : list key) : result (list key) :=
  match hash_key k with
  | Some _ => Ret (if key_mem k s then s else s ++ [k])
  | None => Raise TypeError
  end.

(** ** The world outside and the events of a command *)

Definition params : Type := list (string * json).

(** What [session.get(url, params)] followed by [resp.json()] does. *)
Inductive http_result : Type :=
| HttpJson (body : json)
| HttpConnectionError          (* aiohttp.ClientConnectionError *)
| HttpOtherError.              (* any other exception of the request *)

Record world : Type := {
  (** the answer to the request number [n] of the command *)
  http_get : nat -> string -> params -> http_result;
  (** [random._randbelow] *)
  randbelow : nat -> nat;
  randbelow_lt : forall n, (0 < n)%nat -> (randbelow n < n)%nat;
  (** the time stamps [datetime.fromtimestamp] accepts *)
  timestamp_ok : Z -> bool
}.

(** The embed of a recommendation, by the values its title, url and
    description are formatted from. *)
Record embed : Type := {
  embed_index : json;
  embed_name : json;
  embed_contestid : json;
  embed_contestname : json;
  embed_rating : json
}.

Inductive event : Type :=
| Query (path : string) (p : params)         (* session.get *)
| LogError                                    (* logging.error *)
| LogInfo (comment : json)                    (* logging.info *)
| Send (content : string)                     (* ctx.send(text) *)
| SendEmbed (content : string) (e : embed)    (* ctx.send(text, embed=...) *)
| SendFile                                    (* ctx.send(file=current figure) *)
| PltClf
| PltPlot (times : list Z) (ratings : list json)
| PltGetYlim
| PltAxhspan (lo hi : Z) (facecolor : string)
| PltSetYlim
| PltAutofmtXdate
| PltLegend (labels : list (string * json))      (* a label by its handle and rating *)
| PltHist (allratings : list (list json)) (bins : list Z)
          (labels : list (string * nat))          (* a label by its handle and count *)
| PltTitles                                       (* title, xlabel, ylabel, legend *)
| PltSaveFig.                                     (* savefig, read back, remove *)

Definition is_query (e : event) : bool :=
  match e with Query _ _ => true | _ => false end.

Definition nqueries (t : list event) : nat := List.length (filter is_query t).

(** A message reaches the channel. *)
Definition is_reply (e : event) : bool :=
  match e with Send _ | SendEmbed _ _ | SendFile => true | _ => false end.

(** ** The command monad *)

Definition M (A : Type) : Type := nat -> result A * list event.

Definition ret {A} (a : A) : M A := fun _ => (Ret a, []).

Definition bind {A B} (m : M A) (k : A -> M B) : M B :=
  fun n =>
    match m n with
    | (Ret a, t) => let (r, t') := k a (n + nqueries t)%nat in (r, t ++ t')
    | (Raise e, t) => (Raise e, t)
    end.

Definition emit (e : event) : M unit := fun _ => (Ret tt, [e]).

Definition emits (es : list event) : M unit := fun _ => (Ret tt, es).

Definition lift {A} (r : result A) : M A := fun _ => (r, []).

Declare Scope cmd_scope.
Delimit Scope cmd_scope with cmd.
Notation "x <- m ;; k" := (bind m (fun x => k))
  (at level 61, m at next level, right associativity) : cmd_scope.
Notation "m ;; k" := (bind m (fun _ => k))
  (at level 61, right associativity) : cmd_scope.
Open Scope cmd_scope.

(** A loop body either goes on with the next element or leaves the command
    by [return]. *)
Inductive loop_step (A : Type) : Type :=
| Continue (acc : A)
| Return.
Arguments Continue {A} acc.
Arguments Return {A}.

Fixpoint for_each {A B} (body : A -> B -> M (loop_step B)) (xs : list A) (acc : B)
  : M (loop_step B) :=
  match xs with
  | [] => ret (Continue acc)
  | x :: xs' =>
      r <- body x acc ;;
      match r with
      | Continue acc' => for_each body xs' acc'
      | Return => ret Return
      end
  end.

Section Cog.

Variable w : world.

(** *** [query_api] *)

Definition query_api (path : string) (p : params) : M json :=
  fun n =>
    match http_get w n path p with
    | HttpJson body => (Ret body, [Query path p])
    | HttpConnectionError => (Ret JNull, [Query path p; LogError])
    | HttpOtherError => (Raise UntrackedError, [Query path p])
    end.

(** *** [gitgud] *)

(** Lines 47-51: the bucket of the user. *)
Definition user_bucket (infojson : json) : result Z :=
  let* res := getitem infojson "result" in
  let* user := getitem_int res 0 in
  let* user_rating := get_method user "rating" in
  let user_rating := if is_none user_rating then JNum 500 else user_rating in
  let* n := as_int user_rating in
  Ret (round_rating n).

(** Lines 55-62: the body of the loop over the problems. *)
Definition add_candidate (user_rating : Z) (problem : json) (recommendations : dict (json * json))
  : result (dict (json * json)) :=
  let* tags := getitem problem "tags" in
  let* special := str_in "*special" tags in
  if negb special then
    let* r := get_method problem "rating" in
    if json_eq_int r user_rating then
      let* has := str_in "contestId" problem in
      if has then
        let* name := getitem problem "name" in
        let* contestid := getitem problem "contestId" in
        let* index := getitem problem "index" in
        let* rating := getitem problem "rating" in
        dict_setitem (name, rating) (contestid, index) recommendations
      else Ret recommendations
    else Ret recommendations
  else Ret recommendations.

(** Lines 65-69: the body of the loop over the submissions. *)
Definition remove_solved (sub : json) (recommendations : dict (json * json))
  : result (dict (json * json)) :=
  let* problem := getitem sub "problem" in
  let* verdict := getitem sub "verdict" in
  if json_is_str "OK" verdict then
    let* has := str_in "rating" problem in
    if has then
      let* name := getitem problem "name" in
      let* rating := getitem problem "rating" in
      dict_pop (name, rating) recommendations
    else Ret recommendations
  else Ret recommendations.

(** Lines 47-69: the recommendation set from the three answers. *)
Definition recommendations_of (probjson infojson subsjson : json)
  : result (dict (json * json)) :=
  let* user_rating := user_bucket infojson in
  let* pr := getitem probjson "result" in
  let* problems := getitem pr "problems" in
  let* problems := py_iter problems in
  let* recommendations := foldM (add_candidate user_rating) problems [] in
  let* subs := getitem subsjson "result" in
  let* subs := py_iter subs in
  foldM remove_solved subs recommendations.

(** [random.choice(list(recommendations.keys()))] on a dict that is not
    empty. *)
Definition random_choice (keys : list key) (default : key) : key :=
  nth (randbelow w (List.length keys)) keys default.

Definition too_gud (handle : string) : string :=
  (handle ++ " is already too gud")%string.

(** Lines 71-88: the reply. *)
Definition recommend (handle : string) (recommendations : dict (json * json)) : M unit :=
  match recommendations with
  | [] => emit (Send (too_gud handle))
  | first :: _ =>
      let '(name, rating) := random_choice (dict_keys recommendations) (fst first) in
      ci <- lift (dict_getitem (name, rating) recommendations) ;;
      let '(contestid, index) := ci in
      contestjson <- query_api "contest.standings"
                       [("contestId", contestid); ("from", JNum 1); ("count", JNum 1)] ;;
      contestname <- lift (let* r := getitem contestjson "result" in
                           let* c := getitem r "contest" in
                           getitem c "name") ;;
      emit (SendEmbed ("Recommended problem for `" ++ handle ++ "`")%string
              {| embed_index := index; embed_name := name; embed_contestid := contestid;
                 embed_contestname := contestname; embed_rating := rating |})
  end.

Definition gitgud (handle : string) : M unit :=
  probjson <- query_api "problemset.problems" [] ;;
  infojson <- query_api "user.info" [("handles", JStr handle)] ;;
  subsjson <- query_api "user.status" [("handle", JStr handle)] ;;
  recommendations <- lift (recommendations_of probjson infojson subsjson) ;;
  recommend handle recommendations.

(** *** The checks [rating] and [solved] share *)

Definition handle_count_error : string := "Number of handles must be between 1 and 5".
Definition connect_error : string := "Error connecting to Codeforces API".
Definition denied_error : string :=
  "Codeforces API denied the request, please make sure handles are valid.".
Definition handle_not_found (handle : string) : string :=
  ("Handle not found: `" ++ handle ++ "`")%string.

(** [not handles or len(handles) > 5] *)
Definition bad_handle_count (handles : list string) : bool :=
  (List.length handles =? 0)%nat || (5 <? List.length handles)%nat.

(** The figure goes to a temporary file and comes back as a
    [discord.File]. *)
Definition get_current_figure_as_file : M unit := emit PltSaveFig.

(** *** [rating] *)

Definition fromtimestamp (v : json) : result Z :=
  match v with
  | JNum n => if timestamp_ok w n then Ret n else Raise UntrackedError
  | JBool b => if timestamp_ok w (Z.b2z b) then Ret (Z.b2z b) else Raise UntrackedError
  | _ => Raise TypeError
  end.

(** Lines 117-118: the body of the loop over the contests. *)
Definition rating_point (contest : json) (acc : list json * list Z)
  : result (list json * list Z) :=
  let '(ratings, times) := acc in
  let* r := getitem contest "newRating" in
  let* ts := getitem contest "ratingUpdateTimeSeconds" in
  let* t := fromtimestamp ts in
  Ret (ratings ++ [r], times ++ [t]).

(** Lines 100-120: the body of the loop over the handles. *)
Definition rating_handle (handle : string) (rate : list json) : M (loop_step (list json)) :=
  respjson <- query_api "user.rating" [("handle", JStr handle)] ;;
  if is_none respjson then
    emit (Send connect_error) ;; ret Return
  else
    status <- lift (getitem respjson "status") ;;
    if json_is_str "FAILED" status then
      comment <- lift (getitem respjson "comment") ;;
      not_found <- lift (str_in "not found" comment) ;;
      (if not_found then emit (Send (handle_not_found handle))
       else emit (LogInfo comment) ;; emit (Send denied_error)) ;;
      ret Return
    else
      contests <- lift (getitem respjson "result") ;;
      contests <- lift (py_iter contests) ;;
      rt <- lift (foldM rating_point contests ([], [])) ;;
      let '(ratings, times) := rt in
      emit (PltPlot times ratings) ;;
      last <- lift (list_index ratings (-1)) ;;
      ret (Continue (rate ++ [last])).

Definition colors : list (string * Z * Z) :=
  [("#AA0000", 3000, 4000);
   ("#FF3333", 2600, 3000);
   ("#FF7777", 2400, 2600);
   ("#FFBB55", 2300, 2400);
   ("#FFCC88", 2100, 2300);
   ("#FF88FF", 1900, 2100);
   ("#AAAAFF", 1600, 1900);
   ("#77DDBB", 1400, 1600);
   ("#77FF77", 1200, 1400);
   ("#CCCCCC", 0, 1200)].

Definition rating (handles : list string) : M unit :=
  if bad_handle_count handles then emit (Send handle_count_error)
  else
    emit PltClf ;;
    r <- for_each rating_handle handles [] ;;
    match r with
    | Return => ret tt
    | Continue rate =>
        emit PltGetYlim ;;
        emits (map (fun c => let '(color, lo, hi) := c in PltAxhspan lo hi color) colors) ;;
        emit PltSetYlim ;;
        emit PltAutofmtXdate ;;
        emit (PltLegend (combine handles rate)) ;;
        get_current_figure_as_file ;;
        emit SendFile
    end.

(** *** [solved] *)

(** Lines 171-177: the body of the loop over the submissions. *)
Definition add_solved (submission : json) (problems : list key) : result (list key) :=
  let* verdict := getitem submission "verdict" in
  if json_is_str "OK" verdict then
    let* problem := getitem submission "problem" in
    let* name := getitem problem "name" in
    let* rating := get_method problem "rating" in
    if truthy rating then set_add (name, rating) problems else Ret problems
  else Ret problems.

(** Lines 155-180: the body of the loop over the handles. *)
Definition solved_handle (handle : string) (allratings : list (list json))
  : M (loop_step (list (list json))) :=
  respjson <- query_api "user.status" [("handle", JStr handle)] ;;
  if is_none respjson then
    emit (Send connect_error) ;; ret Return
  else
    status <- lift (getitem respjson "status") ;;
    if json_is_str "FAILED" status then
      comment <- lift (getitem respjson "comment") ;;
      not_found <- lift (str_in "not found" comment) ;;
      (if not_found then emit (Send (handle_not_found handle))
       else emit (LogInfo comment) ;; emit (Send denied_error)) ;;
      ret Return
    else
      submissions <- lift (getitem respjson "result") ;;
      submissions <- lift (py_iter submissions) ;;
      problems <- lift (foldM add_solved submissions []) ;;
      let ratings := map snd problems in
      ret (Continue (allratings ++ [ratings])).

(** [list(range(start, stop, step))] for a positive [step]. *)
Definition py_range (start stop step : Z) : list Z :=
  map (fun i => start + Z.of_nat i * step)
      (seq 0 (Z.to_nat ((stop - start + step - 1) / step))).

(** Lines 183-184. *)
Definition hist_step (handles : list string) : Z :=
  if (List.length handles =? 1)%nat then 100 else 200.

Definition histbins (handles : list string) : list Z :=
  let step := hist_step handles in
  py_range 500 (3800 + step) step.

(** Line 190, a label by the handle and the count it shows. *)
Definition hist_labels (handles : list string) (allratings : list (list json))
  : list (string * nat) :=
  map (fun hr => (fst hr, List.length (snd hr))) (combine handles allratings).

Definition solved (handles : list string) : M unit :=
  if bad_handle_count handles then emit (Send handle_count_error)
  else
    r <- for_each solved_handle handles [] ;;
    match r with
    | Return => ret tt
    | Continue allratings =>
        emit PltClf ;;
        emit (PltHist allratings (histbins handles) (hist_labels handles allratings)) ;;
        emit PltTitles ;;
        get_current_figure_as_file ;;
        emit SendFile
    end.

End Cog.

(** A command starts with no request issued. *)
Definition run {A} (m : M A) : result A * list event := m 0%nat.

(** ** Classes of events *)

(** What the loops over the handles emit. *)
Definition loop_event (e : event) : bool :=
  match e with
  | Query _ _ | LogError | LogInfo _ | Send _ | PltPlot _ _ => true
  | _ => false
  end.

(** Nothing reaches the channel. *)
Definition silent (t : list event) : Prop := Forall (fun e => is_reply e = false) t.

(** The reply to an answer with status FAILED, by its comment. *)
Definition failed_reply (handle comment : string) : list event :=
  if substringb "not found" comment
  then [Send (handle_not_found handle)]
  else [LogInfo (JStr comment); Send denied_error].

(** ** The recommendation set and the solved set, as the specification
       words them *)

(** The keys of a dict or the elements of a set: hashable and pairwise
    different. *)
Fixpoint keys_wf (ks : list key) : Prop :=
  match ks with
  | [] => True
  | k :: ks' => hash_key k <> None /\ key_mem k ks' = false /\ keys_wf ks'
  end.

Definition dict_wf {V} (d : dict V) : Prop := keys_wf (dict_keys d).

(** The value of the last entry of a list of entries under a key. *)
Definition lookup_last {V} (k : key) (entries : list (key * V)) : option V :=
  dict_lookup k (rev entries).

Definition somes {A B} (f : A -> option B) (xs : list A) : list B :=
  flat_map (fun x => match f x with Some y => [y] | None => [] end) xs.

(** A problem whose tags do not contain "*special", whose rating equals the
    bucket and which has a contestId, as the entry
    (name, rating) -> (contestId, index). *)
Definition candidate_entry (bucket : Z) (p : json) : option (key * (json * json)) :=
  match getitem p "tags", get_method p "rating" with
  | Ret tags, Ret r =>
      match str_in "*special" tags, str_in "contestId" p with
      | Ret false, Ret true =>
          if json_eq_int r bucket then
            match getitem p "name", getitem p "contestId",
                  getitem p "index", getitem p "rating" with
            | Ret name, Ret contestid, Ret index, Ret rating =>
                Some ((name, rating), (contestid, index))
            | _, _, _, _ => None
            end
          else None
      | _, _ => None
      end
  | _, _ => None
  end.

Definition candidates (bucket : Z) (problems : list json) : list (key * (json * json)) :=
  somes (candidate_entry bucket) problems.

(** The (name, rating) pair of a submission with verdict "OK" whose problem
    has a rating field. *)
Definition ok_pair (sub : json) : option key :=
  match getitem sub "problem", getitem sub "verdict" with
  | Ret problem, Ret verdict =>
      if json_is_str "OK" verdict then
        match str_in "rating" problem, getitem problem "name", getitem problem "rating" with
        | Ret true, Ret name, Ret rating => Some (name, rating)
        | _, _, _ => None
        end
      else None
  | _, _ => None
  end.

Definition ok_pairs (subs : list json) : list key := somes ok_pair subs.

(** The (name, rating) pair of a submission with verdict "OK" whose problem
    has a rating that [accepted] lets through. *)
Definition ok_pair_with (accepted : json -> bool) (sub : json) : option key :=
  match getitem sub "verdict", getitem sub "problem" with
  | Ret verdict, Ret problem =>
      if json_is_str "OK" verdict then
        match getitem problem "name", get_method problem "rating" with
        | Ret name, Ret rating => if accepted rating then Some (name, rating) else None
        | _, _ => None
        end
      else None
  | _, _ => None
  end.

(** C8 as it is written: a defined rating is one that is not [None]. *)
Definition defined (rating : json) : bool := negb (is_none rating).

Definition ok_defined_pairs (subs : list json) : list key := somes (ok_pair_with defined) subs.

(** What [solved] keeps: a rating that is true in an [if]. *)
Definition ok_rated_pairs (subs : list json) : list key := somes (ok_pair_with truthy) subs.

(** The problems of an answer of problemset.problems and the submissions
    of an answer of user.status, as the loops visit them. *)
Definition problems_of (probjson : json) : result (list json) :=
  let* pr := getitem probjson "result" in
  let* problems := getitem pr "problems" in
  py_iter problems.

Definition submissions_of (subsjson : json) : result (list json) :=
  let* subs := getitem subsjson "result" in
  py_iter subs.

(** One round of the loop of [solved] that goes on: the answer to request
    [n] for [handle], its submissions, the set built from them and the
    ratings of the set. *)
Definition solved_round (w : world) (n : nat) (handle : string) (subs : list json)
    (problems : list key) : Prop :=
  exists respjson,
    http_get w n "user.status" [("handle", JStr handle)] = HttpJson respjson /\
    submissions_of respjson = Ret subs /\
    foldM add_solved subs [] = Ret problems.

(** ** Answers of the shape the Codeforces API sends *)

(** The rating of a problem or of a user is absent or a number. *)
Definition rating_field_ok (o : list (string * json)) : Prop :=
  assoc "rating" o = None \/ exists n, assoc "rating" o = Some (JNum n).

Definition problem_ok (p : json) : Prop :=
  exists o tags name index,
    p = JObj o /\ assoc "tags" o = Some (JArr tags) /\
    assoc "name" o = Some (JStr name) /\ assoc "index" o = Some index /\
    rating_field_ok o.

Definition submission_ok (sub : json) : Prop :=
  exists o po verdict name,
    sub = JObj o /\ assoc "problem" o = Some (JObj po) /\
    assoc "verdict" o = Some verdict /\
    assoc "name" po = Some (JStr name) /\ rating_field_ok po.

Definition problems_answer_ok (probjson : json) : Prop :=
  exists o ro ps,
    probjson = JObj o /\ assoc "result" o = Some (JObj ro) /\
    assoc "problems" ro = Some (JArr ps) /\ Forall problem_ok ps.

Definition info_answer_ok (infojson : json) : Prop :=
  exists o uo users,
    infojson = JObj o /\ assoc "result" o = Some (JArr (JObj uo :: users)) /\
    rating_field_ok uo.

Definition status_answer_ok (subsjson : json) : Prop :=
  exists o subs,
    subsjson = JObj o /\ assoc "result" o = Some (JArr subs) /\
    Forall submission_ok subs.

(** ** Worlds to run the commands in *)

Definition world_of (http : nat -> string -> params -> http_result) (draw : nat) : world :=
  {| http_get := http;
     randbelow := fun n => (draw mod n)%nat;
     randbelow_lt := fun n H => Nat.mod_upper_bound draw n (proj2 (Nat.neq_0_lt_0 n) H);
     timestamp_ok := fun _ => true |}.

Definition api_ok (r : json) : http_result :=
  HttpJson (JObj [("status", JStr "OK"); ("result", r)]).

Definition api_failed (comment : string) : http_result :=
  HttpJson (JObj [("status", JStr "FAILED"); ("comment", JStr comment)]).

Definition rating_change (rating time : Z) : json :=
  JObj [("contestId", JNum 1); ("newRating", JNum rating);
        ("ratingUpdateTimeSeconds", JNum time)].

Definition submission (name : string) (rating : json) (verdict : string) : json :=
  JObj [("problem", JObj [("contestId", JNum 1); ("index", JStr "A");
                          ("name", JStr name); ("rating", rating)]);
        ("verdict", JStr verdict)].

(** The first request is answered well; the second as [second] says. *)
Definition second_fails (second : http_result) : world :=
  world_of (fun n path _ =>
              match n with
              | O => if String.eqb path "user.rating"
                     then api_ok (JArr [rating_change 1500 100; rating_change 1540 200])
                     else api_ok (JArr [submission "Watermelon" (JNum 800) "OK"])
              | _ => second
              end) 0.

Definition problem_json (name : string) (rating contestid : Z) (index : string)
    (tags : list string) : json :=
  JObj [("contestId", JNum contestid); ("index", JStr index); ("name", JStr name);
        ("rating", JNum rating); ("tags", JArr (map JStr tags))].

Definition sample_problems : json :=
  JObj [("problems",
         JArr [problem_json "Watermelon" 1500 4 "A" ["math"];
               problem_json "April" 1500 171 "B" ["*special"; "dp"];
               problem_json "Boring" 1500 7 "C" ["dp"];
               problem_json "Far" 1600 9 "D" [];
               problem_json "Easy" 1500 12 "E" ["greedy"]]);
        ("problemStatistics", JArr [])].

Definition sample_submissions : json :=
  JArr [submission "Watermelon" (JNum 1500) "OK";
        submission "Boring" (JNum 1500) "WRONG_ANSWER";
        submission "Watermelon" (JNum 1500) "OK";
        submission "Gym" (JNum 0) "OK";
        submission "Far" (JNum 1600) "OK"].

Definition sample_info : json :=
  JArr [JObj [("handle", JStr "tourist"); ("rating", JNum 1549)]].

(** Answers by the method asked for; [info] answers [user.info]. *)
Definition sample_http (info : http_result) (n : nat) (path : string) (p : params)
  : http_result :=
  if String.eqb path "problemset.problems" then api_ok sample_problems
  else if String.eqb path "user.info" then info
  else if String.eqb path "user.status" then api_ok sample_submissions
  else if String.eqb path "user.rating"
       then api_ok (JArr [rating_change 1500 100; rating_change 1540 200])
  else api_ok (JObj [("contest", JObj [("id", JNum 12); ("name", JStr "Codeforces Round 12")])]).

Definition sample_world (draw : nat) : world := world_of (sample_http (api_ok sample_info)) draw.

(** The reading of C4 as it is written: the first edge is 500 and the last
    edge is 3800. *)
Definition edges_span_500_3800 (bins : list Z) : Prop :=
  hd 0 bins = 500 /\ last bins 0 = 3800.

(** ** Shapes of traces *)

(** The trace ends in the one message it holds. *)
Definition ends_in_reply (t : list event) : Prop :=
  exists t0 e, t = t0 ++ [e] /\ is_reply e = true /\ silent t0.

(** A command that returns has replied once, as the last thing it did; a
    command that raised has not replied. *)
Definition replies_once (r : result unit) (t : list event) : Prop :=
  match r with
  | Ret _ => ends_in_reply t
  | Raise _ => silent t
  end.

(** The same for one round of a loop: only the round that leaves the
    command replies. *)
Definition round_replies {A} (r : result (loop_step A)) (t : list event) : Prop :=
  match r with
  | Ret Return => ends_in_reply t
  | _ => silent t
  end.

(** What [rating] emits after its loop. *)
Definition rating_tail (handles : list string) (rate : list json) : list event :=
  [PltGetYlim] ++
  map (fun c => let '(color, lo, hi) := c in PltAxhspan lo hi color) colors ++
  [PltSetYlim; PltAutofmtXdate; PltLegend (combine handles rate); PltSaveFig; SendFile].


(** The request of [rating] and [solved] for one handle. *)
Definition handle_query (path handle : string) : event :=
  Query path [("handle", JStr handle)].


Definition standings_query (contestid : json) : event :=
  Query "contest.standings" [("contestId", contestid); ("from", JNum 1); ("count", JNum 1)].

(** Answers by the method asked for, with the answers of user.info,
    user.status and contest.standings given. *)
Definition sample_http_with (info status standings : http_result)
    (n : nat) (path : string) (p : params) : http_result :=
  if String.eqb path "problemset.problems" then api_ok sample_problems
  else if String.eqb path "user.info" then info
  else if String.eqb path "user.status" then status
  else if String.eqb path "user.rating"
       then api_ok (JArr [rating_change 1500 100; rating_change 1540 200])
  else standings.

(** A submission still in the queue has no verdict. *)
Definition queued_submission (name : string) : json :=
  JObj [("problem", JObj [("contestId", JNum 1); ("index", JStr "A"); ("name", JStr name)])].





Definition standings_answer_ok (answer : json) : Prop :=
  exists o ro co name,
    answer = JObj o /\ assoc "result" o = Some (JObj ro) /\
    assoc "contest" ro = Some (JObj co) /\ assoc "name" co = Some name.


(** The contests of an answer of user.rating, as the loop visits them. *)
Definition contests_of (respjson : json) : result (list json) :=
  let* contests := getitem respjson "result" in
  py_iter contests.

(** The point [rating] plots for a contest: its new rating and the time of
    its rating update. *)
Definition contest_point (w : world) (contest : json) (point : json * Z) : Prop :=
  getitem contest "newRating" = Ret (fst point) /\
  exists v, getitem contest "ratingUpdateTimeSeconds" = Ret v /\
            fromtimestamp w v = Ret (snd point).

(** One round of the loop of [rating] that goes on: the answer to request
    [n] for [handle], its contests and the points plotted for them. *)
Definition rating_round (w : world) (n : nat) (handle : string) (contests : list json)
    (points : list (json * Z)) : Prop :=
  exists respjson,
    http_get w n "user.rating" [("handle", JStr handle)] = HttpJson respjson /\
    contests_of respjson = Ret contests /\
    Forall2 (contest_point w) contests points.

(** [submission['verdict'] == 'OK'], for a submission that has a verdict. *)
Definition ok_verdict (sub : json) : bool :=
  match getitem sub "verdict" with
  | Ret verdict => json_is_str "OK" verdict
  | Raise _ => false
  end.

(** * Properties *)

(** ** [round_rating] *)

Lemma round_rating_cases (r : Z) :
  (r mod 100 < 50 /\ round_rating r = r - r mod 100) \/
  (50 <= r mod 100 /\ round_rating r = r - r mod 100 + 100).
Proof.
  unfold round_rating.
  destruct (50 <=? r mod 100) eqn:E.
  - right. apply Z.leb_le in E. auto.
  - left. apply Z.leb_gt in E. auto.
Qed.

Lemma round_rating_multiple (r : Z) : round_rating r mod 100 = 0.
Proof.
  pose proof (Z.div_mod r 100 ltac:(lia)) as D.
  destruct (round_rating_cases r) as [[_ ->] | [_ ->]].
  - replace (r - r mod 100) with (r / 100 * 100) by lia.
    apply Z.mod_mul. lia.
  - replace (r - r mod 100 + 100) with ((r / 100 + 1) * 100) by lia.
    apply Z.mod_mul. lia.
Qed.

Lemma round_rating_window (r : Z) : r - 50 < round_rating r <= r + 50.
Proof.
  pose proof (Z.mod_pos_bound r 100 ltac:(lia)) as B.
  destruct (round_rating_cases r) as [[L ->] | [L ->]]; lia.
Qed.

(** C3. [round_rating] sends 149, 150, 1649, 1650 and 0 to 100, 200, 1600,
    1700 and 0, and rounds every non-negative rating to the nearest
    multiple of 100: the result is a non-negative multiple of 100, no
    multiple of 100 is closer to the rating, and a rating with remainder 50
    goes up. *)
Theorem round_rating_spec :
  (round_rating 149 = 100 /\ round_rating 150 = 200 /\ round_rating 1649 = 1600 /\
   round_rating 1650 = 1700 /\ round_rating 0 = 0) /\
  forall r, 0 <= r ->
    0 <= round_rating r /\
    round_rating r mod 100 = 0 /\
    (forall m, m mod 100 = 0 -> Z.abs (r - round_rating r) <= Z.abs (r - m)) /\
    (r mod 100 = 50 -> round_rating r = r + 50).
Proof.
  split; [repeat split; reflexivity |].
  intros r Hr.
  pose proof (round_rating_multiple r) as Hm.
  pose proof (round_rating_window r) as Hw.
  repeat split.
  - apply Z.mod_divide in Hm; [| lia]. destruct Hm as [q Hq]. lia.
  - exact Hm.
  - intros m Hm'.
    apply Z.mod_divide in Hm; [| lia]. destruct Hm as [q Hq].
    apply Z.mod_divide in Hm'; [| lia]. destruct Hm' as [q' Hq'].
    lia.
  - intros H50. destruct (round_rating_cases r) as [[L E] | [L E]]; lia.
Qed.

Lemma round_rating_spec_witness :
  0 <= 1650 /\ round_rating 1650 mod 100 = 0 /\ round_rating 1650 = 1650 + 50.
Proof.
  split; [lia |].
  destruct (proj2 round_rating_spec 1650 ltac:(lia)) as (_ & Hm & _ & Hup).
  split; [exact Hm | apply Hup; reflexivity].
Defined.

(** ** The command monad and its loops *)

Lemma nqueries_app (t t' : list event) :
  nqueries (t ++ t') = (nqueries t + nqueries t')%nat.
Proof. unfold nqueries. rewrite filter_app, length_app. reflexivity. Qed.

Lemma bind_inv {A B} (m : M A) (k : A -> M B) n r t :
  bind m k n = (r, t) ->
  (exists a t1 t2, m n = (Ret a, t1) /\ k a (n + nqueries t1)%nat = (r, t2) /\ t = t1 ++ t2) \/
  (exists e, m n = (Raise e, t) /\ r = Raise e).
Proof.
  unfold bind. destruct (m n) as [[a | e] t1].
  - destruct (k a (n + nqueries t1)%nat) as [r2 t2] eqn:K.
    intros H. inversion H; subst. left. exists a, t1, t2. auto.
  - intros H. inversion H; subst. right. exists e. auto.
Qed.

Lemma bind_ret_eq {A B} (m : M A) (k : A -> M B) n a t1 r t2 :
  m n = (Ret a, t1) ->
  k a (n + nqueries t1)%nat = (r, t2) ->
  bind m k n = (r, t1 ++ t2).
Proof. intros Hm Hk. unfold bind. rewrite Hm, Hk. reflexivity. Qed.

Lemma bind_raise_eq {A B} (m : M A) (k : A -> M B) n e t :
  m n = (Raise e, t) -> bind m k n = (Raise e, t).
Proof. intros Hm. unfold bind. rewrite Hm. reflexivity. Qed.

Section Loops.

Context {A B : Type} (body : A -> B -> M (loop_step B)).

Lemma for_each_cons_continue x xs acc n acc' t1 r t2 :
  body x acc n = (Ret (Continue acc'), t1) ->
  for_each body xs acc' (n + nqueries t1)%nat = (r, t2) ->
  for_each body (x :: xs) acc n = (r, t1 ++ t2).
Proof. intros Hb Hl. simpl. eapply bind_ret_eq; eauto. Qed.

Lemma for_each_cons_return x xs acc n t :
  body x acc n = (Ret Return, t) ->
  for_each body (x :: xs) acc n = (Ret Return, t).
Proof.
  intros Hb. simpl. unfold bind. rewrite Hb. simpl. rewrite app_nil_r. reflexivity.
Qed.

Lemma for_each_cons_raise x xs acc n e t :
  body x acc n = (Raise e, t) ->
  for_each body (x :: xs) acc n = (Raise e, t).
Proof. intros Hb. simpl. apply bind_raise_eq. exact Hb. Qed.

(** The loop over [pre ++ rest] after [pre] went through. *)
Lemma for_each_app pre rest : forall acc n acc' t1 r t2,
  for_each body pre acc n = (Ret (Continue acc'), t1) ->
  for_each body rest acc' (n + nqueries t1)%nat = (r, t2) ->
  for_each body (pre ++ rest) acc n = (r, t1 ++ t2).
Proof.
  induction pre as [| x pre IH]; intros acc n acc' t1 r t2 Hpre Hrest.
  - simpl in Hpre. unfold ret in Hpre. inversion Hpre; subst.
    simpl in *. rewrite Nat.add_0_r in Hrest. exact Hrest.
  - simpl in Hpre. apply bind_inv in Hpre.
    destruct Hpre as [(s & ta & tb & Hb & Hk & ->) | (e & _ & E)]; [| discriminate].
    destruct s as [acc1 |]; [| unfold ret in Hk; discriminate].
    rewrite nqueries_app, Nat.add_assoc in Hrest.
    rewrite <- app_assoc. simpl app at 1.
    eapply for_each_cons_continue; eauto.
Qed.

Lemma for_each_inv x xs acc n r t :
  for_each body (x :: xs) acc n = (r, t) ->
  (exists acc' t1 t2, body x acc n = (Ret (Continue acc'), t1) /\
      for_each body xs acc' (n + nqueries t1)%nat = (r, t2) /\ t = t1 ++ t2) \/
  (body x acc n = (Ret Return, t) /\ r = Ret Return) \/
  (exists e, body x acc n = (Raise e, t) /\ r = Raise e).
Proof.
  simpl. intros H. apply bind_inv in H.
  destruct H as [(s & t1 & t2 & Hb & Hk & ->) | (e & Hb & ->)].
  - destruct s as [acc' |].
    + left. eauto 6.
    + right. left. unfold ret in Hk. inversion Hk; subst.
      rewrite app_nil_r. auto.
  - right. right. eauto.
Qed.

(** Events of a class the body stays in. *)
Lemma for_each_Forall (P : event -> Prop) :
  (forall x acc n r t, body x acc n = (r, t) -> Forall P t) ->
  forall xs acc n r t, for_each body xs acc n = (r, t) -> Forall P t.
Proof.
  intros Hbody xs. induction xs as [| x xs IH]; intros acc n r t H.
  - simpl in H. unfold ret in H. inversion H. constructor.
  - apply for_each_inv in H.
    destruct H as [(acc' & t1 & t2 & Hb & Hl & ->) | [[Hb _] | (e & Hb & _)]].
    + apply Forall_app. split; eauto.
    + eauto.
    + eauto.
Qed.

(** Events of the rounds that go on to the next element. *)
Lemma for_each_continue_Forall (P : event -> Prop) :
  (forall x acc n acc' t, body x acc n = (Ret (Continue acc'), t) -> Forall P t) ->
  forall xs acc n acc' t,
    for_each body xs acc n = (Ret (Continue acc'), t) -> Forall P t.
Proof.
  intros Hbody xs. induction xs as [| x xs IH]; intros acc n acc' t H.
  - simpl in H. unfold ret in H. inversion H. constructor.
  - apply for_each_inv in H.
    destruct H as [(a & t1 & t2 & Hb & Hl & ->) | [[_ E] | (e & _ & E)]];
      [| discriminate | discriminate].
    apply Forall_app. split; eauto.
Qed.

Lemma for_each_continue_nqueries :
  (forall x acc n acc' t, body x acc n = (Ret (Continue acc'), t) -> nqueries t = 1%nat) ->
  forall xs acc n acc' t,
    for_each body xs acc n = (Ret (Continue acc'), t) -> nqueries t = List.length xs.
Proof.
  intros Hbody xs. induction xs as [| x xs IH]; intros acc n acc' t H.
  - simpl in H. unfold ret in H. inversion H. reflexivity.
  - apply for_each_inv in H.
    destruct H as [(a & t1 & t2 & Hb & Hl & ->) | [[_ E] | (e & _ & E)]];
      [| discriminate | discriminate].
    rewrite nqueries_app. simpl. erewrite Hbody, IH; eauto.
Qed.

End Loops.

(** ** The loop bodies of [rating] and [solved] *)

Ltac run_cases H :=
  repeat (unfold bind, lift, emit, emits, ret, query_api in H; simpl in H);
  repeat match type of H with
         | context [match ?x with _ => _ end] =>
             lazymatch x with
             | context [match _ with _ => _ end] => fail
             | _ => destruct x eqn:?; simpl in H
             end
         end;
  inversion H; subst; clear H.

Section Bodies.

Variable w : world.

Lemma rating_handle_events h rate n r t :
  rating_handle w h rate n = (r, t) -> Forall (fun e => loop_event e = true) t.
Proof.
  unfold rating_handle. intros H. run_cases H; repeat constructor.
Qed.

Lemma rating_handle_continue h rate n rate' t :
  rating_handle w h rate n = (Ret (Continue rate'), t) ->
  silent t /\ nqueries t = 1%nat.
Proof.
  unfold rating_handle, silent. intros H. run_cases H; split; repeat constructor.
Qed.

Lemma solved_handle_events h acc n r t :
  solved_handle w h acc n = (r, t) -> Forall (fun e => loop_event e = true) t.
Proof.
  unfold solved_handle. intros H. run_cases H; repeat constructor.
Qed.

Lemma solved_handle_continue h acc n acc' t :
  solved_handle w h acc n = (Ret (Continue acc'), t) ->
  silent t /\ nqueries t = 1%nat.
Proof.
  unfold solved_handle, silent. intros H. run_cases H; split; repeat constructor.
Qed.

End Bodies.

(** ** Aborting [rating] and [solved] *)

Lemma bad_handle_count_true handles :
  (List.length handles = 0 \/ 6 <= List.length handles)%nat ->
  bad_handle_count handles = true.
Proof.
  unfold bad_handle_count. intros [H | H].
  - rewrite H. reflexivity.
  - apply orb_true_iff. right. apply Nat.ltb_lt. lia.
Qed.

Lemma bad_handle_count_false (pre : list string) h post :
  (List.length (pre ++ h :: post) <= 5)%nat ->
  bad_handle_count (pre ++ h :: post) = false.
Proof.
  unfold bad_handle_count. intros H. apply orb_false_iff. split.
  - apply Nat.eqb_neq. rewrite length_app. simpl. lia.
  - apply Nat.ltb_ge. exact H.
Qed.

Lemma silent_no_file t : silent t -> ~ In SendFile t.
Proof.
  unfold silent. intros H Hin. rewrite Forall_forall in H.
  apply H in Hin. discriminate.
Qed.

Lemma loop_events_no_file t :
  Forall (fun e => loop_event e = true) t -> ~ In SendFile t.
Proof.
  intros H Hin. rewrite Forall_forall in H. apply H in Hin. discriminate.
Qed.

Section Aborts.

Variable w : world.

Lemma rating_prefix_silent pre rate t1 :
  for_each (rating_handle w) pre [] 0%nat = (Ret (Continue rate), t1) ->
  silent t1 /\ nqueries t1 = List.length pre.
Proof.
  intros H. split.
  - eapply for_each_continue_Forall; [| exact H].
    intros x acc n acc' t Hb. apply (rating_handle_continue w x acc n acc' t Hb).
  - eapply for_each_continue_nqueries; [| exact H].
    intros x acc n acc' t Hb. apply (rating_handle_continue w x acc n acc' t Hb).
Qed.

Lemma solved_prefix_silent pre acc0 n0 acc t1 :
  for_each (solved_handle w) pre acc0 n0 = (Ret (Continue acc), t1) ->
  silent t1 /\ nqueries t1 = List.length pre.
Proof.
  intros H. split.
  - eapply for_each_continue_Forall; [| exact H].
    intros x a n a' t Hb. apply (solved_handle_continue w x a n a' t Hb).
  - eapply for_each_continue_nqueries; [| exact H].
    intros x a n a' t Hb. apply (solved_handle_continue w x a n a' t Hb).
Qed.

(** [rating] when the round of [h] leaves the command. *)
Lemma rating_returns_at pre h post rate t1 tb :
  (List.length (pre ++ h :: post) <= 5)%nat ->
  for_each (rating_handle w) pre [] 0%nat = (Ret (Continue rate), t1) ->
  rating_handle w h rate (List.length pre) = (Ret Return, tb) ->
  run (rating w (pre ++ h :: post)) = (Ret tt, PltClf :: t1 ++ tb).
Proof.
  intros Hlen Hpre Hb.
  destruct (rating_prefix_silent _ _ _ Hpre) as [_ Hq].
  unfold run, rating. rewrite (bad_handle_count_false _ _ _ Hlen).
  assert (L : for_each (rating_handle w) (pre ++ h :: post) [] 0%nat
              = (Ret Return, t1 ++ tb)).
  { eapply for_each_app; [exact Hpre |].
    apply for_each_cons_return. rewrite Hq. exact Hb. }
  change (PltClf :: t1 ++ tb) with ([PltClf] ++ (t1 ++ tb)).
  eapply bind_ret_eq; [reflexivity |].
  change (0 + nqueries [PltClf])%nat with 0%nat.
  rewrite <- (app_nil_r (t1 ++ tb)).
  eapply bind_ret_eq; [exact L | reflexivity].
Qed.

Lemma rating_raises_at pre h post rate t1 e tb :
  (List.length (pre ++ h :: post) <= 5)%nat ->
  for_each (rating_handle w) pre [] 0%nat = (Ret (Continue rate), t1) ->
  rating_handle w h rate (List.length pre) = (Raise e, tb) ->
  run (rating w (pre ++ h :: post)) = (Raise e, PltClf :: t1 ++ tb).
Proof.
  intros Hlen Hpre Hb.
  destruct (rating_prefix_silent _ _ _ Hpre) as [_ Hq].
  unfold run, rating. rewrite (bad_handle_count_false _ _ _ Hlen).
  assert (L : for_each (rating_handle w) (pre ++ h :: post) [] 0%nat
              = (Raise e, t1 ++ tb)).
  { eapply for_each_app; [exact Hpre |].
    apply for_each_cons_raise. rewrite Hq. exact Hb. }
  change (PltClf :: t1 ++ tb) with ([PltClf] ++ (t1 ++ tb)).
  eapply bind_ret_eq; [reflexivity |].
  change (0 + nqueries [PltClf])%nat with 0%nat.
  apply bind_raise_eq. exact L.
Qed.

Lemma solved_returns_at pre h post acc t1 tb :
  (List.length (pre ++ h :: post) <= 5)%nat ->
  for_each (solved_handle w) pre [] 0%nat = (Ret (Continue acc), t1) ->
  solved_handle w h acc (List.length pre) = (Ret Return, tb) ->
  run (solved w (pre ++ h :: post)) = (Ret tt, t1 ++ tb).
Proof.
  intros Hlen Hpre Hb.
  destruct (solved_prefix_silent _ _ _ _ _ Hpre) as [_ Hq].
  unfold run, solved. rewrite (bad_handle_count_false _ _ _ Hlen).
  assert (L : for_each (solved_handle w) (pre ++ h :: post) [] 0%nat
              = (Ret Return, t1 ++ tb)).
  { eapply for_each_app; [exact Hpre |].
    apply for_each_cons_return. simpl. rewrite Hq. exact Hb. }
  rewrite <- (app_nil_r (t1 ++ tb)).
  eapply bind_ret_eq; [exact L | reflexivity].
Qed.

Lemma solved_raises_at pre h post acc t1 e tb :
  (List.length (pre ++ h :: post) <= 5)%nat ->
  for_each (solved_handle w) pre [] 0%nat = (Ret (Continue acc), t1) ->
  solved_handle w h acc (List.length pre) = (Raise e, tb) ->
  run (solved w (pre ++ h :: post)) = (Raise e, t1 ++ tb).
Proof.
  intros Hlen Hpre Hb.
  destruct (solved_prefix_silent _ _ _ _ _ Hpre) as [_ Hq].
  unfold run, solved. rewrite (bad_handle_count_false _ _ _ Hlen).
  apply bind_raise_eq.
  eapply for_each_app; [exact Hpre |].
  apply for_each_cons_raise. simpl. rewrite Hq. exact Hb.
Qed.

(** *** An answer with status FAILED *)

Lemma rating_handle_failed h rate n o c :
  http_get w n "user.rating" [("handle", JStr h)] = HttpJson (JObj o) ->
  assoc "status" o = Some (JStr "FAILED") ->
  assoc "comment" o = Some (JStr c) ->
  rating_handle w h rate n
  = (Ret Return, Query "user.rating" [("handle", JStr h)] :: failed_reply h c).
Proof.
  intros Hh Hs Hc.
  unfold rating_handle, bind, lift, query_api. rewrite Hh. simpl.
  rewrite Hs. simpl. rewrite Hc. simpl.
  unfold failed_reply. destruct (substringb "not found" c); reflexivity.
Qed.

Lemma solved_handle_failed h acc n o c :
  http_get w n "user.status" [("handle", JStr h)] = HttpJson (JObj o) ->
  assoc "status" o = Some (JStr "FAILED") ->
  assoc "comment" o = Some (JStr c) ->
  solved_handle w h acc n
  = (Ret Return, Query "user.status" [("handle", JStr h)] :: failed_reply h c).
Proof.
  intros Hh Hs Hc.
  unfold solved_handle, bind, lift, query_api. rewrite Hh. simpl.
  rewrite Hs. simpl. rewrite Hc. simpl.
  unfold failed_reply. destruct (substringb "not found" c); reflexivity.
Qed.

Lemma failed_reply_no_file h c : ~ In SendFile (failed_reply h c).
Proof.
  unfold failed_reply. destruct (substringb "not found" c); simpl; intuition discriminate.
Qed.

End Aborts.

(** C5. With no handle or with six or more, [rating] and [solved] send the
    message about the number of handles and nothing else: no request is
    issued. *)
Theorem handle_count_rejected (w : world) handles :
  (List.length handles = 0 \/ 6 <= List.length handles)%nat ->
  run (rating w handles) = (Ret tt, [Send handle_count_error]) /\
  run (solved w handles) = (Ret tt, [Send handle_count_error]).
Proof.
  intros H. apply bad_handle_count_true in H.
  unfold run, rating, solved. rewrite H. split; reflexivity.
Qed.

Lemma handle_count_rejected_witness :
  let handles := ["a"; "b"; "c"; "d"; "e"; "f"] in
  (6 <= List.length handles)%nat /\
  run (rating (second_fails HttpOtherError) handles) = (Ret tt, [Send handle_count_error]) /\
  run (solved (second_fails HttpOtherError) handles) = (Ret tt, [Send handle_count_error]).
Proof.
  intros handles.
  assert (H : (6 <= List.length handles)%nat) by (simpl; lia).
  split; [exact H |].
  apply (handle_count_rejected (second_fails HttpOtherError) handles).
  right. exact H.
Defined.

(** C6. In [rating] and in [solved], when the handles before [h] went
    through and the answer for [h] has status FAILED: a comment containing
    "not found" makes the command send the message that names [h], any
    other comment makes it send the denial message; in both cases the
    command returns there, and no image is sent. *)
Theorem failed_status_aborts (w : world) pre h post o c :
  (List.length (pre ++ h :: post) <= 5)%nat ->
  assoc "status" o = Some (JStr "FAILED") ->
  assoc "comment" o = Some (JStr c) ->
  let reply :=
    if substringb "not found" c
    then [Send ("Handle not found: `" ++ h ++ "`")%string]
    else [LogInfo (JStr c);
          Send "Codeforces API denied the request, please make sure handles are valid."] in
  (forall rate t1,
      for_each (rating_handle w) pre [] 0%nat = (Ret (Continue rate), t1) ->
      http_get w (List.length pre) "user.rating" [("handle", JStr h)] = HttpJson (JObj o) ->
      let t := PltClf :: t1 ++ Query "user.rating" [("handle", JStr h)] :: reply in
      run (rating w (pre ++ h :: post)) = (Ret tt, t) /\ ~ In SendFile t) /\
  (forall acc t1,
      for_each (solved_handle w) pre [] 0%nat = (Ret (Continue acc), t1) ->
      http_get w (List.length pre) "user.status" [("handle", JStr h)] = HttpJson (JObj o) ->
      let t := t1 ++ Query "user.status" [("handle", JStr h)] :: reply in
      run (solved w (pre ++ h :: post)) = (Ret tt, t) /\ ~ In SendFile t).
Proof.
  intros Hlen Hs Hc reply.
  assert (R : reply = failed_reply h c) by reflexivity.
  split.
  - intros rate t1 Hpre Hh t. subst t. rewrite R. split.
    + eapply rating_returns_at; [eassumption .. | eapply rating_handle_failed; eauto].
    + destruct (rating_prefix_silent w _ _ _ Hpre) as [Hq _].
      apply silent_no_file in Hq.
      simpl. rewrite in_app_iff. simpl.
      pose proof (failed_reply_no_file h c). intuition discriminate.
  - intros acc t1 Hpre Hh t. subst t. rewrite R. split.
    + eapply solved_returns_at; [eassumption .. | eapply solved_handle_failed; eauto].
    + destruct (solved_prefix_silent w _ _ _ _ _ Hpre) as [Hq _].
      apply silent_no_file in Hq.
      rewrite in_app_iff. simpl.
      pose proof (failed_reply_no_file h c). intuition discriminate.
Qed.

Lemma failed_status_aborts_witness :
  let w' := second_fails (api_failed "handles: User with handle b not found") in
  run (rating w' ["a"; "b"; "c"])
  = (Ret tt, [PltClf; Query "user.rating" [("handle", JStr "a")];
              PltPlot [100; 200] [JNum 1500; JNum 1540];
              Query "user.rating" [("handle", JStr "b")];
              Send "Handle not found: `b`"]) /\
  run (solved w' ["a"; "b"; "c"])
  = (Ret tt, [Query "user.status" [("handle", JStr "a")];
              Query "user.status" [("handle", JStr "b")];
              Send "Handle not found: `b`"]).
Proof.
  intros w'.
  destruct (failed_status_aborts w' ["a"] "b" ["c"]
              [("status", JStr "FAILED");
               ("comment", JStr "handles: User with handle b not found")]
              "handles: User with handle b not found")
    as [R S]; [simpl; lia | reflexivity | reflexivity |].
  split.
  - exact (proj1 (R [JNum 1540]
                    [Query "user.rating" [("handle", JStr "a")];
                     PltPlot [100; 200] [JNum 1500; JNum 1540]]
                    eq_refl eq_refl)).
  - exact (proj1 (S [[JNum 800]] [Query "user.status" [("handle", JStr "a")]]
                    eq_refl eq_refl)).
Defined.


(** *** No answer from the API *)

Lemma query_api_trace w path p n r tq :
  query_api w path p n = (r, tq) -> nqueries tq = 1%nat /\ silent tq.
Proof.
  unfold query_api, silent.
  destruct (http_get w n path p); intros H; inversion H; subst;
    split; repeat constructor.
Qed.

Lemma rating_handle_none w h rate n tq :
  query_api w "user.rating" [("handle", JStr h)] n = (Ret JNull, tq) ->
  rating_handle w h rate n = (Ret Return, tq ++ [Send connect_error]).
Proof. intros H. unfold rating_handle, bind. rewrite H. reflexivity. Qed.

Lemma solved_handle_none w h acc n tq :
  query_api w "user.status" [("handle", JStr h)] n = (Ret JNull, tq) ->
  solved_handle w h acc n = (Ret Return, tq ++ [Send connect_error]).
Proof. intros H. unfold solved_handle, bind. rewrite H. reflexivity. Qed.

Lemma abort_trace_facts t1 tq (k : nat) :
  silent t1 -> nqueries t1 = k ->
  nqueries tq = 1%nat -> silent tq ->
  let t := t1 ++ tq ++ [Send connect_error] in
  nqueries t = S k /\ ~ In SendFile t.
Proof.
  intros S1 Q1 Qq Sq t. subst t. split.
  - rewrite !nqueries_app, Q1, Qq.
    change (nqueries [Send connect_error]) with 0%nat. lia.
  - apply silent_no_file in S1. apply silent_no_file in Sq.
    rewrite !in_app_iff. simpl. intuition discriminate.
Qed.

(** C7. [query_api] returns [None] when the request fails with a connection
    error.  In [rating] and in [solved], when the handles before [h] went
    through and [query_api] returns [None] for [h], the command sends the
    message about the connection and returns: the request for [h] is the
    last one, and no image is sent. *)
Theorem connection_error_aborts (w : world) :
  (forall n path p,
      http_get w n path p = HttpConnectionError ->
      query_api w path p n = (Ret JNull, [Query path p; LogError])) /\
  (forall pre h post,
      (List.length (pre ++ h :: post) <= 5)%nat ->
      (forall rate t1 tq,
          for_each (rating_handle w) pre [] 0%nat = (Ret (Continue rate), t1) ->
          query_api w "user.rating" [("handle", JStr h)] (List.length pre) = (Ret JNull, tq) ->
          let t := PltClf :: t1 ++ tq ++ [Send "Error connecting to Codeforces API"] in
          run (rating w (pre ++ h :: post)) = (Ret tt, t) /\
          nqueries t = S (List.length pre) /\ ~ In SendFile t) /\
      (forall acc t1 tq,
          for_each (solved_handle w) pre [] 0%nat = (Ret (Continue acc), t1) ->
          query_api w "user.status" [("handle", JStr h)] (List.length pre) = (Ret JNull, tq) ->
          let t := t1 ++ tq ++ [Send "Error connecting to Codeforces API"] in
          run (solved w (pre ++ h :: post)) = (Ret tt, t) /\
          nqueries t = S (List.length pre) /\ ~ In SendFile t)).
Proof.
  split.
  - intros n path p H. unfold query_api. rewrite H. reflexivity.
  - intros pre h post Hlen. split.
    + intros rate t1 tq Hpre Hq t.
      destruct (rating_prefix_silent w _ _ _ Hpre) as [S1 Q1].
      destruct (query_api_trace _ _ _ _ _ _ Hq) as [Qq Sq].
      destruct (abort_trace_facts t1 tq _ S1 Q1 Qq Sq) as [N F].
      subst t. split; [| split].
      * eapply rating_returns_at; [eassumption .. |].
        apply rating_handle_none. exact Hq.
      * exact N.
      * simpl. intros [E | E]; [discriminate | exact (F E)].
    + intros acc t1 tq Hpre Hq t.
      destruct (solved_prefix_silent w _ _ _ _ _ Hpre) as [S1 Q1].
      destruct (query_api_trace _ _ _ _ _ _ Hq) as [Qq Sq].
      destruct (abort_trace_facts t1 tq _ S1 Q1 Qq Sq) as [N F].
      subst t. split; [| split].
      * eapply solved_returns_at; [eassumption .. |].
        apply solved_handle_none. exact Hq.
      * exact N.
      * exact F.
Qed.

Lemma connection_error_aborts_witness :
  let w := second_fails HttpConnectionError in
  http_get w 1 "user.rating" [("handle", JStr "b")] = HttpConnectionError /\
  run (rating w ["a"; "b"; "c"])
  = (Ret tt, [PltClf; Query "user.rating" [("handle", JStr "a")];
              PltPlot [100; 200] [JNum 1500; JNum 1540];
              Query "user.rating" [("handle", JStr "b")]; LogError;
              Send "Error connecting to Codeforces API"]) /\
  run (solved w ["a"; "b"; "c"])
  = (Ret tt, [Query "user.status" [("handle", JStr "a")];
              Query "user.status" [("handle", JStr "b")]; LogError;
              Send "Error connecting to Codeforces API"]).
Proof.
  intros w.
  destruct (connection_error_aborts w) as [Q A].
  destruct (A ["a"] "b" ["c"]) as [R S]; [simpl; lia |].
  split; [reflexivity | split].
  - exact (proj1 (R [JNum 1540]
                    [Query "user.rating" [("handle", JStr "a")];
                     PltPlot [100; 200] [JNum 1500; JNum 1540]]
                    _ eq_refl
                    (Q 1%nat "user.rating" [("handle", JStr "b")] eq_refl))).
  - exact (proj1 (S [[JNum 800]] [Query "user.status" [("handle", JStr "a")]]
                    _ eq_refl
                    (Q 1%nat "user.status" [("handle", JStr "b")] eq_refl))).
Defined.

(** *** A handle without rated contests *)

Lemma rating_handle_empty w h rate n o :
  http_get w n "user.rating" [("handle", JStr h)] = HttpJson (JObj o) ->
  assoc "status" o = Some (JStr "OK") ->
  assoc "result" o = Some (JArr []) ->
  rating_handle w h rate n
  = (Raise IndexError, [Query "user.rating" [("handle", JStr h)]; PltPlot [] []]).
Proof.
  intros Hh Hs Hr.
  unfold rating_handle, bind, lift, query_api. rewrite Hh. simpl.
  rewrite Hs. simpl. rewrite Hr. reflexivity.
Qed.

(** C10. In [rating], when the handles before [h] went through and the
    answer for [h] has status OK and an empty result list, the command
    ends in an [IndexError] (at [ratings[-1]], after the empty plot) and
    nothing is sent to the channel: no image and no message. *)
Theorem rating_without_contests (w : world) pre h post o rate t1 :
  (List.length (pre ++ h :: post) <= 5)%nat ->
  for_each (rating_handle w) pre [] 0%nat = (Ret (Continue rate), t1) ->
  http_get w (List.length pre) "user.rating" [("handle", JStr h)] = HttpJson (JObj o) ->
  assoc "status" o = Some (JStr "OK") ->
  assoc "result" o = Some (JArr []) ->
  let t := PltClf :: t1 ++ [Query "user.rating" [("handle", JStr h)]; PltPlot [] []] in
  run (rating w (pre ++ h :: post)) = (Raise IndexError, t) /\ silent t.
Proof.
  intros Hlen Hpre Hh Hs Hr t. subst t. split.
  - eapply rating_raises_at; [eassumption .. |].
    eapply rating_handle_empty; eauto.
  - destruct (rating_prefix_silent w _ _ _ Hpre) as [S1 _].
    unfold silent in *. constructor; [reflexivity |].
    apply Forall_app. split; [exact S1 | repeat constructor].
Qed.

Lemma rating_without_contests_witness :
  let w := second_fails (api_ok (JArr [])) in
  http_get w 1 "user.rating" [("handle", JStr "b")]
  = HttpJson (JObj [("status", JStr "OK"); ("result", JArr [])]) /\
  run (rating w ["a"; "b"; "c"])
  = (Raise IndexError,
     [PltClf; Query "user.rating" [("handle", JStr "a")];
      PltPlot [100; 200] [JNum 1500; JNum 1540];
      Query "user.rating" [("handle", JStr "b")]; PltPlot [] []]).
Proof.
  intros w. split; [reflexivity |].
  refine (proj1 (rating_without_contests w ["a"] "b" ["c"]
                   [("status", JStr "OK"); ("result", JArr [])] [JNum 1540]
                   [Query "user.rating" [("handle", JStr "a")];
                    PltPlot [100; 200] [JNum 1500; JNum 1540]]
                   _ eq_refl eq_refl eq_refl eq_refl)).
  simpl. lia.
Defined.

(** ** The histogram of [solved] *)

Lemma solved_inv w handles r t :
  run (solved w handles) = (r, t) ->
  (bad_handle_count handles = true /\ r = Ret tt /\ t = [Send handle_count_error]) \/
  (bad_handle_count handles = false /\
   exists lr t1, for_each (solved_handle w) handles [] 0%nat = (lr, t1) /\
     match lr with
     | Ret (Continue allratings) =>
         r = Ret tt /\
         t = t1 ++ [PltClf;
                    PltHist allratings (histbins handles) (hist_labels handles allratings);
                    PltTitles; PltSaveFig; SendFile]
     | Ret Return => r = Ret tt /\ t = t1
     | Raise e => r = Raise e /\ t = t1
     end).
Proof.
  unfold run, solved. destruct (bad_handle_count handles).
  - intros H. inversion H. left. auto.
  - intros H. right. split; [reflexivity |].
    apply bind_inv in H.
    destruct H as [(s & t1 & t2 & Hl & Hk & ->) | (e & Hl & ->)].
    + exists (Ret s), t1. split; [exact Hl |].
      destruct s as [allratings |].
      * inversion Hk; subst. auto.
      * inversion Hk; subst. rewrite app_nil_r. auto.
    + exists (Raise e), t. auto.
Qed.

(** The histogram [solved] plots is the one of its last lines. *)
Lemma solved_hist w handles r t allratings bins labels :
  run (solved w handles) = (r, t) ->
  In (PltHist allratings bins labels) t ->
  bad_handle_count handles = false /\
  (exists t1, for_each (solved_handle w) handles [] 0%nat = (Ret (Continue allratings), t1)) /\
  bins = histbins handles /\
  labels = hist_labels handles allratings.
Proof.
  intros Hrun Hin. apply solved_inv in Hrun.
  destruct Hrun as [(_ & _ & ->) | (Hb & lr & t1 & Hl & Hcase)].
  - simpl in Hin. destruct Hin as [E | []]. discriminate.
  - assert (Hev : Forall (fun e => loop_event e = true) t1).
    { eapply for_each_Forall; [| exact Hl].
      intros x acc n r0 t0. apply solved_handle_events. }
    assert (Hno : ~ In (PltHist allratings bins labels) t1).
    { intros Hin1. rewrite Forall_forall in Hev. apply Hev in Hin1. discriminate. }
    destruct lr as [[a |] | e].
    + destruct Hcase as [_ ->]. apply in_app_or in Hin.
      destruct Hin as [Hin | Hin]; [contradiction |].
      simpl in Hin.
      destruct Hin as [E | [E | [E | [E | [E | []]]]]]; try discriminate.
      inversion E; subst. eauto.
    + destruct Hcase as [_ ->]. contradiction.
    + destruct Hcase as [_ ->]. contradiction.
Qed.

Lemma bad_handle_count_bounds handles :
  bad_handle_count handles = false -> (1 <= List.length handles <= 5)%nat.
Proof.
  unfold bad_handle_count. intros H. apply orb_false_iff in H.
  destruct H as [H0 H5]. apply Nat.eqb_neq in H0. apply Nat.ltb_ge in H5. lia.
Qed.

Lemma histbins_one handles :
  List.length handles = 1%nat ->
  histbins handles = map (fun i => 500 + 100 * Z.of_nat i) (seq 0 34).
Proof. intros H. unfold histbins, hist_step. rewrite H. reflexivity. Qed.

Lemma histbins_many handles :
  (2 <= List.length handles)%nat ->
  histbins handles = map (fun i => 500 + 200 * Z.of_nat i) (seq 0 18).
Proof.
  intros H. unfold histbins, hist_step.
  destruct (List.length handles =? 1)%nat eqn:E.
  - apply Nat.eqb_eq in E. lia.
  - reflexivity.
Qed.

(** C4, as it is written, fails for two handles: the last edge is 3900 and
    3800 is no edge at all. *)
Lemma histbins_two_handles_counterexample :
  ~ edges_span_500_3800 (histbins ["a"; "b"]) /\ ~ In 3800 (histbins ["a"; "b"]).
Proof.
  split.
  - intros [_ H]. vm_compute in H. discriminate.
  - intros H. vm_compute in H. repeat (destruct H as [H | H]; [discriminate |]). exact H.
Qed.

(** C4, amended. The histogram [solved] plots has, for one handle, the
    edges 500, 600, ..., 3800 and, for two to five handles, the edges 500,
    700, ..., 3900; in both cases the first edge is 500 and the edges
    reach past 3800. *)
Theorem solved_histogram_bins (w : world) handles r t allratings bins labels :
  run (solved w handles) = (r, t) ->
  In (PltHist allratings bins labels) t ->
  (1 <= List.length handles <= 5)%nat /\
  (List.length handles = 1%nat ->
     bins = map (fun i => 500 + 100 * Z.of_nat i) (seq 0 34) /\ last bins 0 = 3800) /\
  ((2 <= List.length handles)%nat ->
     bins = map (fun i => 500 + 200 * Z.of_nat i) (seq 0 18) /\ last bins 0 = 3900) /\
  hd 0 bins = 500 /\ 3800 <= last bins 0.
Proof.
  intros Hrun Hin.
  destruct (solved_hist _ _ _ _ _ _ _ Hrun Hin) as (Hb & _ & -> & _).
  apply bad_handle_count_bounds in Hb.
  split; [exact Hb |].
  assert (C : List.length handles = 1%nat \/ (2 <= List.length handles)%nat) by lia.
  split; [| split].
  - intros H1. rewrite (histbins_one _ H1). split; reflexivity.
  - intros H2. rewrite (histbins_many _ H2). split; reflexivity.
  - destruct C as [H1 | H2].
    + rewrite (histbins_one _ H1). split; [reflexivity | vm_compute; discriminate].
    + rewrite (histbins_many _ H2). split; [reflexivity | vm_compute; discriminate].
Qed.

Lemma solved_histogram_bins_witness :
  exists t allratings bins labels,
    run (solved (sample_world 0) ["a"; "b"]) = (Ret tt, t) /\
    In (PltHist allratings bins labels) t /\
    bins = map (fun i => 500 + 200 * Z.of_nat i) (seq 0 18) /\ last bins 0 = 3900.
Proof.
  eexists. exists [[JNum 1500; JNum 1600]; [JNum 1500; JNum 1600]].
  eexists. eexists.
  assert (Hrun : run (solved (sample_world 0) ["a"; "b"])
                 = (Ret tt, snd (run (solved (sample_world 0) ["a"; "b"]))))
    by reflexivity.
  assert (Hin : In (PltHist [[JNum 1500; JNum 1600]; [JNum 1500; JNum 1600]]
                      (histbins ["a"; "b"])
                      (hist_labels ["a"; "b"] [[JNum 1500; JNum 1600]; [JNum 1500; JNum 1600]]))
                   (snd (run (solved (sample_world 0) ["a"; "b"]))))
    by (vm_compute; tauto).
  split; [exact Hrun |]. split; [exact Hin |].
  destruct (solved_histogram_bins _ _ _ _ _ _ _ Hrun Hin) as (_ & _ & H2 & _).
  apply H2. simpl. lia.
Defined.

(** ** [gitgud] and an answer that is [None] *)

Lemma user_bucket_none : user_bucket JNull = Raise TypeError.
Proof. reflexivity. Qed.

(** Reading into the three answers raises as soon as one of them is
    [None]. *)
Lemma recommendations_of_none probjson infojson subsjson :
  probjson = JNull \/ infojson = JNull \/ subsjson = JNull ->
  exists e, recommendations_of probjson infojson subsjson = Raise e /\
            (infojson = JNull -> e = TypeError) /\
            (probjson = JNull -> (exists b, user_bucket infojson = Ret b) -> e = TypeError).
Proof.
  intros H. unfold recommendations_of.
  destruct (user_bucket infojson) as [b | e] eqn:Eb; simpl.
  2:{ exists e. split; [reflexivity |]. split.
      - intros ->. rewrite user_bucket_none in Eb. congruence.
      - intros _ [b Hb]. discriminate. }
  assert (Ni : infojson = JNull -> False).
  { intros ->. rewrite user_bucket_none in Eb. discriminate. }
  destruct (getitem probjson "result") as [pr | e] eqn:Ep; simpl.
  2:{ exists e. split; [reflexivity |]. split.
      - intros E. contradiction.
      - intros -> _. simpl in Ep. congruence. }
  assert (Np : probjson = JNull -> False).
  { intros ->. discriminate. }
  assert (Hs : subsjson = JNull) by tauto.
  assert (Done : forall e : exn,
             exists e0, @Raise (dict (json * json)) e = Raise e0 /\
               (infojson = JNull -> e0 = TypeError) /\
               (probjson = JNull -> (exists b0, Ret b = Ret b0) -> e0 = TypeError)).
  { intros e. exists e. split; [reflexivity |]. split; intros E; contradiction. }
  destruct (getitem pr "problems") as [ps | e]; simpl; [| apply Done].
  destruct (py_iter ps) as [pl | e]; simpl; [| apply Done].
  destruct (foldM (add_candidate b) pl []) as [recs | e]; simpl; [| apply Done].
  subst subsjson. simpl. apply Done.
Qed.

(** C9. [gitgud] does not check its three answers: when the three requests
    return and one of the answers is [None], the command has issued all
    three requests and ends in the exception raised by reading into the
    answers (a [TypeError] when the answer of user.info is [None], or when
    that of problemset.problems is and the rating of the user could be
    read); nothing is sent to the channel. *)
Theorem gitgud_null_response (w : world) handle probjson infojson subsjson tp ti ts :
  query_api w "problemset.problems" [] 0%nat = (Ret probjson, tp) ->
  query_api w "user.info" [("handles", JStr handle)] 1%nat = (Ret infojson, ti) ->
  query_api w "user.status" [("handle", JStr handle)] 2%nat = (Ret subsjson, ts) ->
  probjson = JNull \/ infojson = JNull \/ subsjson = JNull ->
  exists e,
    run (gitgud w handle) = (Raise e, tp ++ ti ++ ts) /\
    recommendations_of probjson infojson subsjson = Raise e /\
    nqueries (tp ++ ti ++ ts) = 3%nat /\
    silent (tp ++ ti ++ ts) /\
    (infojson = JNull -> e = TypeError) /\
    (probjson = JNull -> (exists b, user_bucket infojson = Ret b) -> e = TypeError).
Proof.
  intros Hp Hi Hs Hnull.
  destruct (recommendations_of_none _ _ _ Hnull) as (e & He & Ei & Ep).
  destruct (query_api_trace _ _ _ _ _ _ Hp) as [Qp Sp].
  destruct (query_api_trace _ _ _ _ _ _ Hi) as [Qi Si].
  destruct (query_api_trace _ _ _ _ _ _ Hs) as [Qs Ss].
  exists e. split; [| split; [exact He | split; [| split; [| split; assumption]]]].
  - unfold run, gitgud.
    eapply bind_ret_eq; [exact Hp |]. rewrite Qp.
    eapply bind_ret_eq; [exact Hi |]. rewrite Qi.
    rewrite <- (app_nil_r ts).
    eapply bind_ret_eq; [exact Hs |].
    apply bind_raise_eq. unfold lift. rewrite He. reflexivity.
  - rewrite !nqueries_app, Qp, Qi, Qs. reflexivity.
  - unfold silent in *. rewrite !Forall_app. auto.
Qed.

Lemma gitgud_null_response_witness :
  let w := world_of (sample_http HttpConnectionError) 0 in
  query_api w "user.info" [("handles", JStr "tourist")] 1%nat
  = (Ret JNull, [Query "user.info" [("handles", JStr "tourist")]; LogError]) /\
  run (gitgud w "tourist")
  = (Raise TypeError,
     [Query "problemset.problems" [];
      Query "user.info" [("handles", JStr "tourist")]; LogError;
      Query "user.status" [("handle", JStr "tourist")]]).
Proof.
  intros w. split; [reflexivity |].
  destruct (gitgud_null_response w "tourist"
              (JObj [("status", JStr "OK"); ("result", sample_problems)])
              JNull
              (JObj [("status", JStr "OK"); ("result", sample_submissions)])
              [Query "problemset.problems" []]
              [Query "user.info" [("handles", JStr "tourist")]; LogError]
              [Query "user.status" [("handle", JStr "tourist")]]
              eq_refl eq_refl eq_refl (or_intror (or_introl eq_refl)))
    as (e & Hrun & _ & _ & _ & He & _).
  rewrite (He eq_refl) in Hrun. exact Hrun.
Defined.

(** ** Keys, dicts and sets *)

Lemma atom_eqb_eq a b : atom_eqb a b = true <-> a = b.
Proof.
  destruct a, b; simpl; split; intros H; try discriminate; try reflexivity.
  - apply Z.eqb_eq in H. congruence.
  - inversion H. apply Z.eqb_refl.
  - apply String.eqb_eq in H. congruence.
  - inversion H. apply String.eqb_refl.
Qed.

Lemma same_key_spec k k' :
  same_key k k' = true <-> exists h, hash_key k = Some h /\ hash_key k' = Some h.
Proof.
  unfold same_key.
  destruct (hash_key k) as [[a b] |], (hash_key k') as [[a' b'] |]; split;
    try (intros H; discriminate);
    try (intros (h & H1 & H2); discriminate).
  - intros H. apply andb_true_iff in H. destruct H as [Ha Hb].
    apply atom_eqb_eq in Ha, Hb. subst. eauto.
  - intros (h & H1 & H2). inversion H1; subst. inversion H2; subst.
    apply andb_true_iff. split; apply atom_eqb_eq; reflexivity.
Qed.

Lemma same_key_refl k : hash_key k <> None -> same_key k k = true.
Proof.
  intros H. apply same_key_spec. destruct (hash_key k) as [h |]; [eauto | congruence].
Qed.

Lemma same_key_hashable k k' : same_key k k' = true -> hash_key k <> None /\ hash_key k' <> None.
Proof.
  intros H. apply same_key_spec in H. destruct H as (h & -> & ->). split; discriminate.
Qed.

(** Equal keys compare alike with every key. *)
Lemma same_key_congr_l k k' k2 :
  same_key k k' = true -> same_key k k2 = same_key k' k2.
Proof.
  intros H. apply same_key_spec in H. destruct H as (h & H1 & H2).
  unfold same_key. rewrite H1, H2. reflexivity.
Qed.

Lemma same_key_congr_r k k' k2 :
  same_key k k' = true -> same_key k2 k = same_key k2 k'.
Proof.
  intros H. apply same_key_spec in H. destruct H as (h & H1 & H2).
  unfold same_key. rewrite H1, H2. reflexivity.
Qed.

Lemma same_key_sym k k' : same_key k k' = same_key k' k.
Proof.
  destruct (same_key k k') eqn:E.
  - symmetry. apply same_key_spec in E. destruct E as (h & H1 & H2).
    apply same_key_spec. eauto.
  - destruct (same_key k' k) eqn:E'; [| reflexivity].
    apply same_key_spec in E'. destruct E' as (h & H1 & H2).
    assert (same_key k k' = true) by (apply same_key_spec; eauto). congruence.
Qed.

Lemma key_mem_congr k k' ks : same_key k k' = true -> key_mem k ks = key_mem k' ks.
Proof.
  intros H. unfold key_mem. induction ks as [| k1 ks IH]; simpl; [reflexivity |].
  rewrite IH, (same_key_congr_l _ _ k1 H). reflexivity.
Qed.

Lemma key_mem_app k ks ks' : key_mem k (ks ++ ks') = key_mem k ks || key_mem k ks'.
Proof. unfold key_mem. apply existsb_app. Qed.

Lemma key_mem_In k ks : hash_key k <> None -> In k ks -> key_mem k ks = true.
Proof.
  intros Hk Hin. unfold key_mem. apply existsb_exists.
  exists k. split; [exact Hin | apply same_key_refl; exact Hk].
Qed.

Lemma keys_wf_hashable ks k : keys_wf ks -> In k ks -> hash_key k <> None.
Proof.
  induction ks as [| k1 ks IH]; simpl; [tauto |].
  intros (H1 & _ & Hw) [-> | Hin]; auto.
Qed.

Lemma keys_wf_NoDup ks : keys_wf ks -> NoDup ks.
Proof.
  induction ks as [| k ks IH]; simpl; intros H; constructor.
  - destruct H as (Hk & Hm & _). intros Hin.
    rewrite (key_mem_In _ _ Hk Hin) in Hm. discriminate.
  - apply IH. tauto.
Qed.

Lemma keys_wf_snoc ks k :
  keys_wf ks -> hash_key k <> None -> key_mem k ks = false -> keys_wf (ks ++ [k]).
Proof.
  induction ks as [| k1 ks IH]; simpl; intros Hw Hk Hm.
  - auto.
  - destruct Hw as (H1 & Hm1 & Hw).
    apply orb_false_iff in Hm. destruct Hm as [Hkk1 Hm].
    split; [exact H1 |]. split; [| apply IH; assumption].
    rewrite key_mem_app, Hm1. simpl. rewrite same_key_sym, Hkk1. reflexivity.
Qed.

Section Dicts.

Context {V : Type}.
Implicit Types (d : dict V) (k : key) (v : V).

Lemma dict_lookup_set_same k k' v d :
  same_key k k' = true -> dict_lookup k (dict_set k' v d) = Some v.
Proof.
  intros H. induction d as [| [k1 v1] d IH]; simpl.
  - rewrite H. reflexivity.
  - destruct (same_key k' k1) eqn:E; simpl;
      rewrite (same_key_congr_l _ _ k1 H), E; [reflexivity | exact IH].
Qed.

Lemma dict_lookup_set_other k k' v d :
  same_key k k' = false -> dict_lookup k (dict_set k' v d) = dict_lookup k d.
Proof.
  intros H. induction d as [| [k1 v1] d IH]; simpl.
  - rewrite H. reflexivity.
  - destruct (same_key k' k1) eqn:E; simpl.
    + rewrite <- (same_key_congr_r _ _ k E), H. reflexivity.
    + destruct (same_key k k1); [reflexivity | exact IH].
Qed.

Lemma dict_lookup_set k k' v d :
  dict_lookup k (dict_set k' v d) = if same_key k k' then Some v else dict_lookup k d.
Proof.
  destruct (same_key k k') eqn:E.
  - apply dict_lookup_set_same. exact E.
  - apply dict_lookup_set_other. exact E.
Qed.

Lemma dict_lookup_None k d : key_mem k (dict_keys d) = false -> dict_lookup k d = None.
Proof.
  induction d as [| [k1 v1] d IH]; simpl; [reflexivity |].
  intros H. apply orb_false_iff in H. destruct H as [-> H]. auto.
Qed.

Lemma dict_lookup_Some k d :
  key_mem k (dict_keys d) = true -> exists v, dict_lookup k d = Some v.
Proof.
  induction d as [| [k1 v1] d IH]; simpl; [discriminate |].
  destruct (same_key k k1); simpl; eauto.
Qed.

Lemma dict_lookup_del k k' d :
  dict_wf d ->
  dict_lookup k (dict_del k' d) = if same_key k k' then None else dict_lookup k d.
Proof.
  unfold dict_wf. induction d as [| [k1 v1] d IH]; simpl.
  - destruct (same_key k k'); reflexivity.
  - intros (H1 & Hm & Hw).
    destruct (same_key k' k1) eqn:E.
    + rewrite (same_key_congr_r _ _ k E).
      destruct (same_key k k1) eqn:E1; [| reflexivity].
      apply dict_lookup_None. rewrite (key_mem_congr _ _ _ E1). exact Hm.
    + simpl. destruct (same_key k k1) eqn:E1.
      * rewrite (same_key_congr_l _ _ k' E1), (same_key_sym k1 k'), E. reflexivity.
      * apply IH. exact Hw.
Qed.

Lemma dict_keys_set k v d :
  dict_keys (dict_set k v d)
  = if key_mem k (dict_keys d) then dict_keys d else dict_keys d ++ [k].
Proof.
  induction d as [| [k1 v1] d IH]; simpl; [reflexivity |].
  destruct (same_key k k1); simpl; [reflexivity |].
  rewrite IH. destruct (key_mem k (dict_keys d)); reflexivity.
Qed.

Lemma dict_set_wf k v d : hash_key k <> None -> dict_wf d -> dict_wf (dict_set k v d).
Proof.
  unfold dict_wf. intros Hk Hw. rewrite dict_keys_set.
  destruct (key_mem k (dict_keys d)) eqn:E; [exact Hw |].
  apply keys_wf_snoc; assumption.
Qed.

Lemma dict_del_keys_mem k k' d :
  key_mem k (dict_keys (dict_del k' d)) = true -> key_mem k (dict_keys d) = true.
Proof.
  induction d as [| [k1 v1] d IH]; simpl; [auto |].
  destruct (same_key k' k1); simpl.
  - intros ->. apply orb_true_r.
  - intros H. apply orb_true_iff in H. apply orb_true_iff. tauto.
Qed.

Lemma dict_del_wf k d : dict_wf d -> dict_wf (dict_del k d).
Proof.
  unfold dict_wf. induction d as [| [k1 v1] d IH]; simpl; [auto |].
  intros (H1 & Hm & Hw).
  destruct (same_key k k1); simpl; [exact Hw |].
  split; [exact H1 |]. split; [| auto].
  destruct (key_mem k1 (dict_keys (dict_del k d))) eqn:E; [| reflexivity].
  apply dict_del_keys_mem in E. congruence.
Qed.

Lemma dict_lookup_app k (d d' : dict V) :
  dict_lookup k (d ++ d')
  = match dict_lookup k d with Some v => Some v | None => dict_lookup k d' end.
Proof.
  induction d as [| [k1 v1] d IH]; simpl; [reflexivity |].
  destruct (same_key k k1); [reflexivity | exact IH].
Qed.

(** A key of a well-formed dict finds its own entry. *)
Lemma dict_lookup_key d k :
  dict_wf d -> In k (dict_keys d) ->
  hash_key k <> None /\ exists v, dict_lookup k d = Some v /\ In (k, v) d.
Proof.
  unfold dict_wf. induction d as [| [k1 v1] d IH]; simpl; [tauto |].
  intros (H1 & Hm & Hw) [-> | Hin].
  - split; [exact H1 |]. exists v1. rewrite same_key_refl by exact H1. auto.
  - destruct (IH Hw Hin) as (Hk & v & Hl & Hi).
    split; [exact Hk |]. exists v.
    destruct (same_key k k1) eqn:E.
    + rewrite same_key_sym in E.
      rewrite (key_mem_congr _ _ _ E), (key_mem_In _ _ Hk Hin) in Hm. discriminate.
    + auto.
Qed.

End Dicts.

(** ** The recommendation set of [gitgud] *)

Ltac break_both H :=
  repeat (simpl in H; simpl;
          first
            [ match type of H with
              | context [match ?x with _ => _ end] =>
                  lazymatch x with
                  | context [match _ with _ => _ end] => fail
                  | _ => destruct x eqn:?
                  end
              end
            | match goal with
              | |- context [match ?x with _ => _ end] =>
                  lazymatch x with
                  | context [match _ with _ => _ end] => fail
                  | _ => destruct x eqn:?
                  end
              end ]).

(** One round of the loop over the problems adds the entry of a candidate
    and leaves the dict alone otherwise. *)
Lemma add_candidate_spec bucket p d d' :
  add_candidate bucket p d = Ret d' ->
  match candidate_entry bucket p with
  | Some (k, v) => hash_key k <> None /\ d' = dict_set k v d
  | None => d' = d
  end.
Proof.
  unfold add_candidate, candidate_entry, rbind, dict_setitem. intros H.
  break_both H; try discriminate; try (inversion H; subst; clear H);
    try congruence; try (split; congruence).
Qed.

(** One round of the loop over the submissions removes the pair of a solved
    problem. *)
Lemma remove_solved_spec sub d d' :
  remove_solved sub d = Ret d' ->
  match ok_pair sub with
  | Some k => hash_key k <> None /\ d' = dict_del k d
  | None => d' = d
  end.
Proof.
  unfold remove_solved, ok_pair, rbind, dict_pop. intros H.
  break_both H; try discriminate; try (inversion H; subst; clear H);
    try congruence; try (split; congruence).
Qed.

Lemma lookup_last_app {V} k (es es' : list (key * V)) :
  lookup_last k (es ++ es')
  = match lookup_last k es' with Some v => Some v | None => lookup_last k es end.
Proof. unfold lookup_last. rewrite rev_app_distr. apply dict_lookup_app. Qed.

Lemma dict_keys_del_In {V} k k' (d : dict V) :
  In k (dict_keys (dict_del k' d)) -> In k (dict_keys d).
Proof.
  induction d as [| [k1 v1] d IH]; simpl; [auto |].
  destruct (same_key k' k1); simpl; tauto.
Qed.

Lemma dict_keys_set_In {V} k k' (v : V) d :
  In k (dict_keys (dict_set k' v d)) -> In k (dict_keys d) \/ k = k'.
Proof.
  rewrite dict_keys_set. destruct (key_mem k' (dict_keys d)); [auto |].
  rewrite in_app_iff. simpl. intuition.
Qed.

(** The loop over the problems: the dict holds, under every key, the value
    of the last candidate with that key, and what it held before under
    the other keys. *)
Lemma fold_add_candidate bucket ps : forall d d',
  foldM (add_candidate bucket) ps d = Ret d' ->
  dict_wf d ->
  dict_wf d' /\
  (forall k, dict_lookup k d'
             = match lookup_last k (candidates bucket ps) with
               | Some v => Some v
               | None => dict_lookup k d
               end) /\
  (forall k, In k (dict_keys d') ->
             In k (dict_keys d) \/ In k (map fst (candidates bucket ps))).
Proof.
  induction ps as [| p ps IH]; intros d d' H Hw.
  - simpl in H. inversion H; subst. simpl. auto.
  - simpl in H. destruct (add_candidate bucket p d) as [d1 | e] eqn:E1; [| discriminate].
    simpl in H. apply add_candidate_spec in E1.
    unfold candidates, somes in *. simpl flat_map.
    destruct (candidate_entry bucket p) as [[k' v'] |].
    + destruct E1 as [Hk ->].
      destruct (IH _ _ H (dict_set_wf _ _ _ Hk Hw)) as (Hw' & Hl & Hin).
      split; [exact Hw' |]. split.
      * intros k. rewrite Hl, lookup_last_app, dict_lookup_set.
        destruct (lookup_last k _); [reflexivity |].
        unfold lookup_last. simpl. destruct (same_key k k'); reflexivity.
      * intros k Hk'. rewrite map_app, in_app_iff. simpl.
        destruct (Hin k Hk') as [H1 | H1]; [| tauto].
        apply dict_keys_set_In in H1. intuition.
    + subst d1. simpl. apply IH; assumption.
Qed.

(** The loop over the submissions: the pairs of the solved problems are
    gone, the other keys keep their value. *)
Lemma fold_remove_solved subs : forall d d',
  foldM remove_solved subs d = Ret d' ->
  dict_wf d ->
  dict_wf d' /\
  (forall k, dict_lookup k d'
             = if key_mem k (ok_pairs subs) then None else dict_lookup k d) /\
  (forall k, In k (dict_keys d') -> In k (dict_keys d)).
Proof.
  induction subs as [| sub subs IH]; intros d d' H Hw.
  - simpl in H. inversion H; subst. simpl. auto.
  - simpl in H. destruct (remove_solved sub d) as [d1 | e] eqn:E1; [| discriminate].
    simpl in H. apply remove_solved_spec in E1.
    unfold ok_pairs, somes in *. simpl flat_map.
    destruct (ok_pair sub) as [k' |].
    + destruct E1 as [Hk ->].
      destruct (IH _ _ H (dict_del_wf _ _ Hw)) as (Hw' & Hl & Hin).
      split; [exact Hw' |]. split.
      * intros k. rewrite Hl, dict_lookup_del by exact Hw.
        simpl. unfold key_mem at 2. simpl.
        destruct (same_key k k'); simpl.
        -- destruct (key_mem k _); reflexivity.
        -- reflexivity.
      * intros k Hk'. apply Hin in Hk'. eapply dict_keys_del_In. exact Hk'.
    + subst d1. simpl. apply IH; assumption.
Qed.

Lemma user_bucket_inv infojson bucket :
  user_bucket infojson = Ret bucket ->
  exists res user r,
    getitem infojson "result" = Ret res /\
    getitem_int res 0 = Ret user /\
    get_method user "rating" = Ret r /\
    ((r = JNull /\ bucket = round_rating 500) \/
     (r <> JNull /\ exists n, as_int r = Ret n /\ bucket = round_rating n)).
Proof.
  unfold user_bucket, rbind. intros H.
  destruct (getitem infojson "result") as [res |] eqn:E1; [| discriminate].
  destruct (getitem_int res 0) as [user |] eqn:E2; [| discriminate].
  destruct (get_method user "rating") as [r |] eqn:E3; [| discriminate].
  exists res, user, r. split; [reflexivity |]. split; [exact E2 |]. split; [exact E3 |].
  destruct r; simpl in H; try discriminate; inversion H; subst;
    first [ left; split; reflexivity
          | right; split; [discriminate | eexists; split; reflexivity] ].
Qed.

Lemma recommendations_of_inv probjson infojson subsjson recs :
  recommendations_of probjson infojson subsjson = Ret recs ->
  exists bucket problems subs mid,
    user_bucket infojson = Ret bucket /\
    problems_of probjson = Ret problems /\
    submissions_of subsjson = Ret subs /\
    foldM (add_candidate bucket) problems [] = Ret mid /\
    foldM remove_solved subs mid = Ret recs.
Proof.
  unfold recommendations_of, problems_of, submissions_of, rbind. intros H.
  destruct (user_bucket infojson) as [bucket |]; [| discriminate].
  destruct (getitem probjson "result") as [pr |]; [| discriminate].
  destruct (getitem pr "problems") as [ps |]; [| discriminate].
  destruct (py_iter ps) as [problems |]; [| discriminate].
  destruct (foldM (add_candidate bucket) problems []) as [mid |] eqn:E; [| discriminate].
  destruct (getitem subsjson "result") as [sr |]; [| discriminate].
  destruct (py_iter sr) as [subs |]; [| discriminate].
  exists bucket, problems, subs, mid. repeat split; assumption.
Qed.

(** The recommendation set, by the candidates and the solved pairs. *)
Lemma recommendations_of_spec probjson infojson subsjson recs :
  recommendations_of probjson infojson subsjson = Ret recs ->
  exists bucket problems subs,
    problems_of probjson = Ret problems /\
    submissions_of subsjson = Ret subs /\
    (exists res user r,
        getitem infojson "result" = Ret res /\
        getitem_int res 0 = Ret user /\
        get_method user "rating" = Ret r /\
        ((r = JNull /\ bucket = round_rating 500) \/
         (r <> JNull /\ exists n, as_int r = Ret n /\ bucket = round_rating n))) /\
    (forall k, dict_lookup k recs
               = if key_mem k (ok_pairs subs) then None
                 else lookup_last k (candidates bucket problems)) /\
    (forall k, In k (dict_keys recs) -> In k (map fst (candidates bucket problems))) /\
    dict_wf recs.
Proof.
  intros H. apply recommendations_of_inv in H.
  destruct H as (bucket & problems & subs & mid & Hb & Hp & Hs & Hadd & Hdel).
  exists bucket, problems, subs.
  destruct (fold_add_candidate _ _ _ _ Hadd I) as (Hw1 & Hl1 & Hk1).
  destruct (fold_remove_solved _ _ _ Hdel Hw1) as (Hw2 & Hl2 & Hk2).
  split; [exact Hp |]. split; [exact Hs |].
  split; [apply user_bucket_inv; exact Hb |].
  split; [| split; [| exact Hw2]].
  - intros k. rewrite Hl2, Hl1. simpl.
    destruct (key_mem k (ok_pairs subs)); [reflexivity |].
    destruct (lookup_last k (candidates bucket problems)); reflexivity.
  - intros k Hin. apply Hk2, Hk1 in Hin. simpl in Hin. tauto.
Qed.

(** C2. When [gitgud] has built its recommendation set, the set is the
    difference the specification describes: with the bucket the rounded
    rating of the user (500 for a user without rating), a key (name,
    rating) is bound in the set exactly when it is the pair of no
    submission with verdict "OK" and a rating field, and some problem
    without the tag "*special", with the rating of the bucket and with a
    contestId has that pair; it is bound to the (contestId, index) of the
    last such problem.  Every key of the set is the pair of such a
    problem, and no two keys are equal. *)
Theorem recommendations_spec probjson infojson subsjson recs :
  recommendations_of probjson infojson subsjson = Ret recs ->
  exists bucket problems subs,
    problems_of probjson = Ret problems /\
    submissions_of subsjson = Ret subs /\
    (exists res user r,
        getitem infojson "result" = Ret res /\
        getitem_int res 0 = Ret user /\
        get_method user "rating" = Ret r /\
        ((r = JNull /\ bucket = round_rating 500) \/
         (r <> JNull /\ exists n, as_int r = Ret n /\ bucket = round_rating n))) /\
    (forall k, dict_lookup k recs
               = if key_mem k (ok_pairs subs) then None
                 else lookup_last k (candidates bucket problems)) /\
    (forall k, In k (dict_keys recs) -> In k (map fst (candidates bucket problems))) /\
    dict_wf recs.
Proof. apply recommendations_of_spec. Qed.

Lemma recommendations_spec_witness :
  let probjson := JObj [("status", JStr "OK"); ("result", sample_problems)] in
  let infojson := JObj [("status", JStr "OK"); ("result", sample_info)] in
  let subsjson := JObj [("status", JStr "OK"); ("result", sample_submissions)] in
  let recs := [((JStr "Boring", JNum 1500), (JNum 7, JStr "C"));
               ((JStr "Easy", JNum 1500), (JNum 12, JStr "E"))] in
  recommendations_of probjson infojson subsjson = Ret recs /\
  dict_wf recs /\
  forall k, In k (dict_keys recs) -> In k (map fst (candidates 1500 [
    problem_json "Watermelon" 1500 4 "A" ["math"];
    problem_json "April" 1500 171 "B" ["*special"; "dp"];
    problem_json "Boring" 1500 7 "C" ["dp"];
    problem_json "Far" 1600 9 "D" [];
    problem_json "Easy" 1500 12 "E" ["greedy"]])).
Proof.
  intros probjson infojson subsjson recs.
  assert (H : recommendations_of probjson infojson subsjson = Ret recs) by reflexivity.
  destruct (recommendations_spec probjson infojson subsjson recs H)
    as (bucket & problems & subs & Hp & _ & Hb & _ & Hk & Hw).
  split; [exact H |]. split; [exact Hw |].
  inversion Hp; subst problems.
  destruct Hb as (res & user & r & E1 & E2 & E3 & Hb).
  inversion E1; subst res. inversion E2; subst user. inversion E3; subst r.
  destruct Hb as [[E _] | (_ & n & E & ->)]; [discriminate |].
  inversion E; subst n. exact Hk.
Defined.

(** ** The reply of [gitgud] *)

Lemma gitgud_run w handle probjson infojson subsjson tp ti ts recs r t :
  query_api w "problemset.problems" [] 0%nat = (Ret probjson, tp) ->
  query_api w "user.info" [("handles", JStr handle)] 1%nat = (Ret infojson, ti) ->
  query_api w "user.status" [("handle", JStr handle)] 2%nat = (Ret subsjson, ts) ->
  recommendations_of probjson infojson subsjson = Ret recs ->
  recommend w handle recs 3%nat = (r, t) ->
  run (gitgud w handle) = (r, tp ++ ti ++ ts ++ t).
Proof.
  intros Hp Hi Hs Hrecs Hr.
  destruct (query_api_trace _ _ _ _ _ _ Hp) as [Qp _].
  destruct (query_api_trace _ _ _ _ _ _ Hi) as [Qi _].
  destruct (query_api_trace _ _ _ _ _ _ Hs) as [Qs _].
  unfold run, gitgud.
  eapply bind_ret_eq; [exact Hp |]. rewrite Qp.
  eapply bind_ret_eq; [exact Hi |]. rewrite Qi.
  eapply bind_ret_eq; [exact Hs |]. rewrite Qs.
  change t with ([] ++ t).
  eapply bind_ret_eq; [unfold lift; rewrite Hrecs; reflexivity |].
  exact Hr.
Qed.

(** The key [random.choice] draws, and the request and the reply that
    follow. *)
Lemma recommend_choice w handle recs n :
  recs <> [] -> dict_wf recs ->
  exists name rating contestid index rc tq,
    nth_error (dict_keys recs) (randbelow w (List.length (dict_keys recs)))
    = Some (name, rating) /\
    In ((name, rating), (contestid, index)) recs /\
    dict_lookup (name, rating) recs = Some (contestid, index) /\
    query_api w "contest.standings"
      [("contestId", contestid); ("from", JNum 1); ("count", JNum 1)] n = (rc, tq) /\
    ((exists e, recommend w handle recs n = (Raise e, tq)) \/
     (exists contestname,
         recommend w handle recs n
         = (Ret tt,
            tq ++ [SendEmbed ("Recommended problem for `" ++ handle ++ "`")%string
                     {| embed_index := index; embed_name := name;
                        embed_contestid := contestid; embed_contestname := contestname;
                        embed_rating := rating |}]))).
Proof.
  intros Hne Hw.
  destruct recs as [| first rest]; [congruence |].
  unfold recommend.
  set (recs := first :: rest) in *.
  assert (Hlt : (randbelow w (List.length (dict_keys recs)) < List.length (dict_keys recs))%nat).
  { apply randbelow_lt. unfold recs. simpl. lia. }
  assert (Hnth : nth_error (dict_keys recs) (randbelow w (List.length (dict_keys recs)))
                 = Some (random_choice w (dict_keys recs) (fst first))).
  { unfold random_choice. apply nth_error_nth'. exact Hlt. }
  assert (Hin : In (random_choice w (dict_keys recs) (fst first)) (dict_keys recs)).
  { eapply nth_error_In. exact Hnth. }
  destruct (dict_lookup_key recs _ Hw Hin) as (Hk & [contestid index] & Hl & Hi).
  destruct (random_choice w (dict_keys recs) (fst first)) as [name rating].
  destruct (query_api w "contest.standings"
              [("contestId", contestid); ("from", JNum 1); ("count", JNum 1)] n)
    as [rc tq] eqn:Hq.
  exists name, rating, contestid, index, rc, tq.
  repeat (split; [assumption |]).
  assert (Hget : dict_getitem (name, rating) recs = Ret (contestid, index)).
  { unfold dict_getitem. rewrite Hl. destruct (hash_key (name, rating)); congruence. }
  assert (Hn : (n + nqueries [])%nat = n) by apply Nat.add_0_r.
  destruct rc as [contestjson | e].
  - destruct (let* r := getitem contestjson "result" in
              let* c := getitem r "contest" in getitem c "name")
      as [contestname | e] eqn:Hc.
    + right. exists contestname.
      unfold bind, lift. rewrite Hget, Hn, Hq, Hc. reflexivity.
    + left. exists e.
      unfold bind, lift. rewrite Hget, Hn, Hq, Hc. simpl. rewrite app_nil_r. reflexivity.
  - left. exists e. unfold bind, lift. rewrite Hget, Hn, Hq. reflexivity.
Qed.

(** In a list without duplicates every element sits at one index. *)
Lemma key_index_unique {A} (l : list A) :
  NoDup l ->
  forall k, In k l ->
    exists i, nth_error l i = Some k /\ forall j, nth_error l j = Some k -> j = i.
Proof.
  intros Hnd k Hin. apply In_nth_error in Hin. destruct Hin as [i Hi].
  exists i. split; [exact Hi |].
  intros j Hj. rewrite NoDup_nth_error in Hnd.
  apply Hnd; [| congruence].
  apply nth_error_Some. congruence.
Qed.

Lemma silent_no_send t msg : silent t -> ~ In (Send msg) t.
Proof.
  unfold silent. intros H Hin. rewrite Forall_forall in H.
  apply H in Hin. discriminate.
Qed.

(** C1. Once [gitgud] has built its recommendation set: the set is empty
    exactly when the command sends the message that the handle is already
    too gud (and then that message is its whole reply); otherwise every
    key of the set sits at exactly one index of the list of keys, the
    command takes the one key at the index the random generator draws
    below their number (so a uniform draw takes every key with the same
    chance), that (name, rating) pair is the pair of no submission of the
    user with verdict "OK" and a rating field, and the command asks for
    the standings of the contest of that one entry and replies, if at
    all, with the embed of that entry. *)
Theorem gitgud_reply (w : world) handle probjson infojson subsjson tp ti ts recs subs :
  query_api w "problemset.problems" [] 0%nat = (Ret probjson, tp) ->
  query_api w "user.info" [("handles", JStr handle)] 1%nat = (Ret infojson, ti) ->
  query_api w "user.status" [("handle", JStr handle)] 2%nat = (Ret subsjson, ts) ->
  recommendations_of probjson infojson subsjson = Ret recs ->
  submissions_of subsjson = Ret subs ->
  (recs = [] <->
   In (Send (handle ++ " is already too gud")%string) (snd (run (gitgud w handle)))) /\
  (recs = [] ->
   run (gitgud w handle)
   = (Ret tt, tp ++ ti ++ ts ++ [Send (handle ++ " is already too gud")%string])) /\
  (recs <> [] ->
   exists name rating contestid index rc tq,
     (forall k, In k (dict_keys recs) ->
                exists i, nth_error (dict_keys recs) i = Some k /\
                          forall j, nth_error (dict_keys recs) j = Some k -> j = i) /\
     nth_error (dict_keys recs) (randbelow w (List.length (dict_keys recs)))
     = Some (name, rating) /\
     In ((name, rating), (contestid, index)) recs /\
     key_mem (name, rating) (ok_pairs subs) = false /\
     query_api w "contest.standings"
       [("contestId", contestid); ("from", JNum 1); ("count", JNum 1)] 3%nat = (rc, tq) /\
     ((exists e, run (gitgud w handle) = (Raise e, tp ++ ti ++ ts ++ tq)) \/
      (exists contestname,
          run (gitgud w handle)
          = (Ret tt,
             tp ++ ti ++ ts ++ tq ++
             [SendEmbed ("Recommended problem for `" ++ handle ++ "`")%string
                {| embed_index := index; embed_name := name;
                   embed_contestid := contestid; embed_contestname := contestname;
                   embed_rating := rating |}])))).
Proof.
  intros Hp Hi Hs Hrecs Hsubs.
  destruct (recommendations_of_spec _ _ _ _ Hrecs)
    as (bucket & problems & subs' & _ & Hsubs' & _ & Hl & _ & Hw).
  assert (subs' = subs) by congruence. subst subs'.
  destruct (query_api_trace _ _ _ _ _ _ Hp) as [_ Sp].
  destruct (query_api_trace _ _ _ _ _ _ Hi) as [_ Si].
  destruct (query_api_trace _ _ _ _ _ _ Hs) as [_ Ss].
  assert (Hnil : recs = [] ->
                 run (gitgud w handle)
                 = (Ret tt, tp ++ ti ++ ts ++ [Send (handle ++ " is already too gud")%string])).
  { intros ->. eapply gitgud_run; eauto. }
  assert (Hcons : recs <> [] ->
    exists name rating contestid index rc tq,
      (forall k, In k (dict_keys recs) ->
                 exists i, nth_error (dict_keys recs) i = Some k /\
                           forall j, nth_error (dict_keys recs) j = Some k -> j = i) /\
      nth_error (dict_keys recs) (randbelow w (List.length (dict_keys recs)))
      = Some (name, rating) /\
      In ((name, rating), (contestid, index)) recs /\
      key_mem (name, rating) (ok_pairs subs) = false /\
      query_api w "contest.standings"
        [("contestId", contestid); ("from", JNum 1); ("count", JNum 1)] 3%nat = (rc, tq) /\
      ((exists e, run (gitgud w handle) = (Raise e, tp ++ ti ++ ts ++ tq)) \/
       (exists contestname,
           run (gitgud w handle)
           = (Ret tt,
              tp ++ ti ++ ts ++ tq ++
              [SendEmbed ("Recommended problem for `" ++ handle ++ "`")%string
                 {| embed_index := index; embed_name := name;
                    embed_contestid := contestid; embed_contestname := contestname;
                    embed_rating := rating |}])))).
  { intros Hne.
    destruct (recommend_choice w handle recs 3%nat Hne Hw)
      as (name & rating & contestid & index & rc & tq & Hnth & Hin & Hlk & Hq & Hrun).
    exists name, rating, contestid, index, rc, tq.
    split; [apply key_index_unique, keys_wf_NoDup; exact Hw |].
    split; [exact Hnth |]. split; [exact Hin |].
    split.
    { specialize (Hl (name, rating)). rewrite Hlk in Hl.
      destruct (key_mem (name, rating) (ok_pairs subs)); [discriminate | reflexivity]. }
    split; [exact Hq |].
    destruct Hrun as [[e Hr] | [contestname Hr]].
    - left. exists e. eapply gitgud_run; eauto.
    - right. exists contestname. eapply gitgud_run; eauto. }
  split; [| split; assumption].
  split.
  - intros E. rewrite (Hnil E). simpl. rewrite !in_app_iff. simpl. auto.
  - intros Hin. destruct recs as [| first rest]; [reflexivity |]. exfalso.
    destruct Hcons as (name & rating & contestid & index & rc & tq & _ & _ & _ & _ & Hq & Hrun);
      [discriminate |].
    destruct (query_api_trace _ _ _ _ _ _ Hq) as [_ Sq].
    pose proof (silent_no_send _ (handle ++ " is already too gud")%string Sp).
    pose proof (silent_no_send _ (handle ++ " is already too gud")%string Si).
    pose proof (silent_no_send _ (handle ++ " is already too gud")%string Ss).
    pose proof (silent_no_send _ (handle ++ " is already too gud")%string Sq).
    destruct Hrun as [[e Hr] | [contestname Hr]]; rewrite Hr in Hin; simpl in Hin;
      rewrite !in_app_iff in Hin; simpl in Hin; intuition discriminate.
Qed.

Lemma gitgud_reply_witness :
  let w := sample_world 1 in
  let recs := [((JStr "Boring", JNum 1500), (JNum 7, JStr "C"));
               ((JStr "Easy", JNum 1500), (JNum 12, JStr "E"))] in
  recommendations_of (JObj [("status", JStr "OK"); ("result", sample_problems)])
    (JObj [("status", JStr "OK"); ("result", sample_info)])
    (JObj [("status", JStr "OK"); ("result", sample_submissions)]) = Ret recs /\
  exists name rating contestid index,
    nth_error (dict_keys recs) (randbelow w (List.length (dict_keys recs)))
    = Some (name, rating) /\
    In ((name, rating), (contestid, index)) recs /\
    exists r t, run (gitgud w "tourist") = (r, t) /\
                ~ In (Send "tourist is already too gud") t.
Proof.
  intros w recs. split; [reflexivity |].
  destruct (gitgud_reply w "tourist"
              (JObj [("status", JStr "OK"); ("result", sample_problems)])
              (JObj [("status", JStr "OK"); ("result", sample_info)])
              (JObj [("status", JStr "OK"); ("result", sample_submissions)])
              [Query "problemset.problems" []]
              [Query "user.info" [("handles", JStr "tourist")]]
              [Query "user.status" [("handle", JStr "tourist")]]
              recs
              [submission "Watermelon" (JNum 1500) "OK";
               submission "Boring" (JNum 1500) "WRONG_ANSWER";
               submission "Watermelon" (JNum 1500) "OK";
               submission "Gym" (JNum 0) "OK";
               submission "Far" (JNum 1600) "OK"]
              eq_refl eq_refl eq_refl eq_refl eq_refl)
    as (Hiff & _ & Hcons).
  destruct Hcons as (name & rating & contestid & index & rc & tq & _ & Hnth & Hin & _);
    [discriminate |].
  exists name, rating, contestid, index.
  split; [exact Hnth |]. split; [exact Hin |].
  exists (fst (run (gitgud w "tourist"))), (snd (run (gitgud w "tourist"))).
  split; [apply surjective_pairing |].
  intros H. apply Hiff in H. discriminate.
Defined.

(** ** The solved set of [solved] *)

Lemma add_solved_spec sub s s' :
  add_solved sub s = Ret s' ->
  match ok_pair_with truthy sub with
  | Some k => hash_key k <> None /\ s' = if key_mem k s then s else s ++ [k]
  | None => s' = s
  end.
Proof.
  unfold add_solved, ok_pair_with, rbind, set_add. intros H.
  break_both H; try discriminate; try (inversion H; subst; clear H);
    try congruence; try (split; congruence).
Qed.

Lemma solved_handle_continue_inv w h acc n acc' t :
  solved_handle w h acc n = (Ret (Continue acc'), t) ->
  exists subs problems,
    acc' = acc ++ [map snd problems] /\ solved_round w n h subs problems.
Proof.
  unfold solved_handle, solved_round, submissions_of. intros H. run_cases H.
  match goal with
  | Hf : foldM add_solved ?subs [] = Ret ?problems,
    Hr : getitem ?body "result" = Ret _ |- _ =>
      exists subs, problems; split; [reflexivity |];
      exists body; rewrite Hr; simpl; auto
  end.
Qed.

(** The loop over the submissions builds a set: its elements are pairs of
    submissions with verdict "OK" and a rating that is true, each such
    pair is in it, and no two elements are equal. *)
Lemma fold_add_solved subs : forall s s',
  foldM add_solved subs s = Ret s' ->
  keys_wf s ->
  keys_wf s' /\
  (forall k, key_mem k s' = key_mem k s || key_mem k (ok_rated_pairs subs)) /\
  (forall k, In k s' -> In k s \/ In k (ok_rated_pairs subs)) /\
  (forall k, In k (ok_rated_pairs subs) -> hash_key k <> None).
Proof.
  induction subs as [| sub subs IH]; intros s s' H Hw.
  - simpl in H. inversion H; subst. simpl.
    split; [exact Hw |]. split; [intros k; rewrite orb_false_r; reflexivity |].
    split; [auto | intros k []].
  - simpl in H. destruct (add_solved sub s) as [s1 | e] eqn:E1; [| discriminate].
    simpl in H. apply add_solved_spec in E1.
    unfold ok_rated_pairs, somes in *. simpl flat_map.
    destruct (ok_pair_with truthy sub) as [k' |].
    + destruct E1 as [Hk ->].
      assert (Hw1 : keys_wf (if key_mem k' s then s else s ++ [k'])).
      { destruct (key_mem k' s) eqn:E; [exact Hw | apply keys_wf_snoc; assumption]. }
      destruct (IH _ _ H Hw1) as (Hw' & Hm & Hin & Hh).
      split; [exact Hw' |]. split; [| split].
      * intros k. rewrite Hm. simpl. unfold key_mem at 3. simpl.
        fold (key_mem k (flat_map (fun x => match ok_pair_with truthy x with
                                            | Some y => [y] | None => [] end) subs)).
        destruct (key_mem k' s) eqn:E.
        -- destruct (same_key k k') eqn:Ek; simpl; [| reflexivity].
           rewrite (key_mem_congr _ _ s Ek), E. reflexivity.
        -- rewrite key_mem_app. unfold key_mem at 2. simpl.
           rewrite orb_false_r, orb_assoc. reflexivity.
      * intros k Hk'. simpl. destruct (Hin k Hk') as [H1 | H1]; [| tauto].
        destruct (key_mem k' s); [tauto |].
        apply in_app_or in H1. simpl in H1. intuition.
      * intros k [<- | Hk']; [exact Hk | apply Hh; exact Hk'].
    + subst s1. simpl. apply IH; assumption.
Qed.

(** The loop of [solved] over the handles: one request and one series per
    handle. *)
Lemma solved_loop_inv w hs : forall acc n acc' t,
  for_each (solved_handle w) hs acc n = (Ret (Continue acc'), t) ->
  exists series,
    acc' = acc ++ series /\
    List.length series = List.length hs /\
    forall i h, nth_error hs i = Some h ->
      exists subs problems,
        solved_round w (n + i) h subs problems /\
        nth_error series i = Some (map snd problems).
Proof.
  induction hs as [| h0 hs IH]; intros acc n acc' t H.
  - simpl in H. unfold ret in H. inversion H; subst.
    exists []. rewrite app_nil_r. repeat split.
    intros [| i] h Hn; discriminate.
  - apply for_each_inv in H.
    destruct H as [(a & t1 & t2 & Hb & Hl & ->) | [[_ E] | (e & _ & E)]];
      [| discriminate | discriminate].
    destruct (solved_handle_continue w _ _ _ _ _ Hb) as [_ Hq].
    apply solved_handle_continue_inv in Hb.
    destruct Hb as (subs0 & problems0 & -> & Hr0).
    apply IH in Hl. destruct Hl as (series & -> & Hlen & Hnth).
    exists (map snd problems0 :: series).
    split; [rewrite <- app_assoc; reflexivity |].
    split; [simpl; congruence |].
    intros [| i] h Hn; simpl in Hn.
    + inversion Hn; subst. exists subs0, problems0.
      rewrite Nat.add_0_r. auto.
    + destruct (Hnth i h Hn) as (subs & problems & Hr & Hs).
      exists subs, problems. rewrite Hq in Hr.
      replace (n + S i)%nat with (n + 1 + i)%nat by lia. auto.
Qed.

Lemma nth_error_combine {A B} (l : list A) (l' : list B) i a b :
  nth_error l i = Some a -> nth_error l' i = Some b ->
  nth_error (combine l l') i = Some (a, b).
Proof.
  revert l' i. induction l as [| x l IH]; intros [| y l'] [| i]; simpl;
    try discriminate; intros H1 H2.
  - congruence.
  - auto.
Qed.

(** C8, as it is written, fails on a rating that is defined and false in an
    [if]: the accepted submission of the problem "Gym" with rating 0 has a
    defined rating, and its pair is not in the set [solved] builds; the
    series has two ratings and the label counts two. *)
Lemma solved_zero_rating_counterexample :
  let subs := [submission "Watermelon" (JNum 1500) "OK";
               submission "Boring" (JNum 1500) "WRONG_ANSWER";
               submission "Watermelon" (JNum 1500) "OK";
               submission "Gym" (JNum 0) "OK";
               submission "Far" (JNum 1600) "OK"] in
  let problems := [(JStr "Watermelon", JNum 1500); (JStr "Far", JNum 1600)] in
  submissions_of (JObj [("status", JStr "OK"); ("result", sample_submissions)]) = Ret subs /\
  In (JStr "Gym", JNum 0) (ok_defined_pairs subs) /\
  foldM add_solved subs [] = Ret problems /\
  key_mem (JStr "Gym", JNum 0) problems = false /\
  run (solved (sample_world 0) ["tourist"])
  = (Ret tt, [Query "user.status" [("handle", JStr "tourist")]; PltClf;
              PltHist [[JNum 1500; JNum 1600]] (histbins ["tourist"]) [("tourist", 2%nat)];
              PltTitles; PltSaveFig; SendFile]).
Proof.
  intros subs problems.
  split; [reflexivity |]. split; [vm_compute; tauto |].
  split; [reflexivity |]. split; reflexivity.
Qed.

(** C8, amended. In the histogram [solved] plots, for every handle: the set
    built from the submissions of the answer for that handle has as
    elements pairs (name, rating) of submissions with verdict "OK" and a
    rating that is true in an [if] (present, not [None], not zero), holds
    every such pair, and holds no two equal pairs; the series of the handle
    is the list of the ratings of the set and the label of the handle
    counts the elements of the set. *)
Theorem solved_series (w : world) handles r t allratings bins labels :
  run (solved w handles) = (r, t) ->
  In (PltHist allratings bins labels) t ->
  List.length allratings = List.length handles /\
  forall i h, nth_error handles i = Some h ->
    exists respjson subs problems,
      http_get w i "user.status" [("handle", JStr h)] = HttpJson respjson /\
      submissions_of respjson = Ret subs /\
      (forall k, In k problems -> In k (ok_rated_pairs subs)) /\
      (forall k, In k (ok_rated_pairs subs) -> key_mem k problems = true) /\
      keys_wf problems /\ NoDup problems /\
      nth_error allratings i = Some (map snd problems) /\
      nth_error labels i = Some (h, List.length problems).
Proof.
  intros Hrun Hin.
  destruct (solved_hist _ _ _ _ _ _ _ Hrun Hin) as (_ & [t1 Hloop] & _ & ->).
  apply solved_loop_inv in Hloop.
  destruct Hloop as (series & E & Hlen & Hnth). simpl in E. subst series.
  split; [exact Hlen |].
  intros i h Hi.
  destruct (Hnth i h Hi) as (subs & problems & (respjson & Hh & Hs & Hf) & Hser).
  destruct (fold_add_solved _ _ _ Hf I) as (Hw & Hm & Hin' & Hhash).
  exists respjson, subs, problems.
  split; [exact Hh |]. split; [exact Hs |].
  split; [intros k Hk; destruct (Hin' k Hk) as [[] | H1]; exact H1 |].
  split.
  { intros k Hk. rewrite Hm. simpl. apply key_mem_In; [apply Hhash |]; exact Hk. }
  split; [exact Hw |]. split; [apply keys_wf_NoDup; exact Hw |].
  split; [exact Hser |].
  unfold hist_labels.
  erewrite map_nth_error; [| apply nth_error_combine; eassumption].
  simpl. rewrite length_map. reflexivity.
Qed.

Lemma solved_series_witness :
  exists t,
    run (solved (sample_world 0) ["tourist"; "petr"]) = (Ret tt, t) /\
    exists problems,
      (forall k, In k problems ->
                 In k (ok_rated_pairs
                         [submission "Watermelon" (JNum 1500) "OK";
                          submission "Boring" (JNum 1500) "WRONG_ANSWER";
                          submission "Watermelon" (JNum 1500) "OK";
                          submission "Gym" (JNum 0) "OK";
                          submission "Far" (JNum 1600) "OK"])) /\
      NoDup problems /\
      map snd problems = [JNum 1500; JNum 1600] /\ List.length problems = 2%nat.
Proof.
  exists (snd (run (solved (sample_world 0) ["tourist"; "petr"]))).
  assert (Hrun : run (solved (sample_world 0) ["tourist"; "petr"])
                 = (Ret tt, snd (run (solved (sample_world 0) ["tourist"; "petr"]))))
    by reflexivity.
  split; [exact Hrun |].
  assert (Hin : In (PltHist [[JNum 1500; JNum 1600]; [JNum 1500; JNum 1600]]
                      (histbins ["tourist"; "petr"])
                      [("tourist", 2%nat); ("petr", 2%nat)])
                   (snd (run (solved (sample_world 0) ["tourist"; "petr"]))))
    by (vm_compute; tauto).
  destruct (solved_series _ _ _ _ _ _ _ Hrun Hin) as [_ H].
  destruct (H 1%nat "petr" eq_refl)
    as (respjson & subs & problems & Hh & Hs & Hsub & _ & _ & Hnd & Hser & Hlab).
  inversion Hh; subst respjson. inversion Hs; subst subs.
  exists problems. split; [exact Hsub |]. split; [exact Hnd |].
  split; [inversion Hser; reflexivity | inversion Hlab; reflexivity].
Defined.

(** ** The loops return on answers of the shape the API sends *)

Lemma assoc_in_keys k o :
  existsb (String.eqb k) (map fst o) = true -> exists v, assoc k o = Some v.
Proof.
  induction o as [| [k1 v1] o IH]; simpl; [discriminate |].
  destruct (String.eqb k k1); simpl; eauto.
Qed.

Lemma foldM_returns {A B} (f : A -> B -> result B) (P : A -> Prop) xs :
  (forall x acc, P x -> exists acc', f x acc = Ret acc') ->
  Forall P xs -> forall acc, exists acc', foldM f xs acc = Ret acc'.
Proof.
  intros Hf HP. induction HP as [| x xs Hx _ IH]; intros acc; simpl.
  - eauto.
  - destruct (Hf x acc Hx) as [acc1 ->]. simpl. apply IH.
Qed.

Lemma add_candidate_returns bucket p d :
  problem_ok p -> exists d', add_candidate bucket p d = Ret d'.
Proof.
  intros (o & tags & name & index & -> & Ht & Hn & Hi & Hr).
  unfold add_candidate, getitem, get_method, str_in, rbind.
  rewrite Ht, Hn, Hi. cbv beta iota.
  destruct (negb (existsb (json_is_str "*special") tags)); [| eauto].
  destruct Hr as [Hr | [n Hr]]; rewrite Hr; cbv beta iota.
  - unfold json_eq_int. eauto.
  - destruct (json_eq_int (JNum n) bucket); [| eauto].
    destruct (existsb (String.eqb "contestId") (map fst o)) eqn:Ec; [| eauto].
    apply assoc_in_keys in Ec. destruct Ec as [c Ec].
    rewrite Ec. cbv beta iota. unfold dict_setitem, hash_key. cbn. eauto.
Qed.

Lemma remove_solved_returns sub d :
  submission_ok sub -> exists d', remove_solved sub d = Ret d'.
Proof.
  intros (o & po & verdict & name & -> & Hp & Hv & Hn & Hr).
  unfold remove_solved, getitem, str_in, rbind.
  rewrite Hp, Hv. cbv beta iota.
  destruct (json_is_str "OK" verdict); [| eauto].
  destruct (existsb (String.eqb "rating") (map fst po)) eqn:Ec; [| eauto].
  apply assoc_in_keys in Ec. destruct Ec as [c Ec].
  rewrite Hn. cbv beta iota.
  destruct Hr as [Hr | [n Hr]]; rewrite Hr in *; [discriminate |].
  cbv beta iota. unfold dict_pop, hash_key. cbn. eauto.
Qed.

Lemma add_solved_returns sub s :
  submission_ok sub -> exists s', add_solved sub s = Ret s'.
Proof.
  intros (o & po & verdict & name & -> & Hp & Hv & Hn & Hr).
  unfold add_solved, getitem, get_method, rbind.
  rewrite Hp, Hv. cbv beta iota.
  destruct (json_is_str "OK" verdict); [| eauto].
  rewrite Hn. cbv beta iota.
  destruct Hr as [Hr | [n Hr]]; rewrite Hr; cbv beta iota.
  - unfold truthy. eauto.
  - destruct (truthy (JNum n)); [| eauto].
    unfold set_add, hash_key. cbn. eauto.
Qed.

(** [gitgud] builds its recommendation set whenever its three answers have
    the shape the API sends. *)
Lemma recommendations_of_returns probjson infojson subsjson :
  problems_answer_ok probjson -> info_answer_ok infojson -> status_answer_ok subsjson ->
  exists recs, recommendations_of probjson infojson subsjson = Ret recs.
Proof.
  intros (o & ro & ps & -> & Hr & Hps & Hall) (oi & uo & users & -> & Hri & Hu)
         (os & subs & -> & Hrs & Hsub).
  assert (Hb : exists b, user_bucket (JObj oi) = Ret b).
  { unfold user_bucket, getitem, rbind. rewrite Hri. cbv beta iota.
    unfold getitem_int, list_index, get_method. cbn.
    destruct Hu as [Hu | [n Hu]]; rewrite Hu; cbn; eauto. }
  destruct Hb as [b Hb].
  unfold recommendations_of. rewrite Hb.
  unfold getitem, py_iter, rbind. rewrite Hr. cbv beta iota.
  rewrite Hps. cbv beta iota.
  destruct (foldM_returns (add_candidate b) problem_ok ps
              (fun x acc Hx => add_candidate_returns b x acc Hx) Hall [])
    as [mid ->].
  rewrite Hrs.
  apply (foldM_returns remove_solved submission_ok subs
           (fun x acc Hx => remove_solved_returns x acc Hx) Hsub).
Qed.


(** ** [substringb] is Python's [in] on strings *)

Lemma prefix_append x s : prefix x s = true <-> exists b, s = (x ++ b)%string.
Proof.
  revert s. induction x as [| c x IH]; intros [| c' s]; simpl.
  - split; [intros _; exists ""; reflexivity | reflexivity].
  - split; [intros _; exists (String c' s); reflexivity | reflexivity].
  - split; [discriminate | intros [b H]; discriminate].
  - destruct (Ascii.ascii_dec c c') as [-> | Hne].
    + rewrite IH. split; intros [b H]; exists b; [subst; reflexivity | congruence].
    + split; [discriminate | intros [b H]; congruence].
Qed.

Lemma substringb_spec x s :
  substringb x s = true <-> exists a b, s = (a ++ x ++ b)%string.
Proof.
  induction s as [| c s IH]; cbn [substringb].
  - rewrite orb_false_r, prefix_append. split.
    + intros [b H]. exists "", b. exact H.
    + intros (a & b & H). destruct a; simpl in H; [eauto | discriminate].
  - rewrite orb_true_iff, prefix_append, IH. split.
    + intros [[b H] | (a & b & H)].
      * exists "", b. exact H.
      * exists (String c a), b. simpl. congruence.
    + intros (a & b & H). destruct a as [| c' a]; simpl in H.
      * left. eauto.
      * right. exists a, b. congruence.
Qed.

(** * Further properties of the code *)

(** ** [round_rating] on all integers *)

(** X1. For every integer rating, negative ones included, [round_rating]
    gives the one multiple of 100 in the window from the rating minus 49 to
    the rating plus 50: the nearest multiple, the upper one on a tie. *)
Theorem round_rating_any_integer (r : Z) :
  round_rating r mod 100 = 0 /\
  r - 50 < round_rating r <= r + 50 /\
  forall m, m mod 100 = 0 -> r - 50 < m <= r + 50 -> m = round_rating r.
Proof.
  pose proof (round_rating_multiple r) as Hm.
  pose proof (round_rating_window r) as Hw.
  split; [exact Hm |]. split; [exact Hw |].
  intros m Hm' Hw'.
  apply Z.mod_divide in Hm; [| lia]. destruct Hm as [q Hq].
  apply Z.mod_divide in Hm'; [| lia]. destruct Hm' as [q' Hq'].
  lia.
Qed.

Lemma round_rating_of_multiple (q : Z) : round_rating (100 * q) = 100 * q.
Proof.
  unfold round_rating.
  replace (100 * q) with (q * 100) by lia.
  rewrite Z.mod_mul by lia. simpl. lia.
Qed.

(** X2. [round_rating] is monotone, leaves its own results alone, and its
    fixed points are the multiples of 100. *)
Theorem round_rating_monotone_idempotent :
  (forall r r', r <= r' -> round_rating r <= round_rating r') /\
  (forall r, round_rating (round_rating r) = round_rating r) /\
  (forall r, round_rating r = r <-> r mod 100 = 0).
Proof.
  split; [| split].
  - intros r r' Hle.
    pose proof (round_rating_multiple r) as Hm.
    pose proof (round_rating_multiple r') as Hm'.
    pose proof (round_rating_window r) as Hw.
    pose proof (round_rating_window r') as Hw'.
    apply Z.mod_divide in Hm; [| lia]. destruct Hm as [q Hq].
    apply Z.mod_divide in Hm'; [| lia]. destruct Hm' as [q' Hq'].
    lia.
  - intros r.
    pose proof (round_rating_multiple r) as Hm.
    apply Z.mod_divide in Hm; [| lia]. destruct Hm as [q Hq].
    rewrite Hq. replace (q * 100) with (100 * q) by lia.
    apply round_rating_of_multiple.
  - intros r. split.
    + intros H. rewrite <- H. apply round_rating_multiple.
    + intros H. apply Z.mod_divide in H; [| lia]. destruct H as [q Hq].
      rewrite Hq. replace (q * 100) with (100 * q) by lia.
      apply round_rating_of_multiple.
Qed.

(** ** One reply, at the end *)

Lemma silent_app t t' : silent t -> silent t' -> silent (t ++ t').
Proof. unfold silent. intros H H'. apply Forall_app. auto. Qed.

Lemma ends_in_reply_app t t' : silent t -> ends_in_reply t' -> ends_in_reply (t ++ t').
Proof.
  intros Hs (t0 & e & -> & He & H0).
  exists (t ++ t0), e. rewrite app_assoc. auto using silent_app.
Qed.

Lemma ends_in_reply_snoc t e : silent t -> is_reply e = true -> ends_in_reply (t ++ [e]).
Proof. intros Hs He. exists t, e. auto. Qed.

Ltac split_last :=
  match goal with
  | |- ends_in_reply [?a] => apply (ends_in_reply_snoc [] a)
  | |- ends_in_reply [?a; ?b] => apply (ends_in_reply_snoc [a] b)
  | |- ends_in_reply [?a; ?b; ?c] => apply (ends_in_reply_snoc [a; b] c)
  | |- ends_in_reply [?a; ?b; ?c; ?d] => apply (ends_in_reply_snoc [a; b; c] d)
  | |- ends_in_reply [?a; ?b; ?c; ?d; ?e] => apply (ends_in_reply_snoc [a; b; c; d] e)
  end; [unfold silent; repeat constructor | reflexivity].

Lemma rating_handle_replies w h rate n r t :
  rating_handle w h rate n = (r, t) -> round_replies r t.
Proof.
  unfold rating_handle, round_replies. intros H. run_cases H;
    first [split_last | unfold silent; repeat constructor].
Qed.

Lemma solved_handle_replies w h acc n r t :
  solved_handle w h acc n = (r, t) -> round_replies r t.
Proof.
  unfold solved_handle, round_replies. intros H. run_cases H;
    first [split_last | unfold silent; repeat constructor].
Qed.

Lemma for_each_replies {A B} (body : A -> B -> M (loop_step B)) :
  (forall x acc n r t, body x acc n = (r, t) -> round_replies r t) ->
  forall xs acc n r t, for_each body xs acc n = (r, t) -> round_replies r t.
Proof.
  intros Hbody xs. induction xs as [| x xs IH]; intros acc n r t H.
  - simpl in H. unfold ret in H. inversion H; subst. constructor.
  - apply for_each_inv in H.
    destruct H as [(acc' & t1 & t2 & Hb & Hl & ->) | [[Hb ->] | (e & Hb & ->)]].
    + apply Hbody in Hb. apply IH in Hl. simpl in Hb.
      destruct r as [[a |] | e]; simpl in *;
        auto using silent_app, ends_in_reply_app.
    + apply Hbody in Hb. exact Hb.
    + apply Hbody in Hb. exact Hb.
Qed.

Lemma rating_inv w handles r t :
  run (rating w handles) = (r, t) ->
  (bad_handle_count handles = true /\ r = Ret tt /\ t = [Send handle_count_error]) \/
  (bad_handle_count handles = false /\
   exists lr t1, for_each (rating_handle w) handles [] 0%nat = (lr, t1) /\
     match lr with
     | Ret (Continue rate) => r = Ret tt /\ t = PltClf :: t1 ++ rating_tail handles rate
     | Ret Return => r = Ret tt /\ t = PltClf :: t1
     | Raise e => r = Raise e /\ t = PltClf :: t1
     end).
Proof.
  unfold run, rating. destruct (bad_handle_count handles).
  - intros H. inversion H. left. auto.
  - intros H. right. split; [reflexivity |].
    apply bind_inv in H.
    destruct H as [(u & ta & tb & Hc & Hk & ->) | (e & Hc & _)]; [| discriminate].
    inversion Hc; subst. change (0 + nqueries [PltClf])%nat with 0%nat in Hk.
    apply bind_inv in Hk.
    destruct Hk as [(s & t1 & t2 & Hl & Hk & ->) | (e & Hl & ->)].
    + exists (Ret s), t1. split; [exact Hl |].
      destruct s as [rate |].
      * inversion Hk; subst. auto.
      * inversion Hk; subst. rewrite app_nil_r. auto.
    + exists (Raise e), tb. auto.
Qed.

Lemma silent_cons e t : is_reply e = false -> silent t -> silent (e :: t).
Proof. unfold silent. intros He Ht. constructor; assumption. Qed.

Lemma rating_solved_reply_once_run (w : world) handles :
  (forall r t, run (rating w handles) = (r, t) -> replies_once r t) /\
  (forall r t, run (solved w handles) = (r, t) -> replies_once r t).
Proof.
  split; intros r t H.
  - apply rating_inv in H.
    destruct H as [(_ & -> & ->) | (_ & lr & t1 & Hl & Hcase)].
    + simpl. split_last.
    + assert (Hr : round_replies lr t1).
      { eapply for_each_replies; [| exact Hl].
        intros x acc n r0 t0. apply rating_handle_replies. }
      destruct lr as [[rate |] | e]; destruct Hcase as [-> ->]; simpl in *.
      * apply (ends_in_reply_app (PltClf :: t1));
          [apply silent_cons; [reflexivity | exact Hr] |].
        exists (removelast (rating_tail handles rate)), SendFile.
        split; [reflexivity |]. split; [reflexivity |].
        unfold silent. simpl. repeat constructor.
      * apply (ends_in_reply_app [PltClf]); [unfold silent; repeat constructor | exact Hr].
      * apply silent_cons; [reflexivity | exact Hr].
  - apply solved_inv in H.
    destruct H as [(_ & -> & ->) | (_ & lr & t1 & Hl & Hcase)].
    + simpl. split_last.
    + assert (Hr : round_replies lr t1).
      { eapply for_each_replies; [| exact Hl].
        intros x acc n r0 t0. apply solved_handle_replies. }
      destruct lr as [[allratings |] | e]; destruct Hcase as [-> ->]; simpl in *.
      * apply ends_in_reply_app; [exact Hr | split_last].
      * exact Hr.
      * exact Hr.
Qed.

(** X3. [rating] and [solved] reply exactly once when they return, and the
    reply (a message or the image) is the last thing they do; when they
    end in an exception, nothing has been sent. *)
Theorem rating_solved_reply_once (w : world) handles :
  replies_once (fst (run (rating w handles))) (snd (run (rating w handles))) /\
  replies_once (fst (run (solved w handles))) (snd (run (solved w handles))).
Proof.
  destruct (rating_solved_reply_once_run w handles) as [R S].
  split; [apply R | apply S]; apply surjective_pairing.
Qed.

(** ** The run of [gitgud], step by step *)


(** The reply part: the message for an empty set, or the request for the
    standings of the drawn entry and, if the name of the contest can be
    read, the embed. *)
Lemma recommend_inv w handle recs n r t :
  dict_wf recs ->
  recommend w handle recs n = (r, t) ->
  (recs = [] /\ r = Ret tt /\ t = [Send (too_gud handle)]) \/
  (recs <> [] /\
   exists name rating contestid index rc tq,
     nth_error (dict_keys recs) (randbelow w (List.length (dict_keys recs)))
     = Some (name, rating) /\
     In ((name, rating), (contestid, index)) recs /\
     dict_lookup (name, rating) recs = Some (contestid, index) /\
     query_api w "contest.standings"
       [("contestId", contestid); ("from", JNum 1); ("count", JNum 1)] n = (rc, tq) /\
     ((exists e, r = Raise e /\ t = tq /\
                 (rc = Raise e \/
                  exists contestjson,
                    rc = Ret contestjson /\
                    (let* c := getitem contestjson "result" in
                     let* c := getitem c "contest" in getitem c "name") = Raise e)) \/
      (exists contestjson contestname,
          rc = Ret contestjson /\
          (let* c := getitem contestjson "result" in
           let* c := getitem c "contest" in getitem c "name") = Ret contestname /\
          r = Ret tt /\
          t = tq ++ [SendEmbed ("Recommended problem for `" ++ handle ++ "`")%string
                       {| embed_index := index; embed_name := name;
                          embed_contestid := contestid; embed_contestname := contestname;
                          embed_rating := rating |}]))).
Proof.
  intros Hw Hrun.
  destruct recs as [| first rest].
  { left. inversion Hrun. auto. }
  right. split; [discriminate |].
  unfold recommend in Hrun.
  set (recs := first :: rest) in *.
  assert (Hlt : (randbelow w (List.length (dict_keys recs)) < List.length (dict_keys recs))%nat).
  { apply randbelow_lt. unfold recs. simpl. lia. }
  assert (Hnth : nth_error (dict_keys recs) (randbelow w (List.length (dict_keys recs)))
                 = Some (random_choice w (dict_keys recs) (fst first))).
  { unfold random_choice. apply nth_error_nth'. exact Hlt. }
  assert (Hin : In (random_choice w (dict_keys recs) (fst first)) (dict_keys recs)).
  { eapply nth_error_In. exact Hnth. }
  destruct (dict_lookup_key recs _ Hw Hin) as (Hk & [contestid index] & Hl & Hi).
  destruct (random_choice w (dict_keys recs) (fst first)) as [name rating].
  assert (Hget : dict_getitem (name, rating) recs = Ret (contestid, index)).
  { unfold dict_getitem. rewrite Hl. destruct (hash_key (name, rating)); congruence. }
  assert (Hn : (n + nqueries [])%nat = n) by apply Nat.add_0_r.
  destruct (query_api w "contest.standings"
              [("contestId", contestid); ("from", JNum 1); ("count", JNum 1)] n)
    as [rc tq] eqn:Hq.
  exists name, rating, contestid, index, rc, tq.
  repeat (split; [assumption |]).
  unfold bind, lift in Hrun. rewrite Hget, Hn, Hq in Hrun.
  destruct rc as [contestjson | e].
  - destruct (let* r := getitem contestjson "result" in
              let* c := getitem r "contest" in getitem c "name")
      as [contestname | e] eqn:Hc.
    + right. exists contestjson, contestname. inversion Hrun. auto.
    + left. exists e. simpl in Hrun. rewrite app_nil_r in Hrun. inversion Hrun.
      split; [reflexivity |]. split; [reflexivity |]. right. eauto.
  - left. exists e. inversion Hrun. auto.
Qed.

(** [gitgud] up to its reply: the three requests in their order, the set,
    the reply part. *)
Lemma gitgud_inv w handle r t :
  run (gitgud w handle) = (r, t) ->
  exists rp tp,
    query_api w "problemset.problems" [] 0%nat = (rp, tp) /\
    match rp with
    | Raise e => r = Raise e /\ t = tp
    | Ret probjson =>
        exists ri ti,
          query_api w "user.info" [("handles", JStr handle)] 1%nat = (ri, ti) /\
          match ri with
          | Raise e => r = Raise e /\ t = tp ++ ti
          | Ret infojson =>
              exists rs ts,
                query_api w "user.status" [("handle", JStr handle)] 2%nat = (rs, ts) /\
                match rs with
                | Raise e => r = Raise e /\ t = tp ++ ti ++ ts
                | Ret subsjson =>
                    match recommendations_of probjson infojson subsjson with
                    | Raise e => r = Raise e /\ t = tp ++ ti ++ ts
                    | Ret recs =>
                        exists t', recommend w handle recs 3%nat = (r, t') /\
                                   t = tp ++ ti ++ ts ++ t'
                    end
                end
          end
    end.
Proof.
  unfold run, gitgud. intros H.
  apply bind_inv in H.
  destruct H as [(probjson & tp & t2 & Hp & Hk & ->) | (e & Hp & ->)];
    [| exists (Raise e), t; auto].
  exists (Ret probjson), tp. split; [exact Hp |].
  destruct (query_api_trace _ _ _ _ _ _ Hp) as [Qp _]. rewrite Qp in Hk.
  apply bind_inv in Hk.
  destruct Hk as [(infojson & ti & t3 & Hi & Hk & ->) | (e & Hi & ->)];
    [| exists (Raise e), t2; auto].
  exists (Ret infojson), ti. split; [exact Hi |].
  destruct (query_api_trace _ _ _ _ _ _ Hi) as [Qi _]. rewrite Qi in Hk.
  apply bind_inv in Hk.
  destruct Hk as [(subsjson & ts & t4 & Hs & Hk & ->) | (e & Hs & ->)];
    [| exists (Raise e), t3; auto].
  exists (Ret subsjson), ts. split; [exact Hs |].
  destruct (query_api_trace _ _ _ _ _ _ Hs) as [Qs _]. rewrite Qs in Hk.
  apply bind_inv in Hk. unfold lift in Hk.
  destruct Hk as [(recs & t5 & t6 & Hr & Hk & ->) | (e & Hr & ->)].
  - inversion Hr; subst. rewrite H0. exists t6. auto.
  - inversion Hr; subst. rewrite H0. rewrite app_nil_r. auto.
Qed.

Lemma recommendations_of_wf probjson infojson subsjson recs :
  recommendations_of probjson infojson subsjson = Ret recs -> dict_wf recs.
Proof.
  intros H. destruct (recommendations_of_spec _ _ _ _ H) as (b & ps & ss & H').
  tauto.
Qed.

Lemma recommend_replies w handle recs n r t :
  dict_wf recs -> recommend w handle recs n = (r, t) -> replies_once r t.
Proof.
  intros Hw H. apply recommend_inv in H; [| exact Hw].
  destruct H as [(_ & -> & ->) | (_ & name & rating & cid & idx & rc & tq & _ & _ & _ & Hq & Hcase)].
  - simpl. split_last.
  - destruct (query_api_trace _ _ _ _ _ _ Hq) as [_ Sq].
    destruct Hcase as [(e & -> & -> & _) | (cj & cn & _ & _ & -> & ->)]; simpl.
    + exact Sq.
    + apply ends_in_reply_snoc; [exact Sq | reflexivity].
Qed.

Lemma gitgud_reply_once_run (w : world) handle r t :
  run (gitgud w handle) = (r, t) -> replies_once r t.
Proof.
  intros H. apply gitgud_inv in H.
  destruct H as (rp & tp & Hp & H).
  destruct (query_api_trace _ _ _ _ _ _ Hp) as [_ Sp].
  destruct rp as [probjson | e]; [| destruct H as [-> ->]; exact Sp].
  destruct H as (ri & ti & Hi & H).
  destruct (query_api_trace _ _ _ _ _ _ Hi) as [_ Si].
  destruct ri as [infojson | e];
    [| destruct H as [-> ->]; simpl; auto using silent_app].
  destruct H as (rs & ts & Hs & H).
  destruct (query_api_trace _ _ _ _ _ _ Hs) as [_ Ss].
  destruct rs as [subsjson | e];
    [| destruct H as [-> ->]; simpl; auto using silent_app].
  destruct (recommendations_of probjson infojson subsjson) as [recs | e] eqn:Hrecs;
    [| destruct H as [-> ->]; simpl; auto using silent_app].
  destruct H as (t' & Hr & ->).
  apply recommend_replies in Hr; [| eapply recommendations_of_wf; eassumption].
  destruct r as [u | e]; simpl in *.
  - repeat (apply ends_in_reply_app; [assumption |]). exact Hr.
  - auto using silent_app.
Qed.

(** X4. [gitgud] replies exactly once when it returns (the message that the
    handle is already too gud, or the embed), as the last thing it does;
    when it ends in an exception, nothing has been sent. *)
Theorem gitgud_reply_once (w : world) handle :
  replies_once (fst (run (gitgud w handle))) (snd (run (gitgud w handle))).
Proof. apply (gitgud_reply_once_run w handle). apply surjective_pairing. Qed.



(** ** The requests and the messages of [rating] and [solved] *)

Lemma rating_handle_requests w h rate n r t :
  rating_handle w h rate n = (r, t) ->
  filter is_query t = [handle_query "user.rating" h].
Proof. unfold rating_handle. intros H. run_cases H; reflexivity. Qed.

Lemma solved_handle_requests w h acc n r t :
  solved_handle w h acc n = (r, t) ->
  filter is_query t = [handle_query "user.status" h].
Proof. unfold solved_handle. intros H. run_cases H; reflexivity. Qed.

(** A loop whose rounds issue one request each has asked for a prefix of
    its handles, in their order, and for all of them if it went through. *)
Lemma for_each_requests {B} (body : string -> B -> M (loop_step B)) path :
  (forall h acc n r t, body h acc n = (r, t) ->
                       filter is_query t = [handle_query path h]) ->
  forall hs acc n r t,
    for_each body hs acc n = (r, t) ->
    exists k, (k <= List.length hs)%nat /\
              filter is_query t = map (handle_query path) (firstn k hs) /\
              (forall a, r = Ret (Continue a) -> k = List.length hs) /\
              (hs <> [] -> (1 <= k)%nat).
Proof.
  intros Hbody hs. induction hs as [| h hs IH]; intros acc n r t H.
  - simpl in H. unfold ret in H. inversion H; subst.
    exists 0%nat. simpl. repeat split; auto. congruence.
  - apply for_each_inv in H.
    destruct H as [(acc' & t1 & t2 & Hb & Hl & ->) | [[Hb ->] | (e & Hb & ->)]].
    + apply Hbody in Hb. apply IH in Hl. destruct Hl as (k & Hk & Hf & Hc & _).
      exists (S k). simpl. rewrite filter_app, Hb, Hf.
      repeat split; [lia | | lia].
      intros a Ha. rewrite (Hc a Ha). reflexivity.
    + apply Hbody in Hb. exists 1%nat. simpl. rewrite Hb.
      repeat split; [lia | discriminate | lia].
    + apply Hbody in Hb. exists 1%nat. simpl. rewrite Hb.
      repeat split; [lia | discriminate | lia].
Qed.

Lemma rating_solved_requests_run (w : world) handles :
  (forall r t, run (rating w handles) = (r, t) ->
     exists k, (k <= List.length handles)%nat /\
       filter is_query t = map (handle_query "user.rating") (firstn k handles) /\
       (In SendFile t -> k = List.length handles) /\
       (bad_handle_count handles = false -> (1 <= k)%nat) /\
       (bad_handle_count handles = true -> k = 0%nat)) /\
  (forall r t, run (solved w handles) = (r, t) ->
     exists k, (k <= List.length handles)%nat /\
       filter is_query t = map (handle_query "user.status") (firstn k handles) /\
       (In SendFile t -> k = List.length handles) /\
       (bad_handle_count handles = false -> (1 <= k)%nat) /\
       (bad_handle_count handles = true -> k = 0%nat)).
Proof.
  split; intros r t H.
  - apply rating_inv in H.
    destruct H as [(Hb & -> & ->) | (Hb & lr & t1 & Hl & Hcase)].
    + exists 0%nat. simpl. repeat split; try lia.
      * intros [E | []]. discriminate.
      * congruence.
    + assert (Hev : Forall (fun e => loop_event e = true) t1).
      { eapply for_each_Forall; [| exact Hl].
        intros x acc n r0 t0. apply rating_handle_events. }
      apply loop_events_no_file in Hev.
      apply (for_each_requests _ "user.rating") in Hl;
        [| intros h acc n r0 t0; apply rating_handle_requests].
      destruct Hl as (k & Hk & Hf & Hc & Hne).
      assert (H1 : (1 <= k)%nat).
      { apply Hne. intros ->. discriminate. }
      exists k.
      destruct lr as [[rate |] | e]; destruct Hcase as [-> ->].
      * split; [exact Hk |]. split.
        { simpl. rewrite filter_app, Hf. apply app_nil_r. }
        split; [intros _; apply (Hc rate); reflexivity |].
        split; [auto | congruence].
      * split; [exact Hk |]. split; [exact Hf |].
        split; [intros [E | E]; [discriminate | contradiction] |].
        split; [auto | congruence].
      * split; [exact Hk |]. split; [exact Hf |].
        split; [intros [E | E]; [discriminate | contradiction] |].
        split; [auto | congruence].
  - apply solved_inv in H.
    destruct H as [(Hb & -> & ->) | (Hb & lr & t1 & Hl & Hcase)].
    + exists 0%nat. simpl. repeat split; try lia.
      * intros [E | []]. discriminate.
      * congruence.
    + assert (Hev : Forall (fun e => loop_event e = true) t1).
      { eapply for_each_Forall; [| exact Hl].
        intros x acc n r0 t0. apply solved_handle_events. }
      apply loop_events_no_file in Hev.
      apply (for_each_requests _ "user.status") in Hl;
        [| intros h acc n r0 t0; apply solved_handle_requests].
      destruct Hl as (k & Hk & Hf & Hc & Hne).
      assert (H1 : (1 <= k)%nat).
      { apply Hne. intros ->. discriminate. }
      exists k.
      destruct lr as [[allratings |] | e]; destruct Hcase as [-> ->].
      * split; [exact Hk |]. split.
        { rewrite filter_app, Hf. apply app_nil_r. }
        split; [intros _; apply (Hc allratings); reflexivity |].
        split; [auto | congruence].
      * split; [exact Hk |]. split; [exact Hf |].
        split; [intros E; contradiction |].
        split; [auto | congruence].
      * split; [exact Hk |]. split; [exact Hf |].
        split; [intros E; contradiction |].
        split; [auto | congruence].
Qed.

(** X6. [rating] and [solved] ask for their handles one after the other,
    in the order given, one request per handle: the requests of a run are
    those for a prefix of the handles.  A run that sends
    the image has asked for every handle, a run with one to five handles
    has asked for the first one at least, and a run with a wrong number of
    handles has asked for none. *)
Theorem rating_solved_requests (w : world) handles :
  (let t := snd (run (rating w handles)) in
   exists k, (k <= List.length handles)%nat /\
     filter is_query t = map (handle_query "user.rating") (firstn k handles) /\
     (In SendFile t -> k = List.length handles) /\
     (bad_handle_count handles = false -> (1 <= k)%nat) /\
     (bad_handle_count handles = true -> k = 0%nat)) /\
  (let t := snd (run (solved w handles)) in
   exists k, (k <= List.length handles)%nat /\
     filter is_query t = map (handle_query "user.status") (firstn k handles) /\
     (In SendFile t -> k = List.length handles) /\
     (bad_handle_count handles = false -> (1 <= k)%nat) /\
     (bad_handle_count handles = true -> k = 0%nat)).
Proof.
  destruct (rating_solved_requests_run w handles) as [R S].
  split; intros t; [eapply R | eapply S]; apply surjective_pairing.
Qed.

Lemma rating_handle_sends w h rate n r t msg :
  rating_handle w h rate n = (r, t) -> In (Send msg) t ->
  msg = connect_error \/ msg = denied_error \/ msg = handle_not_found h.
Proof.
  unfold rating_handle. intros H Hin. run_cases H; simpl in Hin;
    repeat (destruct Hin as [Hin | Hin]; [try discriminate; inversion Hin; auto |]);
    contradiction.
Qed.

Lemma solved_handle_sends w h acc n r t msg :
  solved_handle w h acc n = (r, t) -> In (Send msg) t ->
  msg = connect_error \/ msg = denied_error \/ msg = handle_not_found h.
Proof.
  unfold solved_handle. intros H Hin. run_cases H; simpl in Hin;
    repeat (destruct Hin as [Hin | Hin]; [try discriminate; inversion Hin; auto |]);
    contradiction.
Qed.

Lemma for_each_sends {B} (body : string -> B -> M (loop_step B)) (Q : string -> string -> Prop) :
  (forall h acc n r t msg, body h acc n = (r, t) -> In (Send msg) t -> Q h msg) ->
  forall hs acc n r t msg,
    for_each body hs acc n = (r, t) -> In (Send msg) t ->
    exists h, In h hs /\ Q h msg.
Proof.
  intros Hbody hs. induction hs as [| h hs IH]; intros acc n r t msg H Hin.
  - simpl in H. unfold ret in H. inversion H; subst. contradiction.
  - apply for_each_inv in H.
    destruct H as [(acc' & t1 & t2 & Hb & Hl & ->) | [[Hb _] | (e & Hb & _)]].
    + apply in_app_or in Hin. destruct Hin as [Hin | Hin].
      * exists h. split; [left; reflexivity | eapply Hbody; eauto].
      * destruct (IH _ _ _ _ _ Hl Hin) as (h' & Hh & HQ).
        exists h'. split; [right; exact Hh | exact HQ].
    + exists h. split; [left; reflexivity | eapply Hbody; eauto].
    + exists h. split; [left; reflexivity | eapply Hbody; eauto].
Qed.

Lemma handle_messages_differ h msg :
  msg = connect_error \/ msg = denied_error \/ msg = handle_not_found h ->
  msg <> handle_count_error.
Proof.
  intros [-> | [-> | ->]]; discriminate.
Qed.

Lemma rating_solved_messages_run (w : world) handles :
  (forall r t msg, run (rating w handles) = (r, t) -> In (Send msg) t ->
     (bad_handle_count handles = true /\ msg = handle_count_error /\ t = [Send msg]) \/
     (bad_handle_count handles = false /\ msg <> handle_count_error /\
      exists h, In h handles /\
        (msg = connect_error \/ msg = denied_error \/ msg = handle_not_found h))) /\
  (forall r t msg, run (solved w handles) = (r, t) -> In (Send msg) t ->
     (bad_handle_count handles = true /\ msg = handle_count_error /\ t = [Send msg]) \/
     (bad_handle_count handles = false /\ msg <> handle_count_error /\
      exists h, In h handles /\
        (msg = connect_error \/ msg = denied_error \/ msg = handle_not_found h))).
Proof.
  split; intros r t msg H Hin.
  - apply rating_inv in H.
    destruct H as [(Hb & -> & ->) | (Hb & lr & t1 & Hl & Hcase)].
    + left. destruct Hin as [E | []]. inversion E; subst. auto.
    + right. split; [exact Hb |].
      assert (Hin1 : In (Send msg) t1).
      { destruct lr as [[rate |] | e]; destruct Hcase as [_ ->];
          destruct Hin as [E | Hin]; try discriminate; try exact Hin.
        apply in_app_or in Hin. destruct Hin as [Hin | Hin]; [exact Hin |].
        simpl in Hin.
        repeat (destruct Hin as [Hin | Hin]; [discriminate |]). contradiction. }
      destruct (for_each_sends _ _ (rating_handle_sends w) _ _ _ _ _ _ Hl Hin1)
        as (h & Hh & HQ).
      split; [eapply handle_messages_differ; exact HQ | eauto].
  - apply solved_inv in H.
    destruct H as [(Hb & -> & ->) | (Hb & lr & t1 & Hl & Hcase)].
    + left. destruct Hin as [E | []]. inversion E; subst. auto.
    + right. split; [exact Hb |].
      assert (Hin1 : In (Send msg) t1).
      { destruct lr as [[allratings |] | e]; destruct Hcase as [_ ->]; try exact Hin.
        apply in_app_or in Hin. destruct Hin as [Hin | Hin]; [exact Hin |].
        simpl in Hin.
        repeat (destruct Hin as [Hin | Hin]; [discriminate |]). contradiction. }
      destruct (for_each_sends _ _ (solved_handle_sends w) _ _ _ _ _ _ Hl Hin1)
        as (h & Hh & HQ).
      split; [eapply handle_messages_differ; exact HQ | eauto].
Qed.

(** X7. The text messages of [rating] and [solved]: with a wrong number
    of handles the message about the number of handles is the whole
    reply; with one to five handles every message sent is the connection
    message, the denial message or the "not found" message for one of the
    handles given, and the message about the number is never sent. *)
Theorem rating_solved_messages (w : world) handles msg :
  (In (Send msg) (snd (run (rating w handles))) ->
     (bad_handle_count handles = true /\ msg = handle_count_error /\
      snd (run (rating w handles)) = [Send msg]) \/
     (bad_handle_count handles = false /\ msg <> handle_count_error /\
      exists h, In h handles /\
        (msg = connect_error \/ msg = denied_error \/ msg = handle_not_found h))) /\
  (In (Send msg) (snd (run (solved w handles))) ->
     (bad_handle_count handles = true /\ msg = handle_count_error /\
      snd (run (solved w handles)) = [Send msg]) \/
     (bad_handle_count handles = false /\ msg <> handle_count_error /\
      exists h, In h handles /\
        (msg = connect_error \/ msg = denied_error \/ msg = handle_not_found h))).
Proof.
  destruct (rating_solved_messages_run w handles) as [R S].
  split; intros Hin; [eapply R | eapply S]; eauto using surjective_pairing.
Qed.

Lemma rating_solved_messages_witness :
  let w := second_fails (api_failed "handles: User with handle b not found") in
  let msg := "Handle not found: `b`" in
  In (Send msg) (snd (run (rating w ["a"; "b"; "c"]))) /\
  msg <> handle_count_error /\
  exists h, In h ["a"; "b"; "c"] /\
            (msg = connect_error \/ msg = denied_error \/ msg = handle_not_found h).
Proof.
  intros w msg.
  assert (Hin : In (Send msg) (snd (run (rating w ["a"; "b"; "c"]))))
    by (vm_compute; tauto).
  split; [exact Hin |].
  destruct (proj1 (rating_solved_messages w ["a"; "b"; "c"] msg) Hin)
    as [(Hb & _) | (_ & Hne & Hh)]; [discriminate | auto].
Defined.


(** ** Answers [gitgud], [rating] and [solved] cannot read *)

Lemma gitgud_run_raise w handle probjson infojson subsjson tp ti ts e :
  query_api w "problemset.problems" [] 0%nat = (Ret probjson, tp) ->
  query_api w "user.info" [("handles", JStr handle)] 1%nat = (Ret infojson, ti) ->
  query_api w "user.status" [("handle", JStr handle)] 2%nat = (Ret subsjson, ts) ->
  recommendations_of probjson infojson subsjson = Raise e ->
  run (gitgud w handle) = (Raise e, tp ++ ti ++ ts) /\ silent (tp ++ ti ++ ts).
Proof.
  intros Hp Hi Hs He.
  destruct (query_api_trace _ _ _ _ _ _ Hp) as [Qp Sp].
  destruct (query_api_trace _ _ _ _ _ _ Hi) as [Qi Si].
  destruct (query_api_trace _ _ _ _ _ _ Hs) as [Qs Ss].
  split; [| auto using silent_app].
  unfold run, gitgud.
  eapply bind_ret_eq; [exact Hp |]. rewrite Qp.
  eapply bind_ret_eq; [exact Hi |]. rewrite Qi.
  rewrite <- (app_nil_r ts).
  eapply bind_ret_eq; [exact Hs |].
  apply bind_raise_eq. unfold lift. rewrite He. reflexivity.
Qed.

(** X8. [gitgud] does not look at the status of its answers: when the
    answer of user.info is an object without "result" (as the answer with
    status FAILED for an unknown handle is), the command ends in a
    [KeyError] after its three requests, whatever the other two answers
    are, and sends nothing. *)
Theorem gitgud_unknown_handle (w : world) handle probjson o subsjson tp ti ts :
  query_api w "problemset.problems" [] 0%nat = (Ret probjson, tp) ->
  query_api w "user.info" [("handles", JStr handle)] 1%nat = (Ret (JObj o), ti) ->
  query_api w "user.status" [("handle", JStr handle)] 2%nat = (Ret subsjson, ts) ->
  assoc "result" o = None ->
  run (gitgud w handle) = (Raise KeyError, tp ++ ti ++ ts) /\
  silent (tp ++ ti ++ ts) /\
  nqueries (tp ++ ti ++ ts) = 3%nat.
Proof.
  intros Hp Hi Hs Ho.
  assert (He : recommendations_of probjson (JObj o) subsjson = Raise KeyError).
  { unfold recommendations_of, user_bucket, getitem. rewrite Ho. reflexivity. }
  destruct (gitgud_run_raise _ _ _ _ _ _ _ _ _ Hp Hi Hs He) as [Hrun Hsil].
  split; [exact Hrun |]. split; [exact Hsil |].
  destruct (query_api_trace _ _ _ _ _ _ Hp) as [Qp _].
  destruct (query_api_trace _ _ _ _ _ _ Hi) as [Qi _].
  destruct (query_api_trace _ _ _ _ _ _ Hs) as [Qs _].
  rewrite !nqueries_app, Qp, Qi, Qs. reflexivity.
Qed.

Lemma gitgud_unknown_handle_witness :
  let w := world_of (sample_http (api_failed "handles: User with handle nobody not found")) 0 in
  run (gitgud w "nobody")
  = (Raise KeyError,
     [Query "problemset.problems" [];
      Query "user.info" [("handles", JStr "nobody")];
      Query "user.status" [("handle", JStr "nobody")]]).
Proof.
  intros w.
  exact (proj1 (gitgud_unknown_handle w "nobody"
                  (JObj [("status", JStr "OK"); ("result", sample_problems)])
                  [("status", JStr "FAILED");
                   ("comment", JStr "handles: User with handle nobody not found")]
                  (JObj [("status", JStr "OK"); ("result", sample_submissions)])
                  [Query "problemset.problems" []]
                  [Query "user.info" [("handles", JStr "nobody")]]
                  [Query "user.status" [("handle", JStr "nobody")]]
                  eq_refl eq_refl eq_refl eq_refl)).
Defined.

Lemma foldM_app {A B} (f : A -> B -> result B) xs ys acc :
  foldM f (xs ++ ys) acc = let* acc' := foldM f xs acc in foldM f ys acc'.
Proof.
  revert acc. induction xs as [| x xs IH]; intros acc; simpl; [reflexivity |].
  destruct (f x acc) as [acc1 | e]; simpl; [apply IH | reflexivity].
Qed.

(** A loop stops at the first round that raises. *)
Lemma foldM_raises_at {A B} (f : A -> B -> result B) (P : A -> Prop) xs x ys e :
  (forall y acc, P y -> exists acc', f y acc = Ret acc') ->
  (forall acc, f x acc = Raise e) ->
  Forall P xs ->
  forall acc, foldM f (xs ++ x :: ys) acc = Raise e.
Proof.
  intros Hf Hx HP acc. rewrite foldM_app.
  destruct (foldM_returns f P xs Hf HP acc) as [acc' ->].
  simpl. rewrite Hx. reflexivity.
Qed.

Lemma add_solved_no_verdict o s :
  assoc "verdict" o = None -> add_solved (JObj o) s = Raise KeyError.
Proof. intros H. unfold add_solved, getitem. rewrite H. reflexivity. Qed.

Lemma remove_solved_no_verdict o problem d :
  assoc "problem" o = Some problem -> assoc "verdict" o = None ->
  remove_solved (JObj o) d = Raise KeyError.
Proof. intros Hp H. unfold remove_solved, getitem. rewrite Hp, H. reflexivity. Qed.

(** X9. [solved] reads the verdict of every submission: when the handles
    before [h] went through and the answer for [h] lists, after
    submissions of the usual shape, one without "verdict" (as the API
    sends for a submission still in the queue), the command ends in a
    [KeyError] and sends nothing. *)
Theorem solved_missing_verdict (w : world) pre h post o before sub after acc t1 :
  (List.length (pre ++ h :: post) <= 5)%nat ->
  for_each (solved_handle w) pre [] 0%nat = (Ret (Continue acc), t1) ->
  http_get w (List.length pre) "user.status" [("handle", JStr h)] = HttpJson (JObj o) ->
  assoc "status" o = Some (JStr "OK") ->
  assoc "result" o = Some (JArr (before ++ JObj sub :: after)) ->
  Forall submission_ok before ->
  assoc "verdict" sub = None ->
  let t := t1 ++ [handle_query "user.status" h] in
  run (solved w (pre ++ h :: post)) = (Raise KeyError, t) /\ silent t.
Proof.
  intros Hlen Hpre Hh Hs Hr Hok Hv t. subst t.
  assert (Hf : foldM add_solved (before ++ JObj sub :: after) [] = Raise KeyError).
  { apply (foldM_raises_at add_solved submission_ok).
    - intros y a Hy. apply add_solved_returns. exact Hy.
    - intros a. apply add_solved_no_verdict. exact Hv.
    - exact Hok. }
  assert (Hb : solved_handle w h acc (List.length pre)
               = (Raise KeyError, [handle_query "user.status" h])).
  { unfold solved_handle, bind, lift, query_api. rewrite Hh. simpl.
    rewrite Hs. simpl. rewrite Hr. simpl. rewrite Hf. reflexivity. }
  split.
  - eapply solved_raises_at; eassumption.
  - destruct (solved_prefix_silent w _ _ _ _ _ Hpre) as [S1 _].
    apply silent_app; [exact S1 | unfold silent; repeat constructor].
Qed.

Lemma solved_missing_verdict_witness :
  let answer := [("status", JStr "OK");
                 ("result", JArr [submission "Watermelon" (JNum 800) "OK";
                                  JObj [("problem", JObj [("name", JStr "Queue")])]])] in
  let w := second_fails (HttpJson (JObj answer)) in
  run (solved w ["a"; "b"])
  = (Raise KeyError, [Query "user.status" [("handle", JStr "a")];
                      Query "user.status" [("handle", JStr "b")]]).
Proof.
  intros answer w.
  refine (proj1 (solved_missing_verdict w ["a"] "b" [] answer
                   [submission "Watermelon" (JNum 800) "OK"]
                   [("problem", JObj [("name", JStr "Queue")])] []
                   [[JNum 800]] [Query "user.status" [("handle", JStr "a")]]
                   _ eq_refl eq_refl eq_refl eq_refl _ eq_refl)).
  - simpl. lia.
  - constructor; [| constructor].
    exists [("problem", JObj [("contestId", JNum 1); ("index", JStr "A");
                              ("name", JStr "Watermelon"); ("rating", JNum 800)]);
            ("verdict", JStr "OK")],
           [("contestId", JNum 1); ("index", JStr "A");
            ("name", JStr "Watermelon"); ("rating", JNum 800)],
           (JStr "OK"), "Watermelon".
    repeat split. right. exists 800. reflexivity.
Defined.

(** [recommendations_of], by its four steps. *)
Lemma recommendations_of_steps probjson infojson subsjson :
  recommendations_of probjson infojson subsjson
  = let* bucket := user_bucket infojson in
    let* problems := problems_of probjson in
    let* mid := foldM (add_candidate bucket) problems [] in
    let* subs := submissions_of subsjson in
    foldM remove_solved subs mid.
Proof.
  unfold recommendations_of, problems_of, submissions_of, rbind.
  destruct (user_bucket infojson); [| reflexivity].
  destruct (getitem probjson "result") as [pr |]; [| reflexivity].
  destruct (getitem pr "problems") as [ps |]; [| reflexivity].
  destruct (py_iter ps); [| reflexivity].
  destruct (foldM (add_candidate a) a0 []); [| reflexivity].
  destruct (getitem subsjson "result") as [sr |]; [| reflexivity].
  destruct (py_iter sr); reflexivity.
Qed.

Lemma user_bucket_returns infojson :
  info_answer_ok infojson -> exists b, user_bucket infojson = Ret b.
Proof.
  intros (oi & uo & users & -> & Hri & Hu).
  unfold user_bucket, getitem, rbind. rewrite Hri. cbv beta iota.
  unfold getitem_int, list_index, get_method. cbn.
  destruct Hu as [Hu | [n Hu]]; rewrite Hu; cbn; eauto.
Qed.

Lemma problems_of_returns probjson :
  problems_answer_ok probjson ->
  exists ps, problems_of probjson = Ret ps /\ Forall problem_ok ps.
Proof.
  intros (o & ro & ps & -> & Hr & Hps & Hall).
  exists ps. split; [| exact Hall].
  unfold problems_of, getitem, rbind. rewrite Hr. cbv beta iota. rewrite Hps. reflexivity.
Qed.

Lemma candidates_return bucket ps d :
  Forall problem_ok ps -> exists mid, foldM (add_candidate bucket) ps d = Ret mid.
Proof.
  intros H.
  apply (foldM_returns (add_candidate bucket) problem_ok ps
           (fun x acc Hx => add_candidate_returns bucket x acc Hx) H).
Qed.

(** X10. [gitgud] reads the verdict of every submission: with answers of
    problemset.problems and user.info of the usual shape, when the answer
    of user.status lists, after submissions of the usual shape, one with a
    problem and without "verdict", the command ends in a [KeyError] after
    its three requests and sends nothing. *)
Theorem gitgud_missing_verdict (w : world) handle probjson infojson o tp ti ts
    before sub problem after :
  query_api w "problemset.problems" [] 0%nat = (Ret probjson, tp) ->
  query_api w "user.info" [("handles", JStr handle)] 1%nat = (Ret infojson, ti) ->
  query_api w "user.status" [("handle", JStr handle)] 2%nat = (Ret (JObj o), ts) ->
  problems_answer_ok probjson ->
  info_answer_ok infojson ->
  assoc "result" o = Some (JArr (before ++ JObj sub :: after)) ->
  Forall submission_ok before ->
  assoc "problem" sub = Some problem ->
  assoc "verdict" sub = None ->
  run (gitgud w handle) = (Raise KeyError, tp ++ ti ++ ts) /\
  silent (tp ++ ti ++ ts).
Proof.
  intros Hp Hi Hs Hpok Hiok Hr Hok Hpr Hv.
  apply (gitgud_run_raise _ _ _ _ _ _ _ _ _ Hp Hi Hs).
  rewrite recommendations_of_steps.
  destruct (user_bucket_returns _ Hiok) as [b ->].
  destruct (problems_of_returns _ Hpok) as (ps & -> & Hall). cbn [rbind].
  destruct (candidates_return b ps [] Hall) as [mid ->]. cbn [rbind].
  unfold submissions_of, getitem. rewrite Hr. cbn [rbind py_iter].
  apply (foldM_raises_at remove_solved submission_ok).
  - intros y a Hy. apply remove_solved_returns. exact Hy.
  - intros a. eapply remove_solved_no_verdict; eassumption.
  - exact Hok.
Qed.

Ltac shape_ok :=
  repeat match goal with
         | |- Forall _ [] => constructor
         | |- Forall _ (_ :: _) => constructor
         | |- problem_ok _ =>
             do 4 eexists; repeat (split; [reflexivity |]);
             first [left; reflexivity | right; eexists; reflexivity]
         | |- submission_ok _ =>
             do 4 eexists; repeat (split; [reflexivity |]);
             first [left; reflexivity | right; eexists; reflexivity]
         end.

Lemma sample_problems_ok :
  problems_answer_ok (JObj [("status", JStr "OK"); ("result", sample_problems)]).
Proof.
  do 3 eexists. split; [reflexivity |]. split; [reflexivity |].
  split; [reflexivity |]. shape_ok.
Qed.

Lemma sample_info_ok :
  info_answer_ok (JObj [("status", JStr "OK"); ("result", sample_info)]).
Proof.
  do 3 eexists. split; [reflexivity |]. split; [reflexivity |].
  right. eexists. reflexivity.
Qed.

Lemma sample_submissions_ok :
  Forall submission_ok
    [submission "Watermelon" (JNum 1500) "OK";
     submission "Boring" (JNum 1500) "WRONG_ANSWER";
     submission "Watermelon" (JNum 1500) "OK";
     submission "Gym" (JNum 0) "OK";
     submission "Far" (JNum 1600) "OK"].
Proof. shape_ok. Qed.

Lemma gitgud_missing_verdict_witness :
  let status := api_ok (JArr [submission "Watermelon" (JNum 1500) "OK";
                              queued_submission "Queue";
                              submission "Far" (JNum 1600) "OK"]) in
  let w := world_of (sample_http_with (api_ok sample_info) status HttpOtherError) 0 in
  run (gitgud w "tourist")
  = (Raise KeyError,
     [Query "problemset.problems" [];
      Query "user.info" [("handles", JStr "tourist")];
      Query "user.status" [("handle", JStr "tourist")]]).
Proof.
  intros status w.
  refine (proj1 (gitgud_missing_verdict w "tourist"
                   (JObj [("status", JStr "OK"); ("result", sample_problems)])
                   (JObj [("status", JStr "OK"); ("result", sample_info)])
                   [("status", JStr "OK");
                    ("result", JArr [submission "Watermelon" (JNum 1500) "OK";
                                     queued_submission "Queue";
                                     submission "Far" (JNum 1600) "OK"])]
                   [Query "problemset.problems" []]
                   [Query "user.info" [("handles", JStr "tourist")]]
                   [Query "user.status" [("handle", JStr "tourist")]]
                   [submission "Watermelon" (JNum 1500) "OK"]
                   [("problem", JObj [("contestId", JNum 1); ("index", JStr "A");
                                      ("name", JStr "Queue")])]
                   (JObj [("contestId", JNum 1); ("index", JStr "A"); ("name", JStr "Queue")])
                   [submission "Far" (JNum 1600) "OK"]
                   eq_refl eq_refl eq_refl sample_problems_ok sample_info_ok
                   eq_refl _ eq_refl eq_refl)).
  shape_ok.
Defined.

(** *** Answers without status or comment *)

Lemma rating_handle_unreadable w h rate n o :
  http_get w n "user.rating" [("handle", JStr h)] = HttpJson (JObj o) ->
  assoc "status" o = None \/
  (assoc "status" o = Some (JStr "FAILED") /\ assoc "comment" o = None) ->
  rating_handle w h rate n = (Raise KeyError, [handle_query "user.rating" h]).
Proof.
  intros Hh Ho.
  unfold rating_handle, bind, lift, query_api. rewrite Hh. simpl.
  destruct Ho as [Hs | [Hs Hc]]; rewrite Hs; simpl; [reflexivity |].
  rewrite Hc. reflexivity.
Qed.

Lemma solved_handle_unreadable w h acc n o :
  http_get w n "user.status" [("handle", JStr h)] = HttpJson (JObj o) ->
  assoc "status" o = None \/
  (assoc "status" o = Some (JStr "FAILED") /\ assoc "comment" o = None) ->
  solved_handle w h acc n = (Raise KeyError, [handle_query "user.status" h]).
Proof.
  intros Hh Ho.
  unfold solved_handle, bind, lift, query_api. rewrite Hh. simpl.
  destruct Ho as [Hs | [Hs Hc]]; rewrite Hs; simpl; [reflexivity |].
  rewrite Hc. reflexivity.
Qed.

(** X11. In [rating] and in [solved], when the handles before [h] went
    through and the answer for [h] is an object without "status", or one
    with status FAILED and without "comment", the command ends in a
    [KeyError] right after the request for [h] and sends nothing. *)
Theorem unreadable_answer_raises (w : world) pre h post o :
  (List.length (pre ++ h :: post) <= 5)%nat ->
  assoc "status" o = None \/
  (assoc "status" o = Some (JStr "FAILED") /\ assoc "comment" o = None) ->
  (forall rate t1,
      for_each (rating_handle w) pre [] 0%nat = (Ret (Continue rate), t1) ->
      http_get w (List.length pre) "user.rating" [("handle", JStr h)] = HttpJson (JObj o) ->
      let t := PltClf :: t1 ++ [handle_query "user.rating" h] in
      run (rating w (pre ++ h :: post)) = (Raise KeyError, t) /\ silent t) /\
  (forall acc t1,
      for_each (solved_handle w) pre [] 0%nat = (Ret (Continue acc), t1) ->
      http_get w (List.length pre) "user.status" [("handle", JStr h)] = HttpJson (JObj o) ->
      let t := t1 ++ [handle_query "user.status" h] in
      run (solved w (pre ++ h :: post)) = (Raise KeyError, t) /\ silent t).
Proof.
  intros Hlen Ho. split.
  - intros rate t1 Hpre Hh t. subst t.
    destruct (rating_prefix_silent w _ _ _ Hpre) as [S1 _]. split.
    + eapply rating_raises_at; [eassumption .. |].
      apply rating_handle_unreadable with (o := o); assumption.
    + apply silent_cons; [reflexivity |].
      apply silent_app; [exact S1 | unfold silent; repeat constructor].
  - intros acc t1 Hpre Hh t. subst t.
    destruct (solved_prefix_silent w _ _ _ _ _ Hpre) as [S1 _]. split.
    + eapply solved_raises_at; [eassumption .. |].
      apply solved_handle_unreadable with (o := o); assumption.
    + apply silent_app; [exact S1 | unfold silent; repeat constructor].
Qed.

Lemma unreadable_answer_raises_witness :
  let w := second_fails (HttpJson (JObj [("status", JStr "FAILED")])) in
  run (rating w ["a"; "b"; "c"])
  = (Raise KeyError,
     [PltClf; Query "user.rating" [("handle", JStr "a")];
      PltPlot [100; 200] [JNum 1500; JNum 1540];
      Query "user.rating" [("handle", JStr "b")]]) /\
  run (solved w ["a"; "b"; "c"])
  = (Raise KeyError,
     [Query "user.status" [("handle", JStr "a")];
      Query "user.status" [("handle", JStr "b")]]).
Proof.
  intros w.
  destruct (unreadable_answer_raises w ["a"] "b" ["c"] [("status", JStr "FAILED")])
    as [R S]; [simpl; lia | right; split; reflexivity |].
  split.
  - exact (proj1 (R [JNum 1540]
                    [Query "user.rating" [("handle", JStr "a")];
                     PltPlot [100; 200] [JNum 1500; JNum 1540]]
                    eq_refl eq_refl)).
  - exact (proj1 (S [[JNum 800]] [Query "user.status" [("handle", JStr "a")]]
                    eq_refl eq_refl)).
Defined.

(** ** [solved] and [rating] on answers of the usual shape *)





Lemma rating_points_inv w cs : forall rs ts rs' ts',
  foldM (rating_point w) cs (rs, ts) = Ret (rs', ts') ->
  exists points,
    rs' = rs ++ map fst points /\ ts' = ts ++ map snd points /\
    Forall2 (contest_point w) cs points.
Proof.
  induction cs as [| c cs IH]; intros rs ts rs' ts' H.
  - simpl in H. inversion H; subst. exists []. simpl. rewrite !app_nil_r. auto.
  - simpl in H. unfold rating_point at 1 in H. unfold rbind at 1 in H.
    destruct (getitem c "newRating") as [r |] eqn:Er; [| discriminate].
    unfold rbind at 1 in H.
    destruct (getitem c "ratingUpdateTimeSeconds") as [v |] eqn:Ev; [| discriminate].
    unfold rbind at 1 in H.
    destruct (fromtimestamp w v) as [tm |] eqn:Et; [| discriminate].
    simpl in H. apply IH in H. destruct H as (points & -> & -> & HF).
    exists ((r, tm) :: points). simpl. rewrite <- !app_assoc. simpl.
    split; [reflexivity |]. split; [reflexivity |].
    constructor; [| exact HF].
    split; [exact Er |]. exists v. auto.
Qed.

Lemma list_index_last {A} (front : list A) x : list_index (front ++ [x]) (-1) = Ret x.
Proof.
  unfold list_index. change (-1 <? 0) with true. cbv iota.
  rewrite length_app. simpl List.length.
  replace (Z.to_nat (-1 + Z.of_nat (List.length front + 1))) with (List.length front) by lia.
  rewrite nth_error_app2 by lia. rewrite Nat.sub_diag. simpl nth_error.
  replace ((0 <=? -1 + Z.of_nat (List.length front + 1)) &&
           (-1 + Z.of_nat (List.length front + 1) <? Z.of_nat (List.length front + 1)))
    with true; [reflexivity |].
  symmetry. apply andb_true_iff. split; [apply Z.leb_le | apply Z.ltb_lt]; lia.
Qed.

Lemma list_index_last_inv {A} (l : list A) x :
  list_index l (-1) = Ret x -> exists front, l = front ++ [x].
Proof.
  intros H.
  destruct l as [| a l]; [discriminate |].
  destruct (exists_last (l := a :: l)) as (front & y & E); [discriminate |].
  rewrite E in *. rewrite list_index_last in H. inversion H; subst. eauto.
Qed.

Lemma rating_handle_continue_inv w h rate n rate' t :
  rating_handle w h rate n = (Ret (Continue rate'), t) ->
  exists contests front last,
    rating_round w n h contests (front ++ [last]) /\
    rate' = rate ++ [fst last] /\
    t = [handle_query "user.rating" h;
         PltPlot (map snd (front ++ [last])) (map fst (front ++ [last]))].
Proof.
  unfold rating_handle, rating_round, contests_of. intros H. run_cases H.
  match goal with
  | Hf : foldM (rating_point w) ?cs _ = Ret (?rs, ?ts),
    Hi : list_index ?rs (-1) = Ret ?x,
    Hr : getitem ?body "result" = Ret _ |- _ =>
      apply rating_points_inv in Hf; destruct Hf as (points & Hrs & Hts & HF);
      simpl in Hrs, Hts; subst rs ts;
      apply list_index_last_inv in Hi; destruct Hi as [fr Hi];
      destruct (exists_last (l := points)) as (front & last & ->);
      [ intros ->; destruct fr; discriminate |];
      rewrite map_app in Hi; simpl in Hi;
      apply app_inj_tail in Hi; destruct Hi as [_ <-];
      exists cs, front, last; split; [| split; reflexivity];
      exists body; rewrite Hr; simpl; auto
  end.
Qed.

(** The loop of [rating] over the handles: one request, one plotted line
    and one entry of [rate] per handle. *)
Lemma rating_loop_inv w hs : forall acc n acc' t,
  for_each (rating_handle w) hs acc n = (Ret (Continue acc'), t) ->
  exists rate,
    acc' = acc ++ rate /\
    List.length rate = List.length hs /\
    forall i h, nth_error hs i = Some h ->
      exists contests front last,
        rating_round w (n + i) h contests (front ++ [last]) /\
        nth_error rate i = Some (fst last) /\
        In (PltPlot (map snd (front ++ [last])) (map fst (front ++ [last]))) t.
Proof.
  induction hs as [| h0 hs IH]; intros acc n acc' t H.
  - simpl in H. unfold ret in H. inversion H; subst.
    exists []. rewrite app_nil_r. repeat split.
    intros [| i] h Hn; discriminate.
  - apply for_each_inv in H.
    destruct H as [(a & t1 & t2 & Hb & Hl & ->) | [[_ E] | (e & _ & E)]];
      [| discriminate | discriminate].
    destruct (rating_handle_continue w _ _ _ _ _ Hb) as [_ Hq].
    apply rating_handle_continue_inv in Hb.
    destruct Hb as (contests0 & front0 & last0 & Hr0 & -> & ->).
    apply IH in Hl. destruct Hl as (rate & -> & Hlen & Hnth).
    exists (fst last0 :: rate).
    split; [rewrite <- app_assoc; reflexivity |].
    split; [simpl; congruence |].
    intros [| i] h Hn; simpl in Hn.
    + inversion Hn; subst. exists contests0, front0, last0.
      rewrite Nat.add_0_r. split; [exact Hr0 |]. split; [reflexivity |].
      simpl. auto.
    + destruct (Hnth i h Hn) as (contests & front & last & Hr & Hs & Hin).
      exists contests, front, last. rewrite Hq in Hr.
      replace (n + S i)%nat with (n + 1 + i)%nat by lia.
      split; [exact Hr |]. split; [exact Hs |].
      apply in_or_app. right. exact Hin.
Qed.

(** The legend [rating] draws is the one of its last lines. *)
Lemma rating_legend w handles r t labels :
  run (rating w handles) = (r, t) ->
  In (PltLegend labels) t ->
  exists rate t1,
    for_each (rating_handle w) handles [] 0%nat = (Ret (Continue rate), t1) /\
    labels = combine handles rate /\
    t = PltClf :: t1 ++ rating_tail handles rate.
Proof.
  intros Hrun Hin. apply rating_inv in Hrun.
  destruct Hrun as [(_ & _ & ->) | (Hb & lr & t1 & Hl & Hcase)].
  - destruct Hin as [E | []]. discriminate.
  - assert (Hev : Forall (fun e => loop_event e = true) t1).
    { eapply for_each_Forall; [| exact Hl].
      intros x acc n r0 t0. apply rating_handle_events. }
    assert (Hno : ~ In (PltLegend labels) t1).
    { intros Hin1. rewrite Forall_forall in Hev. apply Hev in Hin1. discriminate. }
    destruct lr as [[rate |] | e]; destruct Hcase as [_ ->];
      (destruct Hin as [E | Hin]; [discriminate |]); try contradiction.
    apply in_app_or in Hin. destruct Hin as [Hin | Hin]; [contradiction |].
    exists rate, t1. split; [exact Hl |]. split; [| reflexivity].
    unfold rating_tail in Hin. simpl in Hin.
    repeat (destruct Hin as [Hin | Hin]; [try discriminate |]); try contradiction.
    inversion Hin. reflexivity.
Qed.

(** X13. The legend of [rating]: when the command draws its legend, there
    is one label per handle, and the label of a handle shows the new
    rating of the last contest of the answer for that handle; the line
    plotted for the handle has one point per contest of the answer, with
    the new ratings of the contests in their order. *)
Theorem rating_legend_last_rating (w : world) handles labels :
  In (PltLegend labels) (snd (run (rating w handles))) ->
  List.length labels = List.length handles /\
  forall i h, nth_error handles i = Some h ->
    exists respjson earlier last newrating times ratings,
      http_get w i "user.rating" [("handle", JStr h)] = HttpJson respjson /\
      contests_of respjson = Ret (earlier ++ [last]) /\
      getitem last "newRating" = Ret newrating /\
      nth_error labels i = Some (h, newrating) /\
      In (PltPlot times ratings) (snd (run (rating w handles))) /\
      List.length times = List.length (earlier ++ [last]) /\
      Forall2 (fun c r => getitem c "newRating" = Ret r) (earlier ++ [last]) ratings.
Proof.
  intros Hin.
  destruct (rating_legend w handles _ _ labels (surjective_pairing _) Hin)
    as (rate & t1 & Hl & -> & Ht).
  apply rating_loop_inv in Hl. destruct Hl as (rate' & E & Hlen & Hnth).
  simpl in E. subst rate'.
  split; [rewrite length_combine, Hlen; apply Nat.min_id |].
  intros i h Hi.
  destruct (Hnth i h Hi) as (contests & front & last & (respjson & Hh & Hc & HF) & Hr & Hp).
  destruct (Forall2_app_inv_r _ _ HF) as (earlier & lastc & HFe & HFl & ->).
  inversion HFl as [| c p cs ps Hcp Hnil]; subst. inversion Hnil; subst.
  exists respjson, earlier, c, (fst last),
         (map snd (front ++ [last])), (map fst (front ++ [last])).
  split; [exact Hh |]. split; [exact Hc |].
  split; [exact (proj1 Hcp) |].
  split; [apply nth_error_combine; assumption |].
  split.
  { rewrite Ht. right. apply in_or_app. left. exact Hp. }
  split.
  { rewrite length_map. symmetry. eapply Forall2_length. exact HF. }
  clear - HF. remember (earlier ++ [c]) as cs. clear Heqcs.
  induction HF as [| c0 p0 cs ps Hcp _ IH]; simpl; constructor; [exact (proj1 Hcp) | exact IH].
Qed.





(** ** [gitgud] on answers of the usual shape *)

Lemma query_api_json w path p n answer :
  http_get w n path p = HttpJson answer ->
  query_api w path p n = (Ret answer, [Query path p]).
Proof. intros H. unfold query_api. rewrite H. reflexivity. Qed.

Lemma standings_name answer :
  standings_answer_ok answer ->
  exists name,
    (let* c := getitem answer "result" in
     let* c := getitem c "contest" in getitem c "name") = Ret name.
Proof.
  intros (o & ro & co & name & -> & Hr & Hc & Hn).
  exists name. unfold getitem, rbind. rewrite Hr. cbv beta iota.
  rewrite Hc. cbv beta iota. rewrite Hn. reflexivity.
Qed.

(** X15. With answers of the usual shape to its three requests and to any
    request for standings, [gitgud] returns: it has replied once, with the
    message that the handle is already too gud or with the embed of a
    problem, and that is the last thing it did. *)
Theorem gitgud_returns_reply (w : world) handle probjson infojson subsjson :
  http_get w 0 "problemset.problems" [] = HttpJson probjson ->
  http_get w 1 "user.info" [("handles", JStr handle)] = HttpJson infojson ->
  http_get w 2 "user.status" [("handle", JStr handle)] = HttpJson subsjson ->
  problems_answer_ok probjson ->
  info_answer_ok infojson ->
  status_answer_ok subsjson ->
  (forall p, exists answer,
      http_get w 3 "contest.standings" p = HttpJson answer /\ standings_answer_ok answer) ->
  exists t recs,
    recommendations_of probjson infojson subsjson = Ret recs /\
    run (gitgud w handle) = (Ret tt, t) /\
    ends_in_reply t /\
    (recs = [] -> nqueries t = 3%nat) /\
    (recs <> [] -> nqueries t = 4%nat).
Proof.
  intros Hp Hi Hs Hpok Hiok Hsok Hst.
  destruct (recommendations_of_returns _ _ _ Hpok Hiok Hsok) as [recs Hrecs].
  pose proof (recommendations_of_wf _ _ _ _ Hrecs) as Hw.
  apply query_api_json in Hp, Hi, Hs.
  destruct (recommend w handle recs 3%nat) as [r t'] eqn:Hr.
  pose proof (gitgud_run _ _ _ _ _ _ _ _ _ _ _ Hp Hi Hs Hrecs Hr) as Hrun.
  pose proof (gitgud_reply_once_run w handle _ _ Hrun) as Hrep.
  apply recommend_inv in Hr; [| exact Hw].
  destruct Hr as [(-> & -> & ->) | (Hne & name & rating & cid & idx & rc & tq & _ & _ & _ & Hq & Hcase)].
  - eexists. exists []. split; [exact Hrecs |]. split; [exact Hrun |].
    split; [exact Hrep |]. split; [reflexivity | congruence].
  - destruct (Hst [("contestId", cid); ("from", JNum 1); ("count", JNum 1)])
      as (answer & Ha & Haok).
    apply query_api_json in Ha. rewrite Ha in Hq. inversion Hq; subst rc tq.
    destruct (standings_name _ Haok) as [cname Hn].
    destruct Hcase as [(e & _ & _ & [E | (cj & E & Hc)]) | (cj & cn & E & Hc & -> & ->)].
    + discriminate.
    + inversion E; subst cj. rewrite Hn in Hc. discriminate.
    + eexists. exists recs. split; [exact Hrecs |]. split; [exact Hrun |].
      split; [exact Hrep |]. split; [congruence | reflexivity].
Qed.

(** ** What [gitgud] recommends *)

Lemma candidate_entry_rating bucket p k v :
  candidate_entry bucket p = Some (k, v) -> json_eq_int (snd k) bucket = true.
Proof.
  unfold candidate_entry, getitem, get_method. intros H.
  destruct p; try discriminate.
  destruct (assoc "tags" o); try discriminate.
  destruct (str_in "*special" j) as [[|] |]; try discriminate.
  destruct (str_in "contestId" (JObj o)) as [[|] |]; try discriminate.
  destruct (assoc "rating" o) as [r |] eqn:Er.
  - destruct (json_eq_int r bucket) eqn:Eq; try discriminate.
    destruct (assoc "name" o); try discriminate.
    destruct (assoc "contestId" o); try discriminate.
    destruct (assoc "index" o); try discriminate.
    inversion H; subst. exact Eq.
  - destruct (json_eq_int JNull bucket); try discriminate.
    destruct (assoc "name" o); try discriminate.
    destruct (assoc "contestId" o); try discriminate.
    destruct (assoc "index" o); discriminate.
Qed.

Lemma dict_lookup_In {V} k (d : dict V) v :
  dict_lookup k d = Some v -> exists k', In (k', v) d /\ same_key k k' = true.
Proof.
  induction d as [| [k1 v1] d IH]; simpl; [discriminate |].
  destruct (same_key k k1) eqn:E.
  - intros H. inversion H; subst. exists k1. auto.
  - intros H. destruct (IH H) as (k' & Hin & Hk). exists k'. auto.
Qed.

Lemma somes_In {A B} (f : A -> option B) xs y :
  In y (somes f xs) <-> exists x, In x xs /\ f x = Some y.
Proof.
  unfold somes. rewrite in_flat_map. split.
  - intros (x & Hx & Hy). exists x. split; [exact Hx |].
    destruct (f x); simpl in Hy; [| contradiction].
    destruct Hy as [-> | []]. reflexivity.
  - intros (x & Hx & Hy). exists x. split; [exact Hx |]. rewrite Hy. simpl. auto.
Qed.

(** X16. What [gitgud] recommends: when the command sends an embed, the
    rating it shows equals the bucket of the user, and the contest id and
    the index it links to are those of a problem of the problem set that
    has no tag "*special", has the rating of the bucket and a contestId,
    and has the name and the rating the embed shows. *)
Theorem gitgud_recommends_candidate (w : world) handle probjson infojson subsjson
    tp ti ts bucket problems content e :
  query_api w "problemset.problems" [] 0%nat = (Ret probjson, tp) ->
  query_api w "user.info" [("handles", JStr handle)] 1%nat = (Ret infojson, ti) ->
  query_api w "user.status" [("handle", JStr handle)] 2%nat = (Ret subsjson, ts) ->
  user_bucket infojson = Ret bucket ->
  problems_of probjson = Ret problems ->
  In (SendEmbed content e) (snd (run (gitgud w handle))) ->
  json_eq_int (embed_rating e) bucket = true /\
  exists p k,
    In p problems /\
    candidate_entry bucket p = Some (k, (embed_contestid e, embed_index e)) /\
    same_key (embed_name e, embed_rating e) k = true.
Proof.
  intros Hp Hi Hs Hb Hps Hin.
  destruct (query_api_trace _ _ _ _ _ _ Hp) as [_ Sp].
  destruct (query_api_trace _ _ _ _ _ _ Hi) as [_ Si].
  destruct (query_api_trace _ _ _ _ _ _ Hs) as [_ Ss].
  assert (S3 : silent (tp ++ ti ++ ts)) by auto using silent_app.
  pose proof (gitgud_inv w handle _ _ (surjective_pairing _)) as H.
  destruct H as (rp & tp' & Hp' & H). rewrite Hp in Hp'. inversion Hp'; subst rp tp'.
  destruct H as (ri & ti' & Hi' & H). rewrite Hi in Hi'. inversion Hi'; subst ri ti'.
  destruct H as (rs & ts' & Hs' & H). rewrite Hs in Hs'. inversion Hs'; subst rs ts'.
  destruct (recommendations_of probjson infojson subsjson) as [recs | ex] eqn:Hrecs.
  2:{ destruct H as [_ Ht]. rewrite Ht in Hin.
      unfold silent in S3. rewrite Forall_forall in S3. apply S3 in Hin. discriminate. }
  destruct H as (t' & Hr & Ht). rewrite Ht in Hin.
  destruct (recommendations_of_inv _ _ _ _ Hrecs)
    as (b & ps & ss & mid & Hb' & Hps' & _ & Hadd & Hdel).
  assert (b = bucket) by congruence. assert (ps = problems) by congruence. subst b ps.
  destruct (fold_add_candidate _ _ _ _ Hadd I) as (Hw1 & Hl1 & Hk1).
  destruct (fold_remove_solved _ _ _ Hdel Hw1) as (Hw2 & Hl2 & Hk2).
  apply recommend_inv in Hr; [| exact Hw2].
  destruct Hr as [(_ & _ & ->) | (_ & name & rating & cid & idx & rc & tq & _ & Hine & Hlk & Hq & Hcase)].
  { rewrite !in_app_iff in Hin. simpl in Hin.
    unfold silent in Sp, Si, Ss. rewrite Forall_forall in Sp, Si, Ss.
    destruct Hin as [Hin | [Hin | [Hin | [Hin | []]]]];
      [apply Sp in Hin | apply Si in Hin | apply Ss in Hin |]; discriminate. }
  destruct (query_api_trace _ _ _ _ _ _ Hq) as [_ Sq].
  assert (He : e = {| embed_index := idx; embed_name := name; embed_contestid := cid;
                      embed_contestname := embed_contestname e; embed_rating := rating |}).
  { unfold silent in Sp, Si, Ss, Sq. rewrite Forall_forall in Sp, Si, Ss, Sq.
    destruct Hcase as [(ex & _ & -> & _) | (cj & cn & _ & _ & _ & ->)];
      rewrite !in_app_iff in Hin; simpl in Hin.
    - destruct Hin as [Hin | [Hin | [Hin | Hin]]];
        [apply Sp in Hin | apply Si in Hin | apply Ss in Hin | apply Sq in Hin]; discriminate.
    - destruct Hin as [Hin | [Hin | [Hin | [Hin | [Hin | []]]]]];
        [apply Sp in Hin | apply Si in Hin | apply Ss in Hin | apply Sq in Hin |];
        try discriminate.
      inversion Hin. reflexivity. }
  rewrite He. simpl.
  split.
  - assert (Hkey : In (name, rating) (dict_keys recs)).
    { unfold dict_keys. apply in_map_iff. exists ((name, rating), (cid, idx)). auto. }
    apply Hk2, Hk1 in Hkey. destruct Hkey as [[] | Hkey].
    apply in_map_iff in Hkey. destruct Hkey as ([k' v'] & Ek & Hc). simpl in Ek. subst k'.
    apply somes_In in Hc. destruct Hc as (p & _ & Hc).
    apply (candidate_entry_rating _ _ _ _ Hc).
  - specialize (Hl2 (name, rating)). rewrite Hlk in Hl2.
    destruct (key_mem (name, rating) (ok_pairs ss)); [discriminate |].
    rewrite Hl1 in Hl2.
    destruct (lookup_last (name, rating) (candidates bucket problems)) as [v |] eqn:El;
      [| discriminate].
    inversion Hl2; subst v.
    unfold lookup_last in El. apply dict_lookup_In in El.
    destruct El as (k' & Hc & Hsame).
    apply in_rev in Hc. apply somes_In in Hc. destruct Hc as (p & Hp0 & Hc).
    exists p, k'. auto.
Qed.


(** ** The counts of [solved] *)

Lemma ok_rated_pair_inv sub k :
  ok_pair_with truthy sub = Some k -> ok_verdict sub = true /\ truthy (snd k) = true.
Proof.
  unfold ok_pair_with, ok_verdict. intros H.
  destruct (getitem sub "verdict") as [v |]; [| discriminate].
  destruct (getitem sub "problem") as [p |]; [| discriminate].
  destruct (json_is_str "OK" v); [| discriminate].
  destruct (getitem p "name"); [| discriminate].
  destruct (get_method p "rating") as [r |]; [| discriminate].
  destruct (truthy r) eqn:E; [| discriminate].
  inversion H; subst. auto.
Qed.

Lemma somes_length_filter {A B} (f : A -> option B) (g : A -> bool) xs :
  (forall x y, f x = Some y -> g x = true) ->
  (List.length (somes f xs) <= List.length (filter g xs))%nat.
Proof.
  intros Hfg. unfold somes. induction xs as [| x xs IH]; simpl; [lia |].
  destruct (f x) as [y |] eqn:E; simpl.
  - rewrite (Hfg x y E). simpl. lia.
  - destruct (g x); simpl; lia.
Qed.

(** X17. The counts of [solved]: in the histogram the command plots, the
    count in the label of a handle is the length of the series of the
    handle and is at most the number of submissions with verdict "OK" in
    the answer for the handle, and every rating of the series is true in
    an [if] (no [None], no zero). *)
Theorem solved_counts_bound (w : world) handles allratings bins labels :
  In (PltHist allratings bins labels) (snd (run (solved w handles))) ->
  forall i h, nth_error handles i = Some h ->
    exists respjson subs series,
      http_get w i "user.status" [("handle", JStr h)] = HttpJson respjson /\
      submissions_of respjson = Ret subs /\
      nth_error allratings i = Some series /\
      nth_error labels i = Some (h, List.length series) /\
      (List.length series <= List.length (filter ok_verdict subs))%nat /\
      Forall (fun r => truthy r = true) series.
Proof.
  intros Hin i h Hi.
  destruct (solved_hist w handles _ _ _ _ _ (surjective_pairing _) Hin)
    as (_ & [t1 Hloop] & _ & ->).
  apply solved_loop_inv in Hloop.
  destruct Hloop as (series & E & Hlen & Hnth). simpl in E. subst series.
  destruct (Hnth i h Hi) as (subs & problems & (respjson & Hh & Hs & Hf) & Hser).
  destruct (fold_add_solved _ _ _ Hf I) as (Hw & _ & Hin' & _).
  assert (Hincl : incl problems (ok_rated_pairs subs)).
  { intros k Hk. destruct (Hin' k Hk) as [[] | H1]. exact H1. }
  exists respjson, subs, (map snd problems).
  split; [exact Hh |]. split; [exact Hs |]. split; [exact Hser |].
  split; [| split].
  - unfold hist_labels.
    erewrite map_nth_error; [| apply nth_error_combine; eassumption]. reflexivity.
  - rewrite length_map.
    apply Nat.le_trans with (List.length (ok_rated_pairs subs)).
    + apply NoDup_incl_length; [apply keys_wf_NoDup; exact Hw | exact Hincl].
    + apply somes_length_filter. intros x y Hxy. apply (ok_rated_pair_inv _ _ Hxy).
  - apply Forall_forall. intros r Hr. apply in_map_iff in Hr.
    destruct Hr as (k & <- & Hk). apply Hincl in Hk.
    apply somes_In in Hk. destruct Hk as (sub & _ & Hk).
    apply (ok_rated_pair_inv _ _ Hk).
Qed.

(** ** The solved set and the order of the submissions *)

Lemma keys_wf_remove x b y :
  keys_wf (x ++ b :: y) -> keys_wf (x ++ y) /\ key_mem b (x ++ y) = false.
Proof.
  induction x as [| c x IH]; simpl.
  - intros (_ & Hm & Hw). auto.
  - intros (Hc & Hm & Hw). destruct (IH Hw) as [Hw' Hb].
    rewrite key_mem_app in Hm. simpl in Hm.
    apply orb_false_iff in Hm. destruct Hm as [Hx Hm].
    unfold key_mem in Hm at 1. simpl in Hm.
    apply orb_false_iff in Hm. destruct Hm as [Hcb Hy].
    split.
    + split; [exact Hc |]. split; [| exact Hw'].
      rewrite key_mem_app, Hx. exact Hy.
    + unfold key_mem at 1. simpl. rewrite same_key_sym, Hcb. exact Hb.
Qed.

(** Two sets with the same elements have the same size. *)
Lemma keys_wf_same_length l1 : forall l2,
  keys_wf l1 -> keys_wf l2 ->
  (forall k, key_mem k l1 = key_mem k l2) ->
  List.length l1 = List.length l2.
Proof.
  induction l1 as [| a l1 IH]; intros l2 Hw1 Hw2 Hm.
  - destruct l2 as [| b l2]; [reflexivity |].
    destruct Hw2 as (Hb & _ & _).
    specialize (Hm b). unfold key_mem in Hm. simpl in Hm.
    rewrite (same_key_refl _ Hb) in Hm. discriminate.
  - destruct Hw1 as (Ha & Hma & Hw1).
    assert (Hin : key_mem a l2 = true).
    { rewrite <- Hm. unfold key_mem. simpl. rewrite (same_key_refl _ Ha). reflexivity. }
    unfold key_mem in Hin. apply existsb_exists in Hin. destruct Hin as (b & Hb & Hab).
    apply in_split in Hb. destruct Hb as (x & y & ->).
    destruct (keys_wf_remove _ _ _ Hw2) as [Hw2' Hmb].
    rewrite length_app. simpl. rewrite Nat.add_succ_r, <- length_app. f_equal.
    apply IH; [exact Hw1 | exact Hw2' |].
    intros k. specialize (Hm k).
    rewrite key_mem_app in Hm. unfold key_mem in Hm at 1 3. simpl in Hm.
    fold (key_mem k l1) in Hm. fold (key_mem k y) in Hm.
    destruct (same_key k a) eqn:Eka.
    + rewrite (key_mem_congr _ _ _ Eka), Hma.
      assert (Ekb : same_key k b = true)
        by (rewrite (same_key_congr_r _ _ k Hab) in Eka; exact Eka).
      rewrite (key_mem_congr _ _ _ Ekb), Hmb. reflexivity.
    + assert (Ekb : same_key k b = false)
        by (rewrite <- (same_key_congr_r _ _ k Hab); exact Eka).
      rewrite Ekb in Hm. simpl in Hm. rewrite key_mem_app. exact Hm.
Qed.

Lemma key_mem_perm k l l' : Permutation l l' -> key_mem k l = key_mem k l'.
Proof.
  unfold key_mem. intros H. induction H; simpl.
  - reflexivity.
  - rewrite IHPermutation. reflexivity.
  - rewrite !orb_assoc, (orb_comm (same_key k y)). reflexivity.
  - congruence.
Qed.

Lemma somes_perm {A B} (f : A -> option B) xs xs' :
  Permutation xs xs' -> Permutation (somes f xs) (somes f xs').
Proof.
  unfold somes. intros H. induction H; simpl.
  - constructor.
  - apply Permutation_app_head. exact IHPermutation.
  - rewrite !app_assoc. apply Permutation_app_tail. apply Permutation_app_comm.
  - eapply perm_trans; eassumption.
Qed.

(** Whether a round of the loop raises does not depend on the set built so
    far. *)
Lemma add_solved_returns_any sub s s' r :
  add_solved sub s = Ret r -> exists r', add_solved sub s' = Ret r'.
Proof.
  unfold add_solved, rbind, set_add. intros H.
  destruct (getitem sub "verdict") as [v |]; [| discriminate].
  destruct (json_is_str "OK" v); [| eauto].
  destruct (getitem sub "problem") as [p |]; [| discriminate].
  destruct (getitem p "name") as [name |]; [| discriminate].
  destruct (get_method p "rating") as [rating |]; [| discriminate].
  destruct (truthy rating); [| eauto].
  destruct (hash_key (name, rating)); [eauto | discriminate].
Qed.

Lemma foldM_add_solved_rounds subs : forall s r,
  foldM add_solved subs s = Ret r ->
  Forall (fun sub => forall acc, exists acc', add_solved sub acc = Ret acc') subs.
Proof.
  induction subs as [| sub subs IH]; intros s r H; [constructor |].
  simpl in H. destruct (add_solved sub s) as [s1 |] eqn:E; [| discriminate].
  simpl in H. constructor.
  - intros acc. eapply add_solved_returns_any. exact E.
  - eapply IH. exact H.
Qed.

(** X18. The set [solved] builds for a handle does not depend on the order
    in which the answer lists the submissions: on a reordered list the
    loop returns as well, with a set of the same size (so the same count
    in the label) and the same elements. *)
Theorem solved_set_order (subs subs' : list json) (problems : list key) :
  Permutation subs subs' ->
  foldM add_solved subs [] = Ret problems ->
  exists problems',
    foldM add_solved subs' [] = Ret problems' /\
    List.length problems' = List.length problems /\
    forall k, key_mem k problems' = key_mem k problems.
Proof.
  intros Hperm Hf.
  pose proof (foldM_add_solved_rounds _ _ _ Hf) as Hall.
  apply (Permutation_Forall Hperm) in Hall.
  destruct (foldM_returns add_solved
              (fun sub => forall acc, exists acc', add_solved sub acc = Ret acc')
              subs' (fun x acc Hx => Hx acc) Hall []) as [problems' Hf'].
  exists problems'. split; [exact Hf' |].
  destruct (fold_add_solved _ _ _ Hf I) as (Hw & Hm & _ & _).
  destruct (fold_add_solved _ _ _ Hf' I) as (Hw' & Hm' & _ & _).
  assert (Hsame : forall k, key_mem k problems' = key_mem k problems).
  { intros k. rewrite Hm, Hm'. simpl.
    symmetry. apply key_mem_perm. apply somes_perm. exact Hperm. }
  split; [| exact Hsame].
  apply keys_wf_same_length; assumption.
Qed.

Lemma solved_set_order_witness :
  let subs := [submission "Watermelon" (JNum 1500) "OK";
               submission "Far" (JNum 1600) "OK";
               submission "Watermelon" (JNum 1500) "OK"] in
  let subs' := [submission "Far" (JNum 1600) "OK";
                submission "Watermelon" (JNum 1500) "OK";
                submission "Watermelon" (JNum 1500) "OK"] in
  foldM add_solved subs [] = Ret [(JStr "Watermelon", JNum 1500); (JStr "Far", JNum 1600)] /\
  exists problems',
    foldM add_solved subs' [] = Ret problems' /\ List.length problems' = 2%nat.
Proof.
  intros subs subs'. split; [reflexivity |].
  destruct (solved_set_order subs subs'
              [(JStr "Watermelon", JNum 1500); (JStr "Far", JNum 1600)])
    as (problems' & Hf & Hlen & _).
  - apply perm_swap.
  - reflexivity.
  - exists problems'. auto.
Defined.

(** ** The properties above on the sample answers *)

Lemma sample_status_ok :
  status_answer_ok (JObj [("status", JStr "OK"); ("result", sample_submissions)]).
Proof.
  do 2 eexists. split; [reflexivity |]. split; [reflexivity |].
  exact sample_submissions_ok.
Qed.





Lemma rating_legend_last_rating_witness :
  let labels := [("tourist", JNum 1540); ("petr", JNum 1540)] in
  In (PltLegend labels) (snd (run (rating (sample_world 0) ["tourist"; "petr"]))) /\
  List.length labels = List.length ["tourist"; "petr"].
Proof.
  intros labels.
  assert (Hin : In (PltLegend labels)
                   (snd (run (rating (sample_world 0) ["tourist"; "petr"]))))
    by (vm_compute; tauto).
  split; [exact Hin |].
  exact (proj1 (rating_legend_last_rating (sample_world 0) ["tourist"; "petr"] labels Hin)).
Defined.

Lemma gitgud_returns_reply_witness :
  exists t recs,
    recommendations_of (JObj [("status", JStr "OK"); ("result", sample_problems)])
      (JObj [("status", JStr "OK"); ("result", sample_info)])
      (JObj [("status", JStr "OK"); ("result", sample_submissions)]) = Ret recs /\
    run (gitgud (sample_world 1) "tourist") = (Ret tt, t) /\
    ends_in_reply t /\
    (recs = [] -> nqueries t = 3%nat) /\
    (recs <> [] -> nqueries t = 4%nat).
Proof.
  apply (gitgud_returns_reply (sample_world 1) "tourist");
    try reflexivity.
  - exact sample_problems_ok.
  - exact sample_info_ok.
  - exact sample_status_ok.
  - intros p. eexists. split; [reflexivity |].
    do 4 eexists. repeat split; reflexivity.
Defined.

Lemma gitgud_recommends_candidate_witness :
  let e := {| embed_index := JStr "E"; embed_name := JStr "Easy";
              embed_contestid := JNum 12;
              embed_contestname := JStr "Codeforces Round 12";
              embed_rating := JNum 1500 |} in
  In (SendEmbed "Recommended problem for `tourist`" e)
     (snd (run (gitgud (sample_world 1) "tourist"))) /\
  json_eq_int (embed_rating e) 1500 = true.
Proof.
  intros e.
  assert (Hin : In (SendEmbed "Recommended problem for `tourist`" e)
                   (snd (run (gitgud (sample_world 1) "tourist"))))
    by (vm_compute; tauto).
  split; [exact Hin |].
  exact (proj1 (gitgud_recommends_candidate (sample_world 1) "tourist"
                  (JObj [("status", JStr "OK"); ("result", sample_problems)])
                  (JObj [("status", JStr "OK"); ("result", sample_info)])
                  (JObj [("status", JStr "OK"); ("result", sample_submissions)])
                  [Query "problemset.problems" []]
                  [Query "user.info" [("handles", JStr "tourist")]]
                  [Query "user.status" [("handle", JStr "tourist")]]
                  1500
                  [problem_json "Watermelon" 1500 4 "A" ["math"];
                   problem_json "April" 1500 171 "B" ["*special"; "dp"];
                   problem_json "Boring" 1500 7 "C" ["dp"];
                   problem_json "Far" 1600 9 "D" [];
                   problem_json "Easy" 1500 12 "E" ["greedy"]]
                  "Recommended problem for `tourist`" e
                  eq_refl eq_refl eq_refl eq_refl eq_refl Hin)).
Defined.

Lemma solved_counts_bound_witness :
  let labels := [("tourist", 2%nat)] in
  In (PltHist [[JNum 1500; JNum 1600]] (histbins ["tourist"]) labels)
     (snd (run (solved (sample_world 0) ["tourist"]))) /\
  exists (subs : list json) (series : list json),
    nth_error labels 0 = Some ("tourist", List.length series) /\
    (List.length series <= List.length (filter ok_verdict subs))%nat.
Proof.
  intros labels.
  assert (Hin : In (PltHist [[JNum 1500; JNum 1600]] (histbins ["tourist"]) labels)
                   (snd (run (solved (sample_world 0) ["tourist"]))))
    by (vm_compute; tauto).
  split; [exact Hin |].
  destruct (solved_counts_bound (sample_world 0) ["tourist"] _ _ _ Hin 0%nat "tourist" eq_refl)
    as (respjson & subs & series & _ & _ & _ & Hlab & Hle & _).
  exists subs, series. auto.
Defined.

(** ** [gitgud] and the answer to its fourth request *)

(** X19. [gitgud] does not check the answer to its request for the
    standings either: with a recommendation set that is not empty, when
    that request fails with a connection error the command ends in a
    [TypeError] after its four requests and sends nothing. *)
Theorem gitgud_standings_unreachable (w : world) handle probjson infojson subsjson
    tp ti ts recs :
  query_api w "problemset.problems" [] 0%nat = (Ret probjson, tp) ->
  query_api w "user.info" [("handles", JStr handle)] 1%nat = (Ret infojson, ti) ->
  query_api w "user.status" [("handle", JStr handle)] 2%nat = (Ret subsjson, ts) ->
  recommendations_of probjson infojson subsjson = Ret recs ->
  recs <> [] ->
  (forall p, http_get w 3 "contest.standings" p = HttpConnectionError) ->
  exists contestid,
    run (gitgud w handle)
    = (Raise TypeError, tp ++ ti ++ ts ++ [standings_query contestid; LogError]) /\
    silent (tp ++ ti ++ ts ++ [standings_query contestid; LogError]) /\
    nqueries (tp ++ ti ++ ts ++ [standings_query contestid; LogError]) = 4%nat.
Proof.
  intros Hp Hi Hs Hrecs Hne Hst.
  pose proof (recommendations_of_wf _ _ _ _ Hrecs) as Hw.
  destruct (recommend w handle recs 3%nat) as [r t'] eqn:Hr.
  pose proof (gitgud_run _ _ _ _ _ _ _ _ _ _ _ Hp Hi Hs Hrecs Hr) as Hrun.
  apply recommend_inv in Hr; [| exact Hw].
  destruct Hr as [(E & _) | (_ & name & rating & cid & idx & rc & tq & _ & _ & _ & Hq & Hcase)];
    [contradiction |].
  unfold query_api in Hq. rewrite Hst in Hq. inversion Hq; subst rc tq.
  exists cid.
  destruct (query_api_trace _ _ _ _ _ _ Hp) as [Qp Sp].
  destruct (query_api_trace _ _ _ _ _ _ Hi) as [Qi Si].
  destruct (query_api_trace _ _ _ _ _ _ Hs) as [Qs Ss].
  destruct Hcase as [(e & -> & -> & [E | (cj & E & Hc)]) | (cj & cn & E & Hc & _)].
  - discriminate.
  - inversion E; subst cj. simpl in Hc. inversion Hc; subst e.
    split; [exact Hrun |]. split.
    + repeat (apply silent_app; [assumption |]). unfold silent. repeat constructor.
    + rewrite !nqueries_app, Qp, Qi, Qs. reflexivity.
  - inversion E; subst cj. simpl in Hc. discriminate.
Qed.

Lemma gitgud_standings_unreachable_witness :
  let w := world_of (sample_http_with (api_ok sample_info) (api_ok sample_submissions)
                       HttpConnectionError) 1 in
  exists contestid,
    run (gitgud w "tourist")
    = (Raise TypeError,
       [Query "problemset.problems" []] ++
       [Query "user.info" [("handles", JStr "tourist")]] ++
       [Query "user.status" [("handle", JStr "tourist")]] ++
       [standings_query contestid; LogError]).
Proof.
  intros w.
  destruct (gitgud_standings_unreachable w "tourist"
              (JObj [("status", JStr "OK"); ("result", sample_problems)])
              (JObj [("status", JStr "OK"); ("result", sample_info)])
              (JObj [("status", JStr "OK"); ("result", sample_submissions)])
              [Query "problemset.problems" []]
              [Query "user.info" [("handles", JStr "tourist")]]
              [Query "user.status" [("handle", JStr "tourist")]]
              [((JStr "Boring", JNum 1500), (JNum 7, JStr "C"));
               ((JStr "Easy", JNum 1500), (JNum 12, JStr "E"))]
              eq_refl eq_refl eq_refl eq_refl)
    as (cid & Hrun & _); [discriminate | reflexivity |].
  exists cid. exact Hrun.
Defined.
